(** * Event admission pipeline of the relay: a shallow embedding

    The development follows [src/handlers/event-message-handler.ts]
    (class [EventMessageHandler] and [userRequestHandler]), the settings
    declarations and the first [UserRepository] class of the repository
    sources.

    Conventions.
    - JavaScript [number] and [bigint] values that the code compares and
      prints (lengths, deltas, kinds, periods, balances) are integers [Z].
    - An optional property ([x?: T], or a value tested against
      [undefined]) is an [option].
    - Stateful code is a function of the [World] in a small state and
      exception monad [M]; a JavaScript exception is the result [Throw]. *)

From stdpp Require Import gmap strings list fin_maps pretty.
From Stdlib Require Import ZArith Lia.

Open Scope Z_scope.

(** ** Settings (src/@types/settings.ts) *)

(** [EventKinds | EventKindsRange]: an exact kind or a pair [[lo, hi]]. *)
Inductive KindItem : Type :=
  | KindExact (k : Z)
  | KindRange (lo hi : Z).

Record ContentLimits := {
  cl_kinds : option (list KindItem);
  cl_maxLength : option Z
}.

(** [content?: ContentLimits | ContentLimits[]] *)
Inductive ContentSetting : Type :=
  | ContentAbsent
  | ContentSingle (c : ContentLimits)
  | ContentSeq (cs : list ContentLimits).

Record CreatedAtLimits := {
  maxNegativeDelta : option Z;
  maxPositiveDelta : option Z
}.

Record EventIdLimits := {
  eid_minLeadingZeroBits : option Z
}.

Record PubkeyLimits := {
  minBalance : option Z;
  pk_minLeadingZeroBits : option Z;
  pk_whitelist : option (list string);
  pk_blacklist : option (list string)
}.

Record KindLimits := {
  kind_whitelist : option (list KindItem);
  kind_blacklist : option (list KindItem)
}.

Record EventRateLimit := {
  period : Z;
  rate : Z;
  rl_kinds : option (list KindItem)
}.

Record EventWhitelists := {
  wl_pubkeys : option (list string);
  wl_ipAddresses : option (list string)
}.

Record EventLimits := {
  eventId : option EventIdLimits;
  pubkey : option PubkeyLimits;
  kind : option KindLimits;
  createdAt : option CreatedAtLimits;
  content : ContentSetting;
  rateLimits : option (list EventRateLimit);
  whitelists : option EventWhitelists
}.

(** The object [{}] used by [settings().limits?.event ?? {}]. *)
Definition noEventLimits : EventLimits :=
  {| eventId := None; pubkey := None; kind := None; createdAt := None;
     content := ContentAbsent; rateLimits := None; whitelists := None |}.

Record FeeSchedule := {
  enabled : bool;
  amount : Z;
  fee_whitelist_pubkeys : option (list string)   (* whitelists?.pubkeys *)
}.

Record FeeSchedules := {
  admission : list FeeSchedule;
  publication : list FeeSchedule;
  topUp : list FeeSchedule
}.

Record Payments := {
  payments_enabled : bool;
  feeSchedules : option FeeSchedules
}.

Record WebhookEndpoints := {
  baseURL : string;
  ep_pubkeyCheck : option string;
  ep_eventCheck : option string;
  ep_eventCallback : option string;
  ep_topUps : option string
}.

Record Webhooks := {
  pubkeyChecks : bool;
  topUps : bool;
  eventChecks : bool;
  eventCallbacks : bool;
  endpoints : option WebhookEndpoints
}.

Record Settings := {
  payments : option Payments;
  limits_event : option EventLimits;   (* limits?.event *)
  webhooks : option Webhooks
}.

(** ** Events and command results *)

Record Event := {
  id : string;
  ev_pubkey : string;
  created_at : Z;
  ev_kind : Z;
  tags : list (list string);
  ev_content : string;
  sig : string;
  (* event[ContextMetadataKey] *)
  ev_context : option string;
  (* event[EventExpirationTimeMetadataKey] *)
  ev_expiration : option Z
}.

(** The frame [["OK", eventId, accepted, reason]]; the reason of an
    event-check veto is whatever the server sent, possibly nothing. *)
Record CommandResult := {
  cr_eventId : string;
  cr_accepted : bool;
  cr_reason : option string
}.

(** Modelled from the spec: [createCommandResult] of utils/messages,
    which builds the acknowledgement ["OK", eventId, accepted, reason]. *)
Definition createCommandResult (eventId : string) (successful : bool)
    (message : option string) : CommandResult :=
  {| cr_eventId := eventId; cr_accepted := successful; cr_reason := message |}.

(** ** Helpers of utils/event *)

(** Modelled from the spec: [isEventKindOrRangeMatch] of utils/event; a
    kind matcher accepts an exact integer by equality and a pair
    [[lo, hi]] as an inclusive range. *)
Definition isEventKindOrRangeMatch (e : Event) (item : KindItem) : bool :=
  match item with
  | KindExact k => k =? ev_kind e
  | KindRange lo hi => (lo <=? ev_kind e) && (ev_kind e <=? hi)
  end.

(** Leading zero bits of one hexadecimal digit; [None] when the
    character is no hexadecimal digit. *)
Definition hexDigitZeroBits (c : Ascii.ascii) : option Z :=
  let n := Z.of_N (Ascii.N_of_ascii c) in
  let v := if (48 <=? n) && (n <=? 57) then Some (n - 48)
           else if (97 <=? n) && (n <=? 102) then Some (n - 87)
           else if (65 <=? n) && (n <=? 70) then Some (n - 55)
           else None in
  match v with
  | None => None
  | Some d =>
      Some (if d =? 0 then 4 else if d <? 2 then 3 else if d <? 4 then 2
            else if d <? 8 then 1 else 0)
  end.

(** Modelled from the spec: the leading zero bits of a hex string read
    as a big-endian unsigned integer ([getLeadingZeroBits] of
    utils/proof-of-work is not among the sources). *)
Fixpoint getLeadingZeroBits (hex : string) : Z :=
  match hex with
  | EmptyString => 0
  | String c rest =>
      match hexDigitZeroBits c with
      | Some 4 => 4 + getLeadingZeroBits rest
      | Some b => b
      | None => 0
      end
  end.

Definition getEventProofOfWork (eventId : string) : Z := getLeadingZeroBits eventId.
Definition getPubkeyProofOfWork (pk : string) : Z := getLeadingZeroBits pk.

(** [xs.some(f)] and [s.startsWith(prefix)]. *)
Definition some {A} (f : A -> bool) (xs : list A) : bool := existsb f xs.
Definition startsWith (s prefix : string) : bool := String.prefix prefix s.

(** [event.content.length], in code units of the content string. *)
Definition contentLength (e : Event) : Z := Z.of_nat (String.length (ev_content e)).

(** ** Policy evaluator: [canAcceptEvent] *)

Module Policy.

(** The condition shared by the loop body and by the single-record
    branch (lines 136-144 and 148-156). *)
Definition contentTooLong (e : Event) (limit : ContentLimits) : bool :=
  match cl_maxLength limit with
  | None => false                                   (* typeof … !== 'undefined' *)
  | Some maxLength =>
      (0 <? maxLength)
      && (maxLength <? contentLength e)
      && match cl_kinds limit with
         | None => true                             (* !Array.isArray(limit.kinds) *)
         | Some kinds => some (isEventKindOrRangeMatch e) kinds
         end
  end.

Definition contentReason (maxLength : Z) : string :=
  "rejected: content is longer than " +:+ pretty maxLength +:+ " bytes".

(** [for (const limit of limits.content) { if (…) return … }] *)
Fixpoint contentLoop (e : Event) (cs : list ContentLimits) : option string :=
  match cs with
  | [] => None
  | limit :: rest =>
      if contentTooLong e limit
      then Some (contentReason (default 0 (cl_maxLength limit)))
      else contentLoop e rest
  end.

Definition futureReason (d : Z) : string :=
  "rejected: created_at is more than " +:+ pretty d +:+ " seconds in the future".
Definition pastReason (d : Z) : string :=
  "rejected: created_at is more than " +:+ pretty d +:+ " seconds in the past".
Definition powReason (pow min : Z) : string :=
  "pow: difficulty " +:+ pretty pow +:+ "<" +:+ pretty min.
Definition pubkeyPowReason (pow min : Z) : string :=
  "pow: pubkey difficulty " +:+ pretty pow +:+ "<" +:+ pretty min.
Definition pubkeyReason : string := "blocked: pubkey not allowed".
Definition kindReason (k : Z) : string :=
  "blocked: event kind " +:+ pretty k +:+ " not allowed".

(** [if (Array.isArray(limits.content)) { for … } else if (…) { … }]
    (lines 134-158). *)
Definition contentCheck (limits : EventLimits) (e : Event) : option string :=
  match content limits with
  | ContentSeq cs => contentLoop e cs
  | ContentSingle c =>
      if contentTooLong e c
      then Some (contentReason (default 0 (cl_maxLength c)))
      else None
  | ContentAbsent => None
  end.

(** Lines 160-165. *)
Definition futureSkew (now : Z) (limits : EventLimits) (e : Event) : option string :=
  match createdAt limits ≫= maxPositiveDelta with
  | Some d =>
      if (0 <? d) && (now + d <? created_at e) then Some (futureReason d) else None
  | None => None
  end.

(** Lines 167-172. *)
Definition pastSkew (now : Z) (limits : EventLimits) (e : Event) : option string :=
  match createdAt limits ≫= maxNegativeDelta with
  | Some d =>
      if (0 <? d) && (created_at e <? now - d) then Some (pastReason d) else None
  | None => None
  end.

(** Lines 174-182. *)
Definition eventIdPow (limits : EventLimits) (e : Event) : option string :=
  match eventId limits ≫= eid_minLeadingZeroBits with
  | Some m =>
      if 0 <? m then
        let pow := getEventProofOfWork (id e) in
        if pow <? m then Some (powReason pow m) else None
      else None
  | None => None
  end.

(** Lines 184-192. *)
Definition pubkeyPow (limits : EventLimits) (e : Event) : option string :=
  match pubkey limits ≫= pk_minLeadingZeroBits with
  | Some m =>
      if 0 <? m then
        let pow := getPubkeyProofOfWork (ev_pubkey e) in
        if pow <? m then Some (pubkeyPowReason pow m) else None
      else None
  | None => None
  end.

(** Lines 194-200. *)
Definition pubkeyWhitelist (limits : EventLimits) (e : Event) : option string :=
  match pubkey limits ≫= pk_whitelist with
  | Some wl =>
      if (0 <? Z.of_nat (length wl))
         && negb (some (fun prefix => startsWith (ev_pubkey e) prefix) wl)
      then Some pubkeyReason else None
  | None => None
  end.

(** Lines 202-208. *)
Definition pubkeyBlacklist (limits : EventLimits) (e : Event) : option string :=
  match pubkey limits ≫= pk_blacklist with
  | Some bl =>
      if (0 <? Z.of_nat (length bl))
         && some (fun prefix => startsWith (ev_pubkey e) prefix) bl
      then Some pubkeyReason else None
  | None => None
  end.

(** Lines 210-215. *)
Definition kindWhitelist (limits : EventLimits) (e : Event) : option string :=
  match kind limits ≫= kind_whitelist with
  | Some wl =>
      if (0 <? Z.of_nat (length wl)) && negb (some (isEventKindOrRangeMatch e) wl)
      then Some (kindReason (ev_kind e)) else None
  | None => None
  end.

(** Lines 217-222. *)
Definition kindBlacklist (limits : EventLimits) (e : Event) : option string :=
  match kind limits ≫= kind_blacklist with
  | Some bl =>
      if (0 <? Z.of_nat (length bl)) && some (isEventKindOrRangeMatch e) bl
      then Some (kindReason (ev_kind e)) else None
  | None => None
  end.

(** [canAcceptEvent(event)], with [now = Math.floor(Date.now()/1000)] and
    the settings snapshot as arguments: the statements one after the
    other, each returning its reason when it fires; falling off the end
    is [undefined]. *)
Definition canAcceptEvent (s : Settings) (now : Z) (e : Event) : option string :=
  let limits := default noEventLimits (limits_event s) in
  match contentCheck limits e with Some r => Some r | None =>
  match futureSkew now limits e with Some r => Some r | None =>
  match pastSkew now limits e with Some r => Some r | None =>
  match eventIdPow limits e with Some r => Some r | None =>
  match pubkeyPow limits e with Some r => Some r | None =>
  match pubkeyWhitelist limits e with Some r => Some r | None =>
  match pubkeyBlacklist limits e with Some r => Some r | None =>
  match kindWhitelist limits e with Some r => Some r | None =>
  kindBlacklist limits e
  end end end end end end end end.

End Policy.

(** ** The world the handler runs in *)

(** A row of the [users] table and the [User] object of the code. *)
Record DBUser := {
  db_pubkey : string;
  is_admitted : bool;
  db_balance : Z;
  tos_accepted_at : option Z;
  updated_at : Z;
  db_created_at : Z
}.

Record User := {
  u_pubkey : string;
  isAdmitted : bool;
  balance : Z;
  u_createdAt : Z;
  updatedAt : Z;
  tosAcceptedAt : option Z
}.

(** Modelled from the spec: [fromDBUser] of utils/transform, which reads
    the columns of a stored row into a [User]. *)
Definition fromDBUser (d : DBUser) : User :=
  {| u_pubkey := db_pubkey d; isAdmitted := is_admitted d;
     balance := db_balance d; u_createdAt := db_created_at d;
     updatedAt := updated_at d; tosAcceptedAt := tos_accepted_at d |}.

(** Bodies and answers of the webhook calls. *)
Inductive Body : Type :=
  | BodyEvent (e : Event)
  | BodyPubkeyAmount (pk : string) (amt : Z).

Record ResponseData := {
  success : bool;
  reason : option string;
  rd_isAdmitted : bool;
  rd_balance : option Z;
  rd_createdAt : Z;
  rd_updatedAt : Z
}.

(** [httpClient.post] either rejects (a transport failure) or resolves
    to a response whose [data] may be missing. *)
Inductive PostResult : Type :=
  | PostThrows
  | PostReturns (data : option ResponseData).

Inductive Error : Type :=
  | TypeError
  | TransportError (url : string)
  | StrategyError.

(** What executing a kind-specific strategy does: the frames it writes,
    the events it persists, and whether it throws afterwards. *)
Record StrategyRun := {
  run_emits : list CommandResult;
  run_stores : list Event;
  run_throws : bool
}.

(** Every interaction with a collaborator, in the order it is made. *)
Inductive Call : Type :=
  | CacheExists (key : string)
  | CacheSet (key value : string)
  | CacheExpire (key : string) (seconds : Z)
  | DbSelectUser (pk : string)
  | DbSelectBalance (pk : string)
  | DbUpsert (row : DBUser)
  | DbUpdateBalance (pk : string) (delta : Z)
  | HttpPost (url : string) (body : Body)
  | LimiterHit (key : string) (step : Z) (period rate : Z)
  | StrategyExecute (e : Event).

(** The stages of [handleMessage], in the order of the spec. *)
Inductive Stage : Type :=
  | SValidity | SExpiration | SExpirationMetadata | SRateLimit | SPolicy
  | SAdmission | SEventCheck | SStrategyResolution | SPublicationFee
  | SStrategyExecution | SEventCallback.

Record World := {
  (* frames written with webSocket.emit(Message, …), oldest first *)
  emitted : list CommandResult;
  (* the sliding windows of the rate limiter: key ↦ (timestamp, step) *)
  limiter : gmap string (list (Z * Z));
  (* the key/value cache: key ↦ (value, time of expiry in milliseconds) *)
  cache : gmap string (string * option Z);
  (* the users table, keyed by pubkey *)
  users : gmap string DBUser;
  (* events persisted by strategies *)
  stored : list Event;
  (* history of the calls made to collaborators *)
  calls : list Call;
  (* history variable: the stages of handleMessage entered so far *)
  stages : list Stage
}.

(** What the handler reads but does not change during one admission. *)
Record Env := {
  settings : Settings;                    (* this.settings() *)
  repoSettings : Settings;                (* UserRepository.settings *)
  VIDA_API_KEY : option string;           (* process.env.VIDA_API_KEY *)
  clientAddress : string;                 (* webSocket.getClientAddress() *)
  nowMs : Z;                              (* Date.now() *)
  isEventIdValid : Event -> bool;
  isEventSignatureValid : Event -> bool;
  httpPost : string -> Body -> PostResult;
  strategyFactory : Event -> option (Event -> StrategyRun)
}.

Inductive Res (A : Type) : Type :=
  | Ok (a : A)
  | Throw (err : Error).
Arguments Ok {A} a.
Arguments Throw {A} err.

Definition M (A : Type) : Type := World -> Res A * World.

Definition ret {A} (a : A) : M A := fun w => (Ok a, w).
Definition throw {A} (err : Error) : M A := fun w => (Throw err, w).
Definition bind {A B} (m : M A) (k : A -> M B) : M B :=
  fun w => match m w with
           | (Ok a, w') => k a w'
           | (Throw err, w') => (Throw err, w')
           end.
(** [try { m } catch (error) { handler(error) }] *)
Definition tryCatch {A} (m : M A) (handler : Error -> M A) : M A :=
  fun w => match m w with
           | (Ok a, w') => (Ok a, w')
           | (Throw err, w') => handler err w'
           end.

Notation "x <- m ;; k" := (bind m (fun x => k))
  (at level 90, m at level 80, right associativity).
Notation "m ;;; k" := (bind m (fun _ => k))
  (at level 90, right associativity).

Definition set_emitted (f : list CommandResult -> list CommandResult) (w : World) : World :=
  {| emitted := f (emitted w); limiter := limiter w; cache := cache w;
     users := users w; stored := stored w; calls := calls w; stages := stages w |}.
Definition set_limiter (f : gmap string (list (Z * Z)) -> gmap string (list (Z * Z)))
    (w : World) : World :=
  {| emitted := emitted w; limiter := f (limiter w); cache := cache w;
     users := users w; stored := stored w; calls := calls w; stages := stages w |}.
Definition set_cache (f : gmap string (string * option Z) -> gmap string (string * option Z))
    (w : World) : World :=
  {| emitted := emitted w; limiter := limiter w; cache := f (cache w);
     users := users w; stored := stored w; calls := calls w; stages := stages w |}.
Definition set_users (f : gmap string DBUser -> gmap string DBUser) (w : World) : World :=
  {| emitted := emitted w; limiter := limiter w; cache := cache w;
     users := f (users w); stored := stored w; calls := calls w; stages := stages w |}.
Definition set_stored (f : list Event -> list Event) (w : World) : World :=
  {| emitted := emitted w; limiter := limiter w; cache := cache w;
     users := users w; stored := f (stored w); calls := calls w; stages := stages w |}.
Definition set_calls (f : list Call -> list Call) (w : World) : World :=
  {| emitted := emitted w; limiter := limiter w; cache := cache w;
     users := users w; stored := stored w; calls := f (calls w); stages := stages w |}.
Definition set_stages (f : list Stage -> list Stage) (w : World) : World :=
  {| emitted := emitted w; limiter := limiter w; cache := cache w;
     users := users w; stored := stored w; calls := calls w; stages := f (stages w) |}.

Definition logCall (c : Call) : M unit :=
  fun w => (Ok tt, set_calls (fun cs => cs ++ [c]) w).
Definition enter (s : Stage) : M unit :=
  fun w => (Ok tt, set_stages (fun ss => ss ++ [s]) w).
(** [this.webSocket.emit(WebSocketAdapterEvent.Message, frame)] *)
Definition emit (frame : CommandResult) : M unit :=
  fun w => (Ok tt, set_emitted (fun fs => fs ++ [frame]) w).

(** JavaScript truthiness of an optional string. *)
Definition truthy (s : option string) : bool :=
  match s with
  | Some s => negb (String.eqb s "")
  | None => false
  end.

(** ** Collaborators behind the repository and the handler *)

(** Modelled from the spec: the cache client (cache/client is not among
    the sources) with [exists], [set] and [expire]. An entry holds its
    value and, once [expire] was called on it, the time in milliseconds
    at which it lapses: [seconds] after the call. [exists] answers true
    for an entry that has not lapsed at the time [now] of the call;
    [set] stores a value without expiry. *)
Definition live (now : Z) (entry : string * option Z) : bool :=
  match snd entry with
  | Some expiry => now <? expiry
  | None => true
  end.
Definition cacheExists (now : Z) (key : string) : M bool :=
  logCall (CacheExists key) ;;;
  fun w => (Ok match cache w !! key with
               | Some entry => live now entry
               | None => false
               end, w).
Definition cacheSet (key value : string) : M unit :=
  logCall (CacheSet key value) ;;;
  fun w => (Ok tt, set_cache (insert key (value, None)) w).
Definition cacheExpire (now : Z) (key : string) (seconds : Z) : M unit :=
  logCall (CacheExpire key seconds) ;;;
  fun w => (Ok tt,
            set_cache (alter (fun e => (fst e, Some (now + 1000 * seconds))) key) w).

(** Modelled from the spec: the sliding-window rate limiter
    ([IRateLimiter.hit] is not among the sources). It counts the hit
    into the window of the last [period] milliseconds under [key] and
    answers whether the resulting count exceeds [rate]. *)
Definition windowCount (entries : list (Z * Z)) : Z :=
  foldr (fun e acc => snd e + acc) 0 entries.
Definition hit (now : Z) (key : string) (step : Z) (period rate : Z) : M bool :=
  logCall (LimiterHit key step period rate) ;;;
  fun w =>
    let kept := filter (fun e => now - period < fst e) (default [] (limiter w !! key)) in
    let entries := kept ++ [(now, step)] in
    (Ok (rate <? windowCount entries), set_limiter (insert key entries) w).

(** [await httpClient.post(url, body, { maxRedirects: 1 })] *)
Definition post (env : Env) (url : string) (body : Body) : M (option ResponseData) :=
  logCall (HttpPost url body) ;;;
  match httpPost env url body with
  | PostThrows => throw (TransportError url)
  | PostReturns data => ret data
  end.

(** [x[0]] followed by a property access: a [TypeError] on an empty
    sequence. *)
Definition first {A} (xs : list A) : M A :=
  match xs with
  | x :: _ => ret x
  | [] => throw TypeError
  end.

(** The guard shared by the four webhook call sites,
    [webhooks?.flag && endpoints?.baseURL && endpoints?.name], and the
    address [`${baseURL}${name}`] it protects. *)
Definition webhookAddress (s : Settings) (flag : Webhooks -> bool)
    (name : WebhookEndpoints -> option string) : option string :=
  match webhooks s with
  | None => None
  | Some wh =>
      match endpoints wh with
      | None => None
      | Some eps =>
          if flag wh && truthy (Some (baseURL eps)) && truthy (name eps)
          then Some (baseURL eps +:+ default "" (name eps))
          else None
      end
  end.

(** ** The user repository (first [UserRepository] class) *)

Module UserRepository.

(** The columns of a row, by name, and their values. *)
Inductive Column : Type :=
  | col_pubkey | col_is_admitted | col_balance
  | col_tos_accepted_at | col_updated_at | col_created_at.

Global Instance Column_eq_dec : EqDecision Column.
Proof. solve_decision. Defined.

Inductive Value : Type :=
  | VText (s : string)
  | VBool (b : bool)
  | VInt (z : Z)
  | VTime (t : option Z).

Definition column (c : Column) (d : DBUser) : Value :=
  match c with
  | col_pubkey => VText (db_pubkey d)
  | col_is_admitted => VBool (is_admitted d)
  | col_balance => VInt (db_balance d)
  | col_tos_accepted_at => VTime (tos_accepted_at d)
  | col_updated_at => VTime (Some (updated_at d))
  | col_created_at => VTime (Some (db_created_at d))
  end.

(** Column [c] of [dst] replaced by the one of [src]. *)
Definition setColumn (c : Column) (src dst : DBUser) : DBUser :=
  {| db_pubkey := if decide (c = col_pubkey) then db_pubkey src else db_pubkey dst;
     is_admitted := if decide (c = col_is_admitted) then is_admitted src else is_admitted dst;
     db_balance := if decide (c = col_balance) then db_balance src else db_balance dst;
     tos_accepted_at :=
       if decide (c = col_tos_accepted_at) then tos_accepted_at src else tos_accepted_at dst;
     updated_at := if decide (c = col_updated_at) then updated_at src else updated_at dst;
     db_created_at :=
       if decide (c = col_created_at) then db_created_at src else db_created_at dst |}.

(** The keys of the object built by [applySpec] (lines 284-291). *)
Definition rowColumns : list Column :=
  [col_pubkey; col_is_admitted; col_balance; col_tos_accepted_at;
   col_updated_at; col_created_at].

(** ramda's [omit(names)(row)], on the keys of the row. *)
Definition omit (names cols : list Column) : list Column :=
  filter (fun c => c ∉ names) cols.

(** Modelled from the spec: the query
    [insert(row).onConflict('pubkey').merge(patch)] of the datastore
    driver; it inserts the row when no row has its pubkey and otherwise
    overwrites the columns of [patch] in the stored row. It affects one
    row either way. *)
Definition insertOnConflictMerge (row : DBUser) (patch : list Column)
    (table : gmap string DBUser) : gmap string DBUser :=
  match table !! db_pubkey row with
  | None => <[db_pubkey row := row]> table
  | Some old => <[db_pubkey row := foldr (fun c acc => setColumn c row acc) old patch]> table
  end.

(** The row built by [applySpec] from the user and the date of the
    call (lines 284-291). *)
Definition userRow (date : Z) (user : User) : DBUser :=
  {| db_pubkey := u_pubkey user;
     is_admitted := isAdmitted user;
     db_balance := balance user;
     tos_accepted_at := tosAcceptedAt user;
     updated_at := date;
     db_created_at := date |}.

(** [upsert(user)] (lines 276-309). *)
Definition upsert (env : Env) (user : User) : M Z :=
  let date := nowMs env in
  let row := userRow date user in
  let patch := omit [col_pubkey; col_balance; col_created_at] rowColumns in
  logCall (DbUpsert row) ;;;
  fun w => (Ok 1, set_users (insertOnConflictMerge row patch) w).

(** [getBalanceByPubkey(pubkey)] (lines 311-327). *)
Definition getBalanceByPubkey (pk : string) : M Z :=
  logCall (DbSelectBalance pk) ;;;
  fun w => match users w !! pk with
           | None => (Ok 0, w)
           | Some user => (Ok (db_balance user), w)
           end.

Definition addBalance (delta : Z) (d : DBUser) : DBUser :=
  {| db_pubkey := db_pubkey d; is_admitted := is_admitted d;
     db_balance := db_balance d + delta; tos_accepted_at := tos_accepted_at d;
     updated_at := updated_at d; db_created_at := db_created_at d |}.

(** [UPDATE users SET balance = balance + amount WHERE pubkey = …]
    (lines 443-454). *)
Definition incrementUserBalance (pk : string) (amt : Z) : M unit :=
  logCall (DbUpdateBalance pk amt) ;;;
  fun w => (Ok tt, set_users (alter (addBalance amt) pk) w).

(** [UPDATE users SET balance = balance - amount WHERE pubkey = …]
    (lines 456-467). *)
Definition decrementUserBalance (pk : string) (amt : Z) : M unit :=
  logCall (DbUpdateBalance pk (- amt)) ;;;
  fun w => (Ok tt, set_users (alter (addBalance (- amt)) pk) w).

Inductive BalanceOp : Type := increment | decrement.

(** The property [updateUserBalance] of a repository object. Neither
    [UserRepository] class declares a method of this name (the methods
    are findByPubkey, upsert, getBalanceByPubkey, fetchUserByWebhook,
    topUpPubkey, incrementUserBalance and decrementUserBalance), so the
    property is [undefined]. *)
Definition updateUserBalance : option (string -> Z -> BalanceOp -> M unit) := None.

(** [payments?.feeSchedules?.topUp[0].amount || 0] *)
Definition topUpAmount (s : Settings) : M Z :=
  match payments s ≫= feeSchedules with
  | None => ret 0
  | Some fs => f <- first (topUp fs) ;; ret (amount f)
  end.

(** [fetchUserByWebhook(pubkey)] (lines 329-387). *)
Definition fetchUserByWebhook (env : Env) (pk : string) : M (option User) :=
  match webhookAddress (repoSettings env) pubkeyChecks ep_pubkeyCheck with
  | None => ret None
  | Some address =>
      if negb (truthy (VIDA_API_KEY env)) then ret None
      else
        let url := address +:+ "?token=" +:+ default "" (VIDA_API_KEY env) in
        tryCatch
          (amt <- topUpAmount (repoSettings env) ;;
           response <- post env url (BodyPubkeyAmount pk amt) ;;
           match response with
           | Some data =>
               if rd_isAdmitted data then
                 match rd_balance data with
                 | Some b =>
                     ret (Some {| u_pubkey := pk;
                                  isAdmitted := rd_isAdmitted data;
                                  balance := b;
                                  u_createdAt := rd_createdAt data;
                                  updatedAt := rd_updatedAt data;
                                  tosAcceptedAt := None |})
                 | None => throw TypeError          (* BigInt(undefined) *)
                 end
               else ret None
           | None => ret None
           end)
          (fun e => throw e)
  end.

(** [findByPubkey(pubkey)] (lines 224-274). *)
Definition findByPubkey (env : Env) (pk : string) : M (option User) :=
  blocked <- cacheExists (nowMs env) (pk +:+ ":is-blocked") ;;
  if blocked then ret None
  else
    logCall (DbSelectUser pk) ;;;
    dbuser <- (fun w => (Ok (users w !! pk), w)) ;;
    match dbuser with
    | None =>
        webhookUser <- fetchUserByWebhook env pk ;;
        match webhookUser with
        | Some wu =>
            let date := nowMs env in
            upsert env {| u_pubkey := u_pubkey wu;
                          isAdmitted := isAdmitted wu;
                          balance := balance wu;
                          u_createdAt := date;
                          tosAcceptedAt := Some date;
                          updatedAt := date |} ;;;
            ret (Some wu)
        | None =>
            cacheSet (pk +:+ ":is-blocked") "true" ;;;
            cacheExpire (nowMs env) (pk +:+ ":is-blocked") 60 ;;;
            ret None
        end
    | Some d => ret (Some (fromDBUser d))
    end.

(** [topUpPubkey(pubkey)] (lines 389-441). *)
Definition topUpPubkey (env : Env) (pk : string) : M bool :=
  match webhookAddress (repoSettings env) topUps ep_topUps with
  | None => ret false
  | Some address =>
      if negb (truthy (VIDA_API_KEY env)) then ret false
      else
        amt <- topUpAmount (repoSettings env) ;;
        let url := address +:+ "?token=" +:+ default "" (VIDA_API_KEY env) in
        tryCatch
          (response <- post env url (BodyPubkeyAmount pk amt) ;;
           match response with
           | Some data =>
               if success data
               then incrementUserBalance pk amt ;;; ret true
               else ret false
           | None => ret false
           end)
          (fun e => throw e)
  end.

End UserRepository.

(** ** Expiration (utils/event) *)

Fixpoint parseDigits (s : string) (acc : Z) : option Z :=
  match s with
  | EmptyString => Some acc
  | String c rest =>
      let n := Z.of_N (Ascii.N_of_ascii c) in
      if (48 <=? n) && (n <=? 57) then parseDigits rest (10 * acc + (n - 48)) else None
  end.

(** A well-formed expiration tag [["expiration", "<unix seconds>", …]]. *)
Definition parseExpiration (tag : list string) : option Z :=
  match tag with
  | name :: value :: _ =>
      if String.eqb name "expiration" && negb (String.eqb value "")
      then parseDigits value 0 else None
  | _ => None
  end.

(** Modelled from the spec: [getEventExpiration] of utils/event, the
    value of the first well-formed [expiration] tag. *)
Definition getEventExpiration (e : Event) : option Z :=
  head (omap parseExpiration (tags e)).

(** Modelled from the spec: [isExpiredEvent] of utils/event; an event is
    expired when it carries a well-formed expiration tag whose value is
    at most the current unix time. *)
Definition isExpiredEvent (now : Z) (e : Event) : bool :=
  match getEventExpiration e with
  | Some t => t <=? now
  | None => false
  end.

(** ** The message handler ([EventMessageHandler]) *)

Record IncomingEventMessage := {
  msg_event : Event;
  msg_context : option string     (* message[ContextMetadataKey] *)
}.

Module Handler.

Import UserRepository.

Definition setContext (e : Event) (ctx : option string) : Event :=
  {| id := id e; ev_pubkey := ev_pubkey e; created_at := created_at e;
     ev_kind := ev_kind e; tags := tags e; ev_content := ev_content e;
     sig := sig e; ev_context := ctx; ev_expiration := ev_expiration e |}.

Definition setExpiration (e : Event) (t : Z) : Event :=
  {| id := id e; ev_pubkey := ev_pubkey e; created_at := created_at e;
     ev_kind := ev_kind e; tags := tags e; ev_content := ev_content e;
     sig := sig e; ev_context := ev_context e; ev_expiration := Some t |}.

(** [Math.floor(Date.now()/1000)] *)
Definition nowSeconds (env : Env) : Z := nowMs env / 1000.

(** [isEventValid(event)] (lines 225-232). *)
Definition isEventValid (env : Env) (e : Event) : M (option string) :=
  if negb (isEventIdValid env e)
  then ret (Some "invalid: event id does not match")
  else if negb (isEventSignatureValid env e)
  then ret (Some "invalid: event signature verification failed")
  else ret None.

(** [addExpirationMetadata(event)] (lines 333-344). *)
Definition addExpirationMetadata (e : Event) : Event :=
  match getEventExpiration e with
  | Some t => if t =? 0 then e else setExpiration e t
  | None => e
  end.

(** The local [toString] of [isRateLimited] (lines 258-260). *)
Definition kindItemToString (k : KindItem) : string :=
  match k with
  | KindExact k => pretty k
  | KindRange lo hi => "[" +:+ pretty lo +:+ "," +:+ pretty hi +:+ "]"
  end.
Definition kindsToString (kinds : list KindItem) : string :=
  "[" +:+ String.concat "," (map kindItemToString kinds) +:+ "]".

(** The key built by the local [hit] (lines 263-265). *)
Definition hitKey (e : Event) (rl : EventRateLimit) : string :=
  match rl_kinds rl with
  | Some kinds =>
      ev_pubkey e +:+ ":events:" +:+ pretty (period rl) +:+ ":" +:+ kindsToString kinds
  | None => ev_pubkey e +:+ ":events:" +:+ pretty (period rl)
  end.

(** [Array.isArray(kinds) && !kinds.some(isEventKindOrRangeMatch(event))]:
    the record does not apply to the kind of the event. *)
Definition skipped (e : Event) (rl : EventRateLimit) : bool :=
  match rl_kinds rl with
  | Some kinds => negb (some (isEventKindOrRangeMatch e) kinds)
  | None => false
  end.

(** The loop of lines 274-288, with its accumulator [limited]. *)
Fixpoint rateLimitLoop (env : Env) (e : Event) (rls : list EventRateLimit)
    (limited : bool) : M bool :=
  match rls with
  | [] => ret limited
  | rl :: rest =>
      if skipped e rl then rateLimitLoop env e rest limited
      else
        isRateLimited <- hit (nowMs env) (hitKey e rl) 1 (period rl) (rate rl) ;;
        rateLimitLoop env e rest (if isRateLimited then true else limited)
  end.

(** [x.includes(v)] on an optional array. *)
Definition includes (xs : option (list string)) (v : string) : bool :=
  match xs with
  | Some xs => bool_decide (v ∈ xs)
  | None => false
  end.

(** [isRateLimited(event)] (lines 234-291). *)
Definition isRateLimited (env : Env) (e : Event) : M bool :=
  let limits := default noEventLimits (limits_event (settings env)) in
  match rateLimits limits with
  | None => ret false
  | Some [] => ret false
  | Some rls =>
      if includes (whitelists limits ≫= wl_pubkeys) (ev_pubkey e) then ret false
      else if includes (whitelists limits ≫= wl_ipAddresses) (clientAddress env)
      then ret false
      else rateLimitLoop env e rls false
  end.

(** [isApplicableFee] (lines 299-301). *)
Definition isApplicableFee (e : Event) (feeSchedule : FeeSchedule) : bool :=
  enabled feeSchedule
  && negb (match fee_whitelist_pubkeys feeSchedule with
           | Some prefixes => some (fun prefix => startsWith (ev_pubkey e) prefix) prefixes
           | None => false
           end).

(** [isUserAdmitted(event)] (lines 293-331). *)
Definition isUserAdmitted (env : Env) (e : Event) : M (option string) :=
  let currentSettings := settings env in
  match payments currentSettings with
  | None => ret None
  | Some p =>
      if negb (payments_enabled p) then ret None
      else
        match feeSchedules p with
        | None => ret None
        | Some fs =>
            match List.filter (isApplicableFee e) (admission fs) with
            | [] => ret None
            | _ :: _ =>
                user <- findByPubkey env (ev_pubkey e) ;;
                match user with
                | None => ret (Some "blocked: pubkey not admitted")
                | Some user =>
                    if negb (isAdmitted user)
                    then ret (Some "blocked: pubkey not admitted")
                    else
                      pub <- first (publication fs) ;;
                      if enabled pub && (balance user <? amount pub) then
                        top <- first (topUp fs) ;;
                        if enabled top then
                          toppedUp <- topUpPubkey env (ev_pubkey e) ;;
                          if toppedUp then ret None
                          else ret (Some "blocked: insufficient balance")
                        else ret (Some "blocked: insufficient balance")
                      else
                        let minBalance :=
                          default 0 ((limits_event currentSettings ≫= pubkey) ≫= minBalance) in
                        if (0 <? minBalance) && (balance user <? minBalance)
                        then ret (Some "blocked: insufficient balance")
                        else ret None
                end
            end
        end
  end.

(** [strategy.execute(event)]: the strategy writes its frames and
    persists, then possibly throws. *)
Definition execute (strategy : Event -> StrategyRun) (e : Event) : M unit :=
  logCall (StrategyExecute e) ;;;
  fun w =>
    let run := strategy e in
    (if run_throws run then Throw StrategyError else Ok tt,
     set_stored (fun es => es ++ run_stores run)
       (set_emitted (fun fs => fs ++ run_emits run) w)).

(** The event-check block (lines 69-87); the result tells whether the
    handler returned from inside it. *)
Definition eventCheck (env : Env) (event : Event) : M bool :=
  match webhookAddress (settings env) eventChecks ep_eventCheck with
  | None => ret false
  | Some url =>
      tryCatch
        (response <- post env url (BodyEvent event) ;;
         match response with
         | None => throw TypeError                  (* response.data.success *)
         | Some data =>
             if negb (success data) then
               emit (createCommandResult (id event) false (reason data)) ;;;
               ret true
             else ret false
         end)
        (fun error => throw error)
  end.

(** The publication-fee block (lines 96-102). The call of line 101,
    [this.userRepository.updateUserBalance(…)], is the call of a
    property of the repository: a [TypeError] when the repository has
    no such method. *)
Definition publicationFee (env : Env) (event : Event) : M unit :=
  match payments (settings env) ≫= feeSchedules with
  | None => ret tt
  | Some fs =>
      pub <- first (publication fs) ;;
      if enabled pub
      then
        match updateUserBalance with
        | Some method => method (ev_pubkey event) (amount pub) decrement
        | None => throw TypeError
        end
      else ret tt
  end.

(** The event-callback block (lines 112-125). *)
Definition eventCallback (env : Env) (event : Event) : M unit :=
  match webhookAddress (settings env) eventCallbacks ep_eventCallback with
  | None => ret tt
  | Some url =>
      tryCatch
        (response <- post env url (BodyEvent event) ;;
         match response with
         | None => throw TypeError
         | Some _ => ret tt
         end)
        (fun _ => ret tt)
  end.

Definition reject (event : Event) (why : string) : M unit :=
  emit (createCommandResult (id event) false (Some why)).

(** [handleMessage(message)] (lines 28-127). [enter] records the stage
    being started and changes nothing else. *)
Definition handleMessage (env : Env) (message : IncomingEventMessage) : M unit :=
  let event := setContext (msg_event message) (msg_context message) in
  enter SValidity ;;;
  reason <- isEventValid env event ;;
  if truthy reason then reject event (default "" reason)
  else
  enter SExpiration ;;;
  if isExpiredEvent (nowSeconds env) event then reject event "event is expired"
  else
  enter SExpirationMetadata ;;;
  let event := addExpirationMetadata event in
  enter SRateLimit ;;;
  limited <- isRateLimited env event ;;
  if limited then reject event "rate-limited: slow down"
  else
  enter SPolicy ;;;
  let reason := Policy.canAcceptEvent (settings env) (nowSeconds env) event in
  if truthy reason then reject event (default "" reason)
  else
  enter SAdmission ;;;
  reason <- isUserAdmitted env event ;;
  if truthy reason then reject event (default "" reason)
  else
  enter SEventCheck ;;;
  returned <- eventCheck env event ;;
  if returned then ret tt
  else
  enter SStrategyResolution ;;;
  match strategyFactory env event with
  | None => reject event "error: event not supported"
  | Some strategy =>
      enter SPublicationFee ;;;
      publicationFee env event ;;;
      enter SStrategyExecution ;;;
      tryCatch (execute strategy event)
               (fun _ => reject event "error: unable to process event") ;;;
      enter SEventCallback ;;;
      eventCallback env event
  end.

End Handler.

(** ** The administrative endpoint ([userRequestHandler]) *)

Module UserRequest.

Record Request := {
  query_token : option string;
  query_pubkey : option string
}.

(** A JavaScript number that holds an integer, or an infinity. *)
Inductive JsNumber : Type :=
  | Finite (z : Z)
  | Infinite (negative : bool).

(** [Number(b)] of a bigint [b]: the double nearest to [b], a tie going
    to the even significand, and an infinity beyond the range of the
    doubles. Integers of at most 53 bits are kept as they are; a longer
    one keeps its 53 leading bits, rounded. *)
Definition Number (b : Z) : JsNumber :=
  let a := Z.abs b in
  if a <? 2 ^ 53 then Finite b
  else
    let e := Z.log2 a - 52 in
    let q := a / 2 ^ e in
    let r := a mod 2 ^ e in
    let half := 2 ^ (e - 1) in
    let q' := if (half <? r) || ((r =? half) && Z.odd q) then q + 1 else q in
    let m := q' * 2 ^ e in
    if 2 ^ 1024 <=? m then Infinite (b <? 0) else Finite (Z.sgn b * m).

Inductive ResBody : Type :=
  | Send (text : string)
  | Json (balance : JsNumber).       (* {balance: Number(balance)} *)

Record Response := {
  status : Z;
  body : ResBody
}.

(** [userRequestHandler(req, res)] (lines 354-370), with
    [process.env.RELAY_API_KEY] as an argument. The datastore is the
    users table of the world and answers every query: a query that the
    datastore rejects is outside this model, here as in the repository. *)
Definition userRequestHandler (RELAY_API_KEY : option string) (req : Request) : M Response :=
  let authkey := RELAY_API_KEY in
  if negb (truthy authkey) || negb (truthy (query_token req))
  then ret {| status := 403; body := Send "Unauthorized" |}
  else if negb (truthy (query_pubkey req))
  then ret {| status := 400; body := Send "Must send pubkey in query" |}
  else
    balance <- UserRepository.getBalanceByPubkey (default "" (query_pubkey req)) ;;
    if balance =? 0                                  (* !balance *)
    then ret {| status := 404; body := Send "Pubkey not found" |}
    else ret {| status := 200; body := Json (Number balance) |}.

End UserRequest.

(** * Specifications and proofs *)

(** Reading a field of an updated world. *)
Lemma emitted_set_emitted f w : emitted (set_emitted f w) = f (emitted w). Proof. reflexivity. Qed.
Lemma emitted_set_limiter f w : emitted (set_limiter f w) = emitted w. Proof. reflexivity. Qed.
Lemma emitted_set_cache f w : emitted (set_cache f w) = emitted w. Proof. reflexivity. Qed.
Lemma emitted_set_users f w : emitted (set_users f w) = emitted w. Proof. reflexivity. Qed.
Lemma emitted_set_stored f w : emitted (set_stored f w) = emitted w. Proof. reflexivity. Qed.
Lemma emitted_set_calls f w : emitted (set_calls f w) = emitted w. Proof. reflexivity. Qed.
Lemma emitted_set_stages f w : emitted (set_stages f w) = emitted w. Proof. reflexivity. Qed.

Lemma limiter_set_emitted f w : limiter (set_emitted f w) = limiter w. Proof. reflexivity. Qed.
Lemma limiter_set_limiter f w : limiter (set_limiter f w) = f (limiter w). Proof. reflexivity. Qed.
Lemma limiter_set_cache f w : limiter (set_cache f w) = limiter w. Proof. reflexivity. Qed.
Lemma limiter_set_users f w : limiter (set_users f w) = limiter w. Proof. reflexivity. Qed.
Lemma limiter_set_stored f w : limiter (set_stored f w) = limiter w. Proof. reflexivity. Qed.
Lemma limiter_set_calls f w : limiter (set_calls f w) = limiter w. Proof. reflexivity. Qed.
Lemma limiter_set_stages f w : limiter (set_stages f w) = limiter w. Proof. reflexivity. Qed.

Lemma cache_set_emitted f w : cache (set_emitted f w) = cache w. Proof. reflexivity. Qed.
Lemma cache_set_limiter f w : cache (set_limiter f w) = cache w. Proof. reflexivity. Qed.
Lemma cache_set_cache f w : cache (set_cache f w) = f (cache w). Proof. reflexivity. Qed.
Lemma cache_set_users f w : cache (set_users f w) = cache w. Proof. reflexivity. Qed.
Lemma cache_set_stored f w : cache (set_stored f w) = cache w. Proof. reflexivity. Qed.
Lemma cache_set_calls f w : cache (set_calls f w) = cache w. Proof. reflexivity. Qed.
Lemma cache_set_stages f w : cache (set_stages f w) = cache w. Proof. reflexivity. Qed.

Lemma users_set_emitted f w : users (set_emitted f w) = users w. Proof. reflexivity. Qed.
Lemma users_set_limiter f w : users (set_limiter f w) = users w. Proof. reflexivity. Qed.
Lemma users_set_cache f w : users (set_cache f w) = users w. Proof. reflexivity. Qed.
Lemma users_set_users f w : users (set_users f w) = f (users w). Proof. reflexivity. Qed.
Lemma users_set_stored f w : users (set_stored f w) = users w. Proof. reflexivity. Qed.
Lemma users_set_calls f w : users (set_calls f w) = users w. Proof. reflexivity. Qed.
Lemma users_set_stages f w : users (set_stages f w) = users w. Proof. reflexivity. Qed.

Lemma stored_set_emitted f w : stored (set_emitted f w) = stored w. Proof. reflexivity. Qed.
Lemma stored_set_limiter f w : stored (set_limiter f w) = stored w. Proof. reflexivity. Qed.
Lemma stored_set_cache f w : stored (set_cache f w) = stored w. Proof. reflexivity. Qed.
Lemma stored_set_users f w : stored (set_users f w) = stored w. Proof. reflexivity. Qed.
Lemma stored_set_stored f w : stored (set_stored f w) = f (stored w). Proof. reflexivity. Qed.
Lemma stored_set_calls f w : stored (set_calls f w) = stored w. Proof. reflexivity. Qed.
Lemma stored_set_stages f w : stored (set_stages f w) = stored w. Proof. reflexivity. Qed.

Lemma calls_set_emitted f w : calls (set_emitted f w) = calls w. Proof. reflexivity. Qed.
Lemma calls_set_limiter f w : calls (set_limiter f w) = calls w. Proof. reflexivity. Qed.
Lemma calls_set_cache f w : calls (set_cache f w) = calls w. Proof. reflexivity. Qed.
Lemma calls_set_users f w : calls (set_users f w) = calls w. Proof. reflexivity. Qed.
Lemma calls_set_stored f w : calls (set_stored f w) = calls w. Proof. reflexivity. Qed.
Lemma calls_set_calls f w : calls (set_calls f w) = f (calls w). Proof. reflexivity. Qed.
Lemma calls_set_stages f w : calls (set_stages f w) = calls w. Proof. reflexivity. Qed.

Lemma stages_set_emitted f w : stages (set_emitted f w) = stages w. Proof. reflexivity. Qed.
Lemma stages_set_limiter f w : stages (set_limiter f w) = stages w. Proof. reflexivity. Qed.
Lemma stages_set_cache f w : stages (set_cache f w) = stages w. Proof. reflexivity. Qed.
Lemma stages_set_users f w : stages (set_users f w) = stages w. Proof. reflexivity. Qed.
Lemma stages_set_stored f w : stages (set_stored f w) = stages w. Proof. reflexivity. Qed.
Lemma stages_set_calls f w : stages (set_calls f w) = stages w. Proof. reflexivity. Qed.
Lemma stages_set_stages f w : stages (set_stages f w) = f (stages w). Proof. reflexivity. Qed.

Create Rewrite HintDb world.
#[global] Hint Rewrite emitted_set_emitted emitted_set_limiter emitted_set_cache
  emitted_set_users emitted_set_stored emitted_set_calls emitted_set_stages : world.
#[global] Hint Rewrite limiter_set_emitted limiter_set_limiter limiter_set_cache
  limiter_set_users limiter_set_stored limiter_set_calls limiter_set_stages : world.
#[global] Hint Rewrite cache_set_emitted cache_set_limiter cache_set_cache
  cache_set_users cache_set_stored cache_set_calls cache_set_stages : world.
#[global] Hint Rewrite users_set_emitted users_set_limiter users_set_cache
  users_set_users users_set_stored users_set_calls users_set_stages : world.
#[global] Hint Rewrite stored_set_emitted stored_set_limiter stored_set_cache
  stored_set_users stored_set_stored stored_set_calls stored_set_stages : world.
#[global] Hint Rewrite calls_set_emitted calls_set_limiter calls_set_cache
  calls_set_users calls_set_stored calls_set_calls calls_set_stages : world.
#[global] Hint Rewrite stages_set_emitted stages_set_limiter stages_set_cache
  stages_set_users stages_set_stored stages_set_calls stages_set_stages : world.

(** ** The policy evaluator as a table of checks *)

Module PolicySpec.

Import Policy.

(** The rows of the table of checks, in the order of the table. *)
Inductive Check : Type :=
  | ContentLength | FutureSkew | PastSkew | EventIdPoW | PubkeyPoW
  | PubkeyAllowlist | PubkeyDenylist | KindAllowlist | KindDenylist.

Definition order : list Check :=
  [ContentLength; FutureSkew; PastSkew; EventIdPoW; PubkeyPoW;
   PubkeyAllowlist; PubkeyDenylist; KindAllowlist; KindDenylist].

(** A row: whether the check is violated, and the reason it then gives. *)
Record Row := { fires : bool; says : string }.

(** The event violates a content record: the record has a maximum
    length above zero, the content is longer than it, and the record
    names no kinds or names the kind of the event, by itself or within a
    range. *)
Definition violates (e : Event) (r : ContentLimits) : bool :=
  match cl_maxLength r, cl_kinds r with
  | Some n, Some kinds =>
      (0 <? n) && (n <? Z.of_nat (String.length (ev_content e)))
      && existsb (isEventKindOrRangeMatch e) kinds
  | Some n, None =>
      (0 <? n) && (n <? Z.of_nat (String.length (ev_content e)))
  | None, _ => false
  end.

(** The content record that is violated: the single record, or the
    first violated record of the sequence. *)
Definition violatedRecord (limits : EventLimits) (e : Event) : option ContentLimits :=
  match content limits with
  | ContentSeq cs => List.find (violates e) cs
  | ContentSingle c => if violates e c then Some c else None
  | ContentAbsent => None
  end.

Definition nonEmpty {A} (xs : option (list A)) : bool :=
  match xs with
  | Some (_ :: _) => true
  | _ => false
  end.

Definition row (limits : EventLimits) (now : Z) (e : Event) (c : Check) : Row :=
  match c with
  | ContentLength =>
      let r := violatedRecord limits e in
      {| fires := bool_decide (is_Some r);
         says := "rejected: content is longer than "
                 +:+ pretty (default 0 (r ≫= cl_maxLength)) +:+ " bytes" |}
  | FutureSkew =>
      let d := default 0 (createdAt limits ≫= maxPositiveDelta) in
      {| fires := (0 <? d) && (now + d <? created_at e);
         says := "rejected: created_at is more than " +:+ pretty d
                 +:+ " seconds in the future" |}
  | PastSkew =>
      let d := default 0 (createdAt limits ≫= maxNegativeDelta) in
      {| fires := (0 <? d) && (created_at e <? now - d);
         says := "rejected: created_at is more than " +:+ pretty d
                 +:+ " seconds in the past" |}
  | EventIdPoW =>
      let y := default 0 (eventId limits ≫= eid_minLeadingZeroBits) in
      let x := getLeadingZeroBits (id e) in
      {| fires := (0 <? y) && (x <? y);
         says := "pow: difficulty " +:+ pretty x +:+ "<" +:+ pretty y |}
  | PubkeyPoW =>
      let y := default 0 (pubkey limits ≫= pk_minLeadingZeroBits) in
      let x := getLeadingZeroBits (ev_pubkey e) in
      {| fires := (0 <? y) && (x <? y);
         says := "pow: pubkey difficulty " +:+ pretty x +:+ "<" +:+ pretty y |}
  | PubkeyAllowlist =>
      let l := pubkey limits ≫= pk_whitelist in
      {| fires := nonEmpty l
                  && negb (existsb (fun p => String.prefix p (ev_pubkey e)) (default [] l));
         says := "blocked: pubkey not allowed" |}
  | PubkeyDenylist =>
      let l := pubkey limits ≫= pk_blacklist in
      {| fires := nonEmpty l
                  && existsb (fun p => String.prefix p (ev_pubkey e)) (default [] l);
         says := "blocked: pubkey not allowed" |}
  | KindAllowlist =>
      let l := kind limits ≫= kind_whitelist in
      {| fires := nonEmpty l && negb (existsb (isEventKindOrRangeMatch e) (default [] l));
         says := "blocked: event kind " +:+ pretty (ev_kind e) +:+ " not allowed" |}
  | KindDenylist =>
      let l := kind limits ≫= kind_blacklist in
      {| fires := nonEmpty l && existsb (isEventKindOrRangeMatch e) (default [] l);
         says := "blocked: event kind " +:+ pretty (ev_kind e) +:+ " not allowed" |}
  end.

(** The reason of the first violated check in the order of the table;
    acceptance when none is violated. *)
Definition evaluate (e : Event) (s : Settings) (now : Z) : option string :=
  let limits := default noEventLimits (limits_event s) in
  says <$> List.find fires (map (row limits now e) order).

Definition answer (r : Row) : option string :=
  if fires r then Some (says r) else None.

Lemma contentTooLong_violates e r : contentTooLong e r = violates e r.
Proof.
  unfold contentTooLong, violates, contentLength, some.
  destruct (cl_maxLength r) as [n|], (cl_kinds r) as [kinds|];
    rewrite ?andb_true_r; reflexivity.
Qed.

Lemma contentLoop_find e cs :
  contentLoop e cs =
  (fun r => contentReason (default 0 (cl_maxLength r))) <$> List.find (violates e) cs.
Proof.
  induction cs as [|c cs IH]; simpl; [reflexivity|].
  rewrite contentTooLong_violates.
  destruct (violates e c); [reflexivity | exact IH].
Qed.

Lemma contentCheck_row limits now e :
  contentCheck limits e = answer (row limits now e ContentLength).
Proof.
  unfold contentCheck, answer, row, violatedRecord; simpl.
  destruct (content limits) as [|c|cs]; simpl; [reflexivity| |].
  - rewrite contentTooLong_violates. destruct (violates e c); reflexivity.
  - rewrite contentLoop_find.
    destruct (List.find (violates e) cs); reflexivity.
Qed.

Lemma nonEmpty_length {A} (l : list A) :
  (0 <? Z.of_nat (length l)) = nonEmpty (Some l).
Proof. destruct l; reflexivity. Qed.

Local Ltac by_cases limits field :=
  unfold answer, row; simpl;
  destruct (field limits) as [c|]; simpl; [|reflexivity].

Lemma futureSkew_row limits now e :
  futureSkew now limits e = answer (row limits now e FutureSkew).
Proof.
  unfold futureSkew. by_cases limits createdAt.
  destruct (maxPositiveDelta c); reflexivity.
Qed.

Lemma pastSkew_row limits now e :
  pastSkew now limits e = answer (row limits now e PastSkew).
Proof.
  unfold pastSkew. by_cases limits createdAt.
  destruct (maxNegativeDelta c); reflexivity.
Qed.

Lemma eventIdPow_row limits now e :
  eventIdPow limits e = answer (row limits now e EventIdPoW).
Proof.
  unfold eventIdPow, getEventProofOfWork, powReason. by_cases limits eventId.
  destruct (eid_minLeadingZeroBits c) as [m|]; simpl; [|reflexivity].
  destruct (0 <? m); reflexivity.
Qed.

Lemma pubkeyPow_row limits now e :
  pubkeyPow limits e = answer (row limits now e PubkeyPoW).
Proof.
  unfold pubkeyPow, getPubkeyProofOfWork, pubkeyPowReason. by_cases limits pubkey.
  destruct (pk_minLeadingZeroBits c) as [m|]; simpl; [|reflexivity].
  destruct (0 <? m); reflexivity.
Qed.

Lemma pubkeyWhitelist_row limits now e :
  pubkeyWhitelist limits e = answer (row limits now e PubkeyAllowlist).
Proof.
  unfold pubkeyWhitelist, some, startsWith. by_cases limits pubkey.
  destruct (pk_whitelist c) as [l|]; simpl; [|reflexivity].
  rewrite nonEmpty_length. reflexivity.
Qed.

Lemma pubkeyBlacklist_row limits now e :
  pubkeyBlacklist limits e = answer (row limits now e PubkeyDenylist).
Proof.
  unfold pubkeyBlacklist, some, startsWith. by_cases limits pubkey.
  destruct (pk_blacklist c) as [l|]; simpl; [|reflexivity].
  rewrite nonEmpty_length. reflexivity.
Qed.

Lemma kindWhitelist_row limits now e :
  kindWhitelist limits e = answer (row limits now e KindAllowlist).
Proof.
  unfold kindWhitelist, some, kindReason. by_cases limits kind.
  destruct (kind_whitelist c) as [l|]; simpl; [|reflexivity].
  rewrite nonEmpty_length. reflexivity.
Qed.

Lemma kindBlacklist_row limits now e :
  kindBlacklist limits e = answer (row limits now e KindDenylist).
Proof.
  unfold kindBlacklist, some, kindReason. by_cases limits kind.
  destruct (kind_blacklist c) as [l|]; simpl; [|reflexivity].
  rewrite nonEmpty_length. reflexivity.
Qed.

(** C2. [canAcceptEvent] is a function of the event, the settings and
    the current time alone, and its result is the reason of the first
    violated check in the order content length, future skew, past skew,
    event-id proof of work, pubkey proof of work, pubkey allowlist,
    pubkey denylist, kind allowlist, kind denylist, with the reason
    strings of the table; it accepts when no check is violated. A
    content record is violated when its maximum length is above zero,
    the content is longer, and the record names no kinds or one that
    matches the kind of the event. For a sequence of content records
    the content row is decided by the first violated record, wherever
    it stands in the sequence. *)
Theorem canAcceptEvent_first_violation (e : Event) (s : Settings) (now : Z) :
  canAcceptEvent s now e = evaluate e s now.
Proof.
  unfold canAcceptEvent, evaluate.
  set (limits := default noEventLimits (limits_event s)).
  rewrite (contentCheck_row limits now), (futureSkew_row limits now),
    (pastSkew_row limits now), (eventIdPow_row limits now),
    (pubkeyPow_row limits now), (pubkeyWhitelist_row limits now),
    (pubkeyBlacklist_row limits now), (kindWhitelist_row limits now),
    (kindBlacklist_row limits now).
  unfold order, answer. cbn [map List.find].
  repeat match goal with
         | |- context [fires ?r] => destruct (fires r); [reflexivity|]
         end.
  reflexivity.
Qed.

End PolicySpec.

(** ** Rate limiting *)

Module RateLimitSpec.

Import Handler.

(** The record applies to the kind of the event: it names no kinds, or
    one of its kinds is the kind of the event or a range that holds it. *)
Definition applies (e : Event) (rl : EventRateLimit) : bool :=
  match rl_kinds rl with
  | Some kinds => existsb (isEventKindOrRangeMatch e) kinds
  | None => true
  end.

(** The kinds of a record as they stand in the key of its counter: the
    items separated by commas, a range as [[lo,hi]]. *)
Definition showKind (k : KindItem) : string :=
  match k with
  | KindExact n => pretty n
  | KindRange lo hi => "[" +:+ pretty lo +:+ "," +:+ pretty hi +:+ "]"
  end.

Fixpoint commaSeparated (items : list string) : string :=
  match items with
  | [] => ""
  | item :: rest =>
      match rest with
      | [] => item
      | _ :: _ => item +:+ "," +:+ commaSeparated rest
      end
  end.

(** The key of the counter of a record: [<pubkey>:events:<period>],
    followed by [:[<kinds…>]] when the record names kinds. *)
Definition counterKey (e : Event) (rl : EventRateLimit) : string :=
  match rl_kinds rl with
  | None => ev_pubkey e +:+ ":events:" +:+ pretty (period rl)
  | Some kinds =>
      ev_pubkey e +:+ ":events:" +:+ pretty (period rl)
      +:+ ":[" +:+ commaSeparated (map showKind kinds) +:+ "]"
  end.

(** The call the record stands for: one hit of its counter, with the
    period and the rate of the record. *)
Definition hitCall (e : Event) (rl : EventRateLimit) : Call :=
  LimiterHit (counterKey e rl) 1 (period rl) (rate rl).

(** Hit every record of the list, one after the other and whatever the
    earlier answers were, and collect the answers. *)
Fixpoint hitAll (env : Env) (e : Event) (rls : list EventRateLimit) : M (list bool) :=
  match rls with
  | [] => ret []
  | rl :: rest =>
      b <- hit (nowMs env) (counterKey e rl) 1 (period rl) (rate rl) ;;
      bs <- hitAll env e rest ;;
      ret (b :: bs)
  end.

(** The pubkey of the event is a member of [whitelists.pubkeys], or the
    client address is a member of [whitelists.ipAddresses]. *)
Definition bypassed (env : Env) (e : Event) : bool :=
  let limits := default noEventLimits (limits_event (settings env)) in
  existsb (String.eqb (ev_pubkey e)) (default [] (whitelists limits ≫= wl_pubkeys))
  || existsb (String.eqb (clientAddress env))
       (default [] (whitelists limits ≫= wl_ipAddresses)).

Lemma skipped_applies e rl : skipped e rl = negb (applies e rl).
Proof. unfold skipped, applies, some. destruct (rl_kinds rl); reflexivity. Qed.

Lemma concat_commaSeparated items : String.concat "," items = commaSeparated items.
Proof.
  induction items as [|item rest IH]; [reflexivity|].
  simpl. destruct rest; [reflexivity|]. rewrite IH. reflexivity.
Qed.

Lemma hitKey_counterKey e rl : hitKey e rl = counterKey e rl.
Proof.
  unfold hitKey, counterKey, kindsToString.
  destruct (rl_kinds rl) as [kinds|]; [|reflexivity].
  rewrite concat_commaSeparated.
  replace (map kindItemToString kinds) with (map showKind kinds); [reflexivity|].
  apply map_ext. intros []; reflexivity.
Qed.

Lemma includes_existsb xs v : includes xs v = existsb (String.eqb v) (default [] xs).
Proof.
  destruct xs as [xs|]; [|reflexivity].
  change (bool_decide (v ∈ xs) = existsb (String.eqb v) xs).
  induction xs as [|x xs IH]; cbn [existsb].
  - apply bool_decide_eq_false_2, not_elem_of_nil.
  - destruct (String.eqb_spec v x) as [->|Hne]; cbn [orb].
    + apply bool_decide_eq_true_2. left.
    + rewrite <- IH. apply bool_decide_ext. rewrite elem_of_cons. tauto.
Qed.

Lemma hit_runs now key step p r w :
  exists b w', hit now key step p r w = (Ok b, w')
               /\ calls w' = calls w ++ [LimiterHit key step p r]
               /\ emitted w' = emitted w /\ stages w' = stages w
               /\ users w' = users w /\ cache w' = cache w /\ stored w' = stored w.
Proof. unfold hit, bind, logCall. simpl. eauto 10. Qed.

Lemma rateLimitLoop_hitAll env e rls acc w :
  exists answers w',
    hitAll env e (List.filter (applies e) rls) w = (Ok answers, w')
    /\ length answers = length (List.filter (applies e) rls)
    /\ calls w' = calls w ++ map (hitCall e) (List.filter (applies e) rls)
    /\ rateLimitLoop env e rls acc w = (Ok (acc || existsb (fun b => b) answers), w').
Proof.
  revert acc w. induction rls as [|rl rest IH]; intros acc w; simpl.
  - exists [], w. unfold ret. simpl. rewrite app_nil_r, orb_false_r. auto.
  - rewrite skipped_applies, hitKey_counterKey. destruct (applies e rl); simpl.
    + destruct (hit_runs (nowMs env) (counterKey e rl) 1 (period rl) (rate rl) w)
        as (b & w1 & Hhit & Hcalls & _).
      destruct (IH (if b then true else acc) w1) as (bs & w2 & Hall & Hlen & Hc & Hloop).
      exists (b :: bs), w2. unfold bind at 1 3. rewrite Hhit.
      unfold bind at 1. rewrite Hall. unfold ret. simpl.
      repeat split.
      * congruence.
      * rewrite Hc, Hcalls, <- app_assoc. reflexivity.
      * rewrite Hloop. destruct b, acc; reflexivity.
    + apply IH.
Qed.

(** C3. With [rls] the configured rate-limit records: when the pubkey of
    the event is a member of [whitelists.pubkeys] or the client address
    a member of [whitelists.ipAddresses], [isRateLimited] answers false
    and leaves the world as it was, so no counter is hit; otherwise
    every record that names no kinds or a kind matching the event is hit
    once, in order and whatever the earlier answers were, under the key
    [<pubkey>:events:<period>] or [<pubkey>:events:<period>:[<kinds…>]],
    and the answer is true exactly when one of these hits answered
    true. *)
Theorem isRateLimited_hits_every_applicable (env : Env) (e : Event) (w : World) :
  let rls := default [] (rateLimits (default noEventLimits (limits_event (settings env)))) in
  let applicable := List.filter (applies e) rls in
  if bypassed env e
  then isRateLimited env e w = (Ok false, w)
  else exists answers w',
      hitAll env e applicable w = (Ok answers, w')
      /\ length answers = length applicable
      /\ calls w' = calls w ++ map (hitCall e) applicable
      /\ isRateLimited env e w = (Ok (existsb (fun b => b) answers), w').
Proof.
  intros rls applicable. subst rls applicable.
  unfold bypassed, isRateLimited.
  set (limits := default noEventLimits (limits_event (settings env))).
  rewrite <- !includes_existsb.
  destruct (rateLimits limits) as [[|rl rls]|]; simpl.
  - destruct (_ || _); [reflexivity|].
    exists [], w. rewrite app_nil_r. auto.
  - destruct (includes (whitelists limits ≫= wl_pubkeys) (ev_pubkey e)); simpl;
      [reflexivity|].
    destruct (includes (whitelists limits ≫= wl_ipAddresses) (clientAddress env));
      [reflexivity|].
    destruct (rateLimitLoop_hitAll env e (rl :: rls) false w)
      as (answers & w' & Hall & Hlen & Hc & Hloop).
    exists answers, w'. simpl in *. auto.
  - destruct (_ || _); [reflexivity|].
    exists [], w. rewrite app_nil_r. auto.
Qed.

End RateLimitSpec.

(** ** The user repository *)

Module RepositorySpec.

Import UserRepository.

(** The world after the calls [cs] were made and logged. *)
Definition logged (cs : list Call) (w : World) : World :=
  set_calls (fun l => l ++ cs) w.

Lemma logged_logged a b w : logged b (logged a w) = logged (a ++ b) w.
Proof. unfold logged, set_calls; simpl. rewrite <- app_assoc. reflexivity. Qed.

Lemma logged_nil w : logged [] w = w.
Proof. destruct w. unfold logged, set_calls; simpl. rewrite app_nil_r. reflexivity. Qed.

(** The columns [upsert] overwrites on a conflict. *)
Lemma upsert_patch :
  omit [col_pubkey; col_balance; col_created_at] rowColumns
  = [col_is_admitted; col_tos_accepted_at; col_updated_at].
Proof. reflexivity. Qed.

Lemma upsert_runs env user w :
  upsert env user w
  = (Ok 1,
     set_users (insertOnConflictMerge (userRow (nowMs env) user)
                  [col_is_admitted; col_tos_accepted_at; col_updated_at])
       (logged [DbUpsert (userRow (nowMs env) user)] w)).
Proof. reflexivity. Qed.

Lemma set_users_insertOnConflictMerge row patch w :
  set_users (insertOnConflictMerge row patch) w
  = set_users (insert (db_pubkey row)
                 match users w !! db_pubkey row with
                 | None => row
                 | Some old => foldr (fun c acc => setColumn c row acc) old patch
                 end) w.
Proof.
  unfold set_users, insertOnConflictMerge.
  destruct (users w !! db_pubkey row); reflexivity.
Qed.

(** C9. [upsert(user)] always affects one row and answers that count.
    When no row has the pubkey of the user it inserts the row built
    from the user; when a row [old] has it, the stored row becomes a
    row whose columns [pubkey], [balance] and [created_at] are those of
    [old] and whose every other column is the one of the new row. No
    other row and nothing else of the world changes, apart from the
    call being logged. *)
Theorem upsert_keeps_insert_only_columns (env : Env) (user : User) (w : World) :
  let row := userRow (nowMs env) user in
  exists stored_row,
    upsert env user w
    = (Ok 1, set_users (insert (u_pubkey user) stored_row) (logged [DbUpsert row] w))
    /\ match users w !! u_pubkey user with
       | None => stored_row = row
       | Some old =>
           forall c, column c stored_row
                     = column c (if bool_decide (c ∈ [col_pubkey; col_balance; col_created_at])
                                 then old else row)
       end.
Proof.
  intros row. rewrite upsert_runs, set_users_insertOnConflictMerge. fold row.
  change (db_pubkey row) with (u_pubkey user).
  change (users (logged [DbUpsert row] w)) with (users w).
  eexists. split; [reflexivity|].
  destruct (users w !! u_pubkey user) as [old|]; [|reflexivity].
  intros c. destruct c; reflexivity.
Qed.

(** The address of the pubkey-check webhook, when the webhook is
    configured and the API token is set. *)
Definition pubkeyCheckUrl (env : Env) : option string :=
  match webhookAddress (repoSettings env) pubkeyChecks ep_pubkeyCheck with
  | Some address =>
      if truthy (VIDA_API_KEY env)
      then Some (address +:+ "?token=" +:+ default "" (VIDA_API_KEY env))
      else None
  | None => None
  end.

(** The amount sent along, [topUp[0].amount || 0]; [None] when the
    access raises. *)
Definition topUpAmountOf (s : Settings) : option Z :=
  match payments s ≫= feeSchedules with
  | None => Some 0
  | Some fs => amount <$> head (topUp fs)
  end.

(** The webhook gives no affirmative answer: it is not asked, or its
    response has no data, or the data says the pubkey is not admitted.
    [asked] is the call made, if any. *)
Definition negativeOrMissing (env : Env) (pk : string) (asked : list Call) : Prop :=
  match pubkeyCheckUrl env with
  | None => asked = []
  | Some url =>
      exists amt,
        topUpAmountOf (repoSettings env) = Some amt
        /\ asked = [HttpPost url (BodyPubkeyAmount pk amt)]
        /\ match httpPost env url (BodyPubkeyAmount pk amt) with
           | PostReturns None => True
           | PostReturns (Some data) => rd_isAdmitted data = false
           | PostThrows => False
           end
  end.

Lemma topUpAmount_pure s w :
  topUpAmount s w = match topUpAmountOf s with
                    | Some a => (Ok a, w)
                    | None => (Throw TypeError, w)
                    end.
Proof.
  unfold topUpAmount, topUpAmountOf.
  destruct (payments s ≫= feeSchedules) as [fs|]; [|reflexivity].
  destruct (topUp fs); reflexivity.
Qed.

Lemma fetchUserByWebhook_affirmative env pk w url amt data b :
  pubkeyCheckUrl env = Some url ->
  topUpAmountOf (repoSettings env) = Some amt ->
  httpPost env url (BodyPubkeyAmount pk amt) = PostReturns (Some data) ->
  rd_isAdmitted data = true ->
  rd_balance data = Some b ->
  fetchUserByWebhook env pk w
  = (Ok (Some {| u_pubkey := pk; isAdmitted := true; balance := b;
                 u_createdAt := rd_createdAt data; updatedAt := rd_updatedAt data;
                 tosAcceptedAt := None |}),
     logged [HttpPost url (BodyPubkeyAmount pk amt)] w).
Proof.
  unfold pubkeyCheckUrl, fetchUserByWebhook. intros Hurl Hamt Hpost Hadm Hbal.
  destruct (webhookAddress _ _ _) as [address|]; [|discriminate].
  destruct (truthy (VIDA_API_KEY env)); [|discriminate].
  injection Hurl as <-. simpl.
  unfold tryCatch, bind. rewrite topUpAmount_pure, Hamt.
  unfold post, bind, logCall. rewrite Hpost. simpl.
  rewrite Hadm, Hbal. reflexivity.
Qed.

Lemma fetchUserByWebhook_negative env pk w asked :
  negativeOrMissing env pk asked ->
  fetchUserByWebhook env pk w = (Ok None, logged asked w).
Proof.
  unfold negativeOrMissing, pubkeyCheckUrl, fetchUserByWebhook.
  destruct (webhookAddress _ _ _) as [address|].
  - destruct (truthy (VIDA_API_KEY env)); simpl.
    + intros (amt & Hamt & -> & Hpost).
      unfold tryCatch, bind. rewrite topUpAmount_pure, Hamt.
      unfold post, bind, logCall.
      destruct (httpPost env _ _) as [|[data|]]; [contradiction| |reflexivity].
      simpl. rewrite Hpost. reflexivity.
    + intros ->. rewrite logged_nil. reflexivity.
  - intros ->. rewrite logged_nil. reflexivity.
Qed.

(** The cache holds an entry under [key] that has not lapsed at [now]. *)
Definition held (now : Z) (w : World) (key : string) : Prop :=
  exists value expiry,
    cache w !! key = Some (value, expiry)
    /\ forall t, expiry = Some t -> now < t.

(** The cache holds nothing under [key] at [now]: no entry, or an entry
    that lapsed at [now] or earlier. *)
Definition lapsed (now : Z) (w : World) (key : string) : Prop :=
  cache w !! key = None
  \/ exists value t, cache w !! key = Some (value, Some t) /\ t <= now.

Lemma lapsed_None now w key : cache w !! key = None -> lapsed now w key.
Proof. intros H. left. exact H. Qed.

Lemma cacheExists_held now key w :
  held now w key ->
  cacheExists now key w = (Ok true, logged [CacheExists key] w).
Proof.
  intros (value & expiry & Hc & Hlive).
  unfold cacheExists, bind, logCall.
  change (cache (set_calls _ w)) with (cache w). rewrite Hc.
  unfold live. simpl. destruct expiry as [t|]; [|reflexivity].
  specialize (Hlive t eq_refl). apply Z.ltb_lt in Hlive. rewrite Hlive. reflexivity.
Qed.

Lemma cacheExists_lapsed now key w :
  lapsed now w key ->
  cacheExists now key w = (Ok false, logged [CacheExists key] w).
Proof.
  intros [Hc | (value & t & Hc & Ht)];
    unfold cacheExists, bind, logCall;
    change (cache (set_calls _ w)) with (cache w); rewrite Hc; [reflexivity|].
  unfold live. simpl. apply Z.ltb_ge in Ht. rewrite Ht. reflexivity.
Qed.

Lemma findByPubkey_blocked env pk w :
  held (nowMs env) w (pk +:+ ":is-blocked") ->
  findByPubkey env pk w = (Ok None, logged [CacheExists (pk +:+ ":is-blocked")] w).
Proof.
  intros Hc. unfold findByPubkey, bind at 1.
  rewrite (cacheExists_held _ _ _ Hc). reflexivity.
Qed.

Lemma findByPubkey_unblocked_stored env pk w d :
  lapsed (nowMs env) w (pk +:+ ":is-blocked") ->
  users w !! pk = Some d ->
  findByPubkey env pk w
  = (Ok (Some (fromDBUser d)),
     logged [CacheExists (pk +:+ ":is-blocked"); DbSelectUser pk] w).
Proof.
  intros Hc Hu. unfold findByPubkey, bind at 1.
  rewrite (cacheExists_lapsed _ _ _ Hc).
  unfold bind, logCall.
  change (users (set_calls _ (logged _ w))) with (users w). rewrite Hu.
  unfold ret, logged, set_calls. simpl.
  rewrite <- app_assoc. reflexivity.
Qed.

Lemma findByPubkey_stored env pk w d :
  cache w !! (pk +:+ ":is-blocked") = None ->
  users w !! pk = Some d ->
  findByPubkey env pk w
  = (Ok (Some (fromDBUser d)),
     logged [CacheExists (pk +:+ ":is-blocked"); DbSelectUser pk] w).
Proof. intros Hc. apply findByPubkey_unblocked_stored, lapsed_None, Hc. Qed.

Lemma findByPubkey_unblocked_missing env pk w :
  lapsed (nowMs env) w (pk +:+ ":is-blocked") ->
  users w !! pk = None ->
  findByPubkey env pk w
  = match fetchUserByWebhook env pk
            (logged [CacheExists (pk +:+ ":is-blocked"); DbSelectUser pk] w) with
    | (Ok (Some wu), w1) =>
        let date := nowMs env in
        match upsert env {| u_pubkey := u_pubkey wu; isAdmitted := isAdmitted wu;
                            balance := balance wu; u_createdAt := date;
                            tosAcceptedAt := Some date; updatedAt := date |} w1 with
        | (Ok _, w2) => (Ok (Some wu), w2)
        | (Throw err, w2) => (Throw err, w2)
        end
    | (Ok None, w1) =>
        (Ok None,
         set_cache (insert (pk +:+ ":is-blocked") ("true", Some (nowMs env + 60000)))
           (logged [CacheSet (pk +:+ ":is-blocked") "true";
                    CacheExpire (pk +:+ ":is-blocked") 60] w1))
    | (Throw err, w1) => (Throw err, w1)
    end.
Proof.
  intros Hc Hu. unfold findByPubkey, bind at 1.
  rewrite (cacheExists_lapsed _ _ _ Hc).
  unfold bind at 1 2, logCall.
  change (users (set_calls _ (logged _ w))) with (users w). rewrite Hu.
  replace (set_calls _ (logged _ w))
    with (logged [CacheExists (pk +:+ ":is-blocked"); DbSelectUser pk] w)
    by (unfold logged, set_calls; simpl; rewrite <- app_assoc; reflexivity).
  unfold bind at 1.
  destruct (fetchUserByWebhook env pk _) as [[[wu|]|err] w1]; try reflexivity.
  unfold cacheSet, cacheExpire, bind, logCall, ret, set_cache, logged, set_calls. simpl.
  rewrite alter_insert_eq, <- app_assoc. reflexivity.
Qed.

Lemma findByPubkey_missing env pk w :
  cache w !! (pk +:+ ":is-blocked") = None ->
  users w !! pk = None ->
  findByPubkey env pk w
  = match fetchUserByWebhook env pk
            (logged [CacheExists (pk +:+ ":is-blocked"); DbSelectUser pk] w) with
    | (Ok (Some wu), w1) =>
        let date := nowMs env in
        match upsert env {| u_pubkey := u_pubkey wu; isAdmitted := isAdmitted wu;
                            balance := balance wu; u_createdAt := date;
                            tosAcceptedAt := Some date; updatedAt := date |} w1 with
        | (Ok _, w2) => (Ok (Some wu), w2)
        | (Throw err, w2) => (Throw err, w2)
        end
    | (Ok None, w1) =>
        (Ok None,
         set_cache (insert (pk +:+ ":is-blocked") ("true", Some (nowMs env + 60000)))
           (logged [CacheSet (pk +:+ ":is-blocked") "true";
                    CacheExpire (pk +:+ ":is-blocked") 60] w1))
    | (Throw err, w1) => (Throw err, w1)
    end.
Proof. intros Hc. apply findByPubkey_unblocked_missing, lapsed_None, Hc. Qed.

(** C6. [findByPubkey(pubkey)], with [key] the cache key
    [<pubkey>:is-blocked] and [now] the time of the call:
    - when the cache holds [key] (an entry that has not lapsed) it
      answers none, and the only call made is the cache lookup: neither
      the datastore nor the webhook is touched;
    - otherwise, when the datastore has the user, it answers that user
      after the cache lookup and one select;
    - otherwise, when the webhook answers with [isAdmitted] and a
      balance [b], it upserts the row [{pubkey, is_admitted = true,
      balance = b, created_at = now, updated_at = now,
      tos_accepted_at = now}], which is then the stored row of the
      pubkey, and answers the user of the response;
    - otherwise, when the webhook gives no affirmative answer, it sets
      [key] to ["true"], to lapse 60 seconds after [now], and answers
      none, the users table being untouched. *)
Theorem findByPubkey_cases (env : Env) (pk : string) (w : World) :
  let key := pk +:+ ":is-blocked" in
  let now := nowMs env in
  (held now w key ->
   findByPubkey env pk w = (Ok None, logged [CacheExists key] w))
  /\ (lapsed now w key ->
      forall d, users w !! pk = Some d ->
      findByPubkey env pk w
      = (Ok (Some {| u_pubkey := db_pubkey d; isAdmitted := is_admitted d;
                     balance := db_balance d; u_createdAt := db_created_at d;
                     updatedAt := updated_at d; tosAcceptedAt := tos_accepted_at d |}),
         logged [CacheExists key; DbSelectUser pk] w))
  /\ (lapsed now w key -> users w !! pk = None ->
      forall url amt data b,
      pubkeyCheckUrl env = Some url ->
      topUpAmountOf (repoSettings env) = Some amt ->
      httpPost env url (BodyPubkeyAmount pk amt) = PostReturns (Some data) ->
      rd_isAdmitted data = true ->
      rd_balance data = Some b ->
      let row := {| db_pubkey := pk; is_admitted := true; db_balance := b;
                    tos_accepted_at := Some now; updated_at := now;
                    db_created_at := now |} in
      findByPubkey env pk w
      = (Ok (Some {| u_pubkey := pk; isAdmitted := true; balance := b;
                     u_createdAt := rd_createdAt data;
                     updatedAt := rd_updatedAt data; tosAcceptedAt := None |}),
         set_users (insert pk row)
           (logged [CacheExists key; DbSelectUser pk;
                    HttpPost url (BodyPubkeyAmount pk amt);
                    DbUpsert row] w)))
  /\ (lapsed now w key -> users w !! pk = None ->
      forall asked, negativeOrMissing env pk asked ->
      findByPubkey env pk w
      = (Ok None,
         set_cache (insert key ("true", Some (now + 60000)))
           (logged ([CacheExists key; DbSelectUser pk] ++ asked
                    ++ [CacheSet key "true"; CacheExpire key 60]) w))).
Proof.
  intros key now. subst key now. repeat split.
  - apply findByPubkey_blocked.
  - intros Hc d Hd. apply findByPubkey_unblocked_stored; assumption.
  - intros Hc Hu url amt data b Hurl Hamt Hpost Hadm Hbal row.
    rewrite (findByPubkey_unblocked_missing _ _ _ Hc Hu).
    rewrite (fetchUserByWebhook_affirmative _ _ _ _ _ _ _ Hurl Hamt Hpost Hadm Hbal).
    cbv zeta. cbn [u_pubkey isAdmitted balance].
    rewrite upsert_runs, set_users_insertOnConflictMerge.
    change (users (logged _ (logged _ (logged _ w)))) with (users w).
    unfold userRow. cbn [db_pubkey u_pubkey isAdmitted balance tosAcceptedAt].
    rewrite Hu. rewrite !logged_logged. reflexivity.
  - intros Hc Hu asked Hneg.
    rewrite (findByPubkey_unblocked_missing _ _ _ Hc Hu).
    rewrite (fetchUserByWebhook_negative _ _ _ _ Hneg).
    rewrite !logged_logged. reflexivity.
Qed.

End RepositorySpec.

(** ** The administrative endpoint *)

Module UserRequestSpec.

Import UserRepository UserRequest RepositorySpec.

Lemma getBalanceByPubkey_runs pk w :
  getBalanceByPubkey pk w
  = (Ok match users w !! pk with Some d => db_balance d | None => 0 end,
     logged [DbSelectBalance pk] w).
Proof.
  unfold getBalanceByPubkey, bind, logCall. simpl.
  change (users (set_calls _ w)) with (users w).
  destruct (users w !! pk); reflexivity.
Qed.

(** What the endpoint answers in the cases where it agrees with its
    interface: no API key or no token, no pubkey, an unknown user, and a
    user with a balance other than zero. *)
Lemma userRequestHandler_answers (key : option string) (req : Request) (w : World) :
  (truthy key = false \/ truthy (query_token req) = false ->
   userRequestHandler key req w = (Ok {| status := 403; body := Send "Unauthorized" |}, w))
  /\ (truthy key = true -> truthy (query_token req) = true ->
      truthy (query_pubkey req) = false ->
      userRequestHandler key req w
      = (Ok {| status := 400; body := Send "Must send pubkey in query" |}, w))
  /\ (forall pk, truthy key = true -> truthy (query_token req) = true ->
      query_pubkey req = Some pk -> truthy (Some pk) = true ->
      userRequestHandler key req w
      = match users w !! pk with
        | None => (Ok {| status := 404; body := Send "Pubkey not found" |},
                   logged [DbSelectBalance pk] w)
        | Some d =>
            if db_balance d =? 0
            then (Ok {| status := 404; body := Send "Pubkey not found" |},
                  logged [DbSelectBalance pk] w)
            else (Ok {| status := 200; body := Json (Number (db_balance d)) |},
                  logged [DbSelectBalance pk] w)
        end).
Proof.
  unfold userRequestHandler. repeat split.
  - intros [-> | ->]; [reflexivity|]. rewrite orb_true_r. reflexivity.
  - intros -> -> ->. reflexivity.
  - intros pk -> -> Hq Hpk. rewrite Hq, Hpk. simpl.
    unfold bind. rewrite getBalanceByPubkey_runs.
    destruct (users w !! pk) as [d|]; [|reflexivity].
    destruct (db_balance d =? 0); reflexivity.
Qed.

(** C8, where the code departs from it. For a request that carries a
    token and the pubkey of a stored user whose balance is zero, with
    the API key set, the endpoint answers 404 "Pubkey not found": the
    test [!balance] cannot tell a stored balance of zero from the zero
    that [getBalanceByPubkey] answers for an absent user. *)
Theorem userRequestHandler_zero_balance_not_found
    (key : option string) (req : Request) (w : World) (pk : string) (d : DBUser) :
  truthy key = true ->
  truthy (query_token req) = true ->
  query_pubkey req = Some pk ->
  truthy (Some pk) = true ->
  users w !! pk = Some d ->
  db_balance d = 0 ->
  userRequestHandler key req w
  = (Ok {| status := 404; body := Send "Pubkey not found" |},
     logged [DbSelectBalance pk] w).
Proof.
  intros Hk Ht Hq Hpk Hu Hb.
  destruct (userRequestHandler_answers key req w) as (_ & _ & H).
  rewrite (H pk Hk Ht Hq Hpk), Hu, Hb. reflexivity.
Qed.

Definition emptyWorld : World :=
  {| emitted := []; limiter := ∅; cache := ∅; users := ∅; stored := [];
     calls := []; stages := [] |}.

(** A stored and admitted user whose balance is zero. *)
Definition zeroBalanceRow : DBUser :=
  {| db_pubkey := "ab"; is_admitted := true; db_balance := 0;
     tos_accepted_at := None; updated_at := 1700000000000;
     db_created_at := 1700000000000 |}.

Definition zeroBalanceWorld : World :=
  set_users (insert "ab" zeroBalanceRow) emptyWorld.

Definition zeroBalanceRequest : Request :=
  {| query_token := Some "secret"; query_pubkey := Some "ab" |}.

Lemma userRequestHandler_zero_balance_witness :
  users zeroBalanceWorld !! "ab" = Some zeroBalanceRow
  /\ userRequestHandler (Some "secret") zeroBalanceRequest zeroBalanceWorld
     = (Ok {| status := 404; body := Send "Pubkey not found" |},
        logged [DbSelectBalance "ab"] zeroBalanceWorld).
Proof.
  split; [reflexivity|].
  apply (userRequestHandler_zero_balance_not_found
           (Some "secret") zeroBalanceRequest zeroBalanceWorld "ab" zeroBalanceRow);
    reflexivity.
Defined.

End UserRequestSpec.

(** ** User admission and balance gating *)

Module AdmissionSpec.

Import UserRepository Handler RepositorySpec.

(** [payments?.enabled] *)
Definition paymentsEnabled (s : Settings) : bool :=
  match payments s with
  | Some p => payments_enabled p
  | None => false
  end.

(** A fee schedule is charged to the submitter: it is enabled and its
    whitelist, if it has one, holds no prefix of the submitter's pubkey. *)
Definition charged (e : Event) (fee : FeeSchedule) : bool :=
  enabled fee
  && negb (existsb (fun prefix => String.prefix prefix (ev_pubkey e))
             (default [] (fee_whitelist_pubkeys fee))).

(** The admission fee schedules that are enabled and whose whitelist
    has no prefix of the submitter's pubkey. *)
Definition applicableFees (s : Settings) (e : Event) : list FeeSchedule :=
  match payments s ≫= feeSchedules with
  | Some fs => List.filter (charged e) (admission fs)
  | None => []
  end.

Lemma filter_isApplicableFee e fees :
  List.filter (isApplicableFee e) fees = List.filter (charged e) fees.
Proof.
  apply List.filter_ext. intros fee. unfold isApplicableFee, charged, some, startsWith.
  destruct (fee_whitelist_pubkeys fee); reflexivity.
Qed.

Definition notAdmitted : string := "blocked: pubkey not admitted".
Definition insufficient : string := "blocked: insufficient balance".

(** What [isUserAdmitted] does once it has decided to load the user. *)
Definition afterLoad (env : Env) (e : Event) (fs : FeeSchedules) (user : option User)
    : M (option string) :=
  match user with
  | None => ret (Some notAdmitted)
  | Some user =>
      if negb (isAdmitted user) then ret (Some notAdmitted)
      else
        pub <- first (publication fs) ;;
        if enabled pub && (balance user <? amount pub) then
          top <- first (topUp fs) ;;
          if enabled top then
            toppedUp <- topUpPubkey env (ev_pubkey e) ;;
            if toppedUp then ret None else ret (Some insufficient)
          else ret (Some insufficient)
        else
          let minBalance :=
            default 0 ((limits_event (settings env) ≫= pubkey) ≫= minBalance) in
          if (0 <? minBalance) && (balance user <? minBalance)
          then ret (Some insufficient)
          else ret None
  end.

Lemma isUserAdmitted_skips env e w :
  paymentsEnabled (settings env) = false \/ applicableFees (settings env) e = [] ->
  isUserAdmitted env e w = (Ok None, w).
Proof.
  unfold paymentsEnabled, applicableFees, isUserAdmitted.
  destruct (payments (settings env)) as [p|]; simpl; [|reflexivity].
  intros [-> | H]; [reflexivity|].
  destruct (payments_enabled p); [|reflexivity]. simpl.
  destruct (feeSchedules p) as [fs|]; [|reflexivity].
  rewrite filter_isApplicableFee, H. reflexivity.
Qed.

Lemma isUserAdmitted_loads env e w fs :
  paymentsEnabled (settings env) = true ->
  payments (settings env) ≫= feeSchedules = Some fs ->
  applicableFees (settings env) e <> [] ->
  isUserAdmitted env e w
  = (user <- findByPubkey env (ev_pubkey e) ;; afterLoad env e fs user) w.
Proof.
  unfold paymentsEnabled, applicableFees, isUserAdmitted.
  destruct (payments (settings env)) as [p|]; simpl; [|discriminate].
  intros -> Hfs. rewrite Hfs. simpl. rewrite filter_isApplicableFee.
  destruct (List.filter _ _); [congruence|]. intros _. reflexivity.
Qed.

(** C4. [isUserAdmitted(event)]:
    - accepts at once, touching nothing, when payments are disabled or
      when no admission fee schedule is both enabled and free of a
      whitelist entry that is a prefix of the submitter's pubkey;
    - otherwise loads the user with [findByPubkey] and answers
      ["blocked: pubkey not admitted"] when there is none or when the
      user is not admitted;
    - for an admitted user, when the first publication schedule is
      enabled and the balance is below its amount: if the first top-up
      schedule is enabled it calls [topUpPubkey], the event is accepted
      when that answers true and refused with
      ["blocked: insufficient balance"] when it answers false; if the
      top-up schedule is not enabled it is refused with that reason
      without a top-up. *)
Theorem isUserAdmitted_cases (env : Env) (e : Event) (w : World) :
  let s := settings env in
  let pk := ev_pubkey e in
  (paymentsEnabled s = false \/ applicableFees s e = [] ->
   isUserAdmitted env e w = (Ok None, w))
  /\ (paymentsEnabled s = true -> applicableFees s e <> [] ->
      forall w1,
      findByPubkey env pk w = (Ok None, w1)
      \/ (exists u, findByPubkey env pk w = (Ok (Some u), w1) /\ isAdmitted u = false) ->
      isUserAdmitted env e w = (Ok (Some "blocked: pubkey not admitted"), w1))
  /\ (paymentsEnabled s = true -> applicableFees s e <> [] ->
      forall fs pub top u w1,
      payments s ≫= feeSchedules = Some fs ->
      findByPubkey env pk w = (Ok (Some u), w1) ->
      isAdmitted u = true ->
      head (publication fs) = Some pub ->
      enabled pub = true ->
      balance u < amount pub ->
      head (topUp fs) = Some top ->
      if enabled top
      then forall toppedUp w2,
          topUpPubkey env pk w1 = (Ok toppedUp, w2) ->
          isUserAdmitted env e w
          = (Ok (if toppedUp then None else Some "blocked: insufficient balance"), w2)
      else isUserAdmitted env e w = (Ok (Some "blocked: insufficient balance"), w1)).
Proof.
  intros s pk. subst s pk. repeat split.
  - apply isUserAdmitted_skips.
  - intros Hen Happ w1 Hfind.
    assert (exists fs, payments (settings env) ≫= feeSchedules = Some fs) as [fs Hfs].
    { unfold applicableFees in Happ.
      destruct (payments (settings env) ≫= feeSchedules); [eauto|congruence]. }
    rewrite (isUserAdmitted_loads _ _ _ _ Hen Hfs Happ). unfold bind at 1.
    destruct Hfind as [-> | (u & -> & Hu)]; [reflexivity|].
    simpl. rewrite Hu. reflexivity.
  - intros Hen Happ fs pub top u w1 Hfs Hfind Hu Hpub Hpe Hlt Htop.
    assert (Hrun : isUserAdmitted env e w
                   = (if enabled top
                      then toppedUp <- topUpPubkey env (ev_pubkey e) ;;
                           if toppedUp then ret None else ret (Some insufficient)
                      else ret (Some insufficient)) w1).
    { rewrite (isUserAdmitted_loads _ _ _ _ Hen Hfs Happ). unfold bind at 1.
      rewrite Hfind. simpl. rewrite Hu. simpl.
      destruct (publication fs) as [|pub' ?]; [discriminate|]. injection Hpub as ->.
      destruct (topUp fs) as [|top' ?]; [discriminate|]. injection Htop as ->.
      unfold bind at 1. simpl. rewrite Hpe.
      rewrite (proj2 (Z.ltb_lt _ _) Hlt). reflexivity. }
    rewrite Hrun. destruct (enabled top); [|reflexivity].
    intros toppedUp w2 Htu. unfold bind. rewrite Htu. destruct toppedUp; reflexivity.
Qed.

(** C10. When the user is admitted, the first publication schedule is
    enabled, the balance is below its amount, the first top-up schedule
    is enabled and [topUpPubkey] answers true, [isUserAdmitted] accepts
    in the world the top-up left: the answer depends neither on the
    balance after the top-up nor on [limits.event.pubkey.minBalance],
    which is not consulted. *)
Theorem isUserAdmitted_topUp_skips_minBalance
    (env : Env) (e : Event) (w w1 w2 : World)
    (fs : FeeSchedules) (pub top : FeeSchedule) (u : User) :
  paymentsEnabled (settings env) = true ->
  payments (settings env) ≫= feeSchedules = Some fs ->
  applicableFees (settings env) e <> [] ->
  findByPubkey env (ev_pubkey e) w = (Ok (Some u), w1) ->
  isAdmitted u = true ->
  head (publication fs) = Some pub ->
  enabled pub = true ->
  balance u < amount pub ->
  head (topUp fs) = Some top ->
  enabled top = true ->
  topUpPubkey env (ev_pubkey e) w1 = (Ok true, w2) ->
  isUserAdmitted env e w = (Ok None, w2).
Proof.
  intros Hen Hfs Happ Hfind Hu Hpub Hpe Hlt Htop Hte Htu.
  rewrite (isUserAdmitted_loads _ _ _ _ Hen Hfs Happ). unfold bind at 1.
  rewrite Hfind. simpl. rewrite Hu. simpl.
  destruct (publication fs) as [|pub' ?]; [discriminate|]. injection Hpub as ->.
  destruct (topUp fs) as [|top' ?]; [discriminate|]. injection Htop as ->.
  unfold bind at 1. simpl. rewrite Hpe.
  rewrite (proj2 (Z.ltb_lt _ _) Hlt). simpl. unfold bind at 1. simpl.
  rewrite Hte. unfold bind. rewrite Htu. reflexivity.
Qed.

(** A relay that charges 100 for publication, tops up by 1 and asks for
    a balance of at least 1000000; the submitter is admitted and has a
    balance of 0; the top-up webhook answers [success]. *)
Definition paidSettings : Settings :=
  {| payments := Some
       {| payments_enabled := true;
          feeSchedules := Some
            {| admission := [{| enabled := true; amount := 1000;
                                fee_whitelist_pubkeys := None |}];
               publication := [{| enabled := true; amount := 100;
                                  fee_whitelist_pubkeys := None |}];
               topUp := [{| enabled := true; amount := 1;
                            fee_whitelist_pubkeys := None |}] |} |};
     limits_event := Some
       {| eventId := None;
          pubkey := Some {| minBalance := Some 1000000; pk_minLeadingZeroBits := None;
                            pk_whitelist := None; pk_blacklist := None |};
          kind := None; createdAt := None; content := ContentAbsent;
          rateLimits := None; whitelists := None |};
     webhooks := Some
       {| pubkeyChecks := false; topUps := true; eventChecks := false;
          eventCallbacks := false;
          endpoints := Some {| baseURL := "http://hook"; ep_pubkeyCheck := None;
                               ep_eventCheck := None; ep_eventCallback := None;
                               ep_topUps := Some "/topup" |} |} |}.

Definition successData : ResponseData :=
  {| success := true; reason := None; rd_isAdmitted := false; rd_balance := None;
     rd_createdAt := 0; rd_updatedAt := 0 |}.

Definition noStrategyRun : StrategyRun :=
  {| run_emits := []; run_stores := []; run_throws := false |}.

Definition paidEnv : Env :=
  {| settings := paidSettings; repoSettings := paidSettings;
     VIDA_API_KEY := Some "token"; clientAddress := "10.0.0.1";
     nowMs := 1700000000000;
     isEventIdValid := fun _ => true; isEventSignatureValid := fun _ => true;
     httpPost := fun _ _ => PostReturns (Some successData);
     strategyFactory := fun _ => Some (fun _ => noStrategyRun) |}.

Definition note : Event :=
  {| id := "00ff"; ev_pubkey := "ab"; created_at := 1700000000; ev_kind := 1;
     tags := []; ev_content := "hello"; sig := "5161";
     ev_context := None; ev_expiration := None |}.

Definition poorWorld : World := UserRequestSpec.zeroBalanceWorld.

Definition afterTopUp : World :=
  snd (topUpPubkey paidEnv "ab" (snd (findByPubkey paidEnv "ab" poorWorld))).

Lemma isUserAdmitted_topUp_witness :
  isUserAdmitted paidEnv note poorWorld = (Ok None, afterTopUp)
  /\ db_balance <$> users afterTopUp !! "ab" = Some 1
  /\ (limits_event paidSettings ≫= pubkey) ≫= minBalance = Some 1000000.
Proof.
  split; [|split; vm_compute; reflexivity].
  apply (isUserAdmitted_topUp_skips_minBalance paidEnv note poorWorld
           (snd (findByPubkey paidEnv "ab" poorWorld)) afterTopUp
           {| admission := [{| enabled := true; amount := 1000;
                               fee_whitelist_pubkeys := None |}];
              publication := [{| enabled := true; amount := 100;
                                 fee_whitelist_pubkeys := None |}];
              topUp := [{| enabled := true; amount := 1;
                           fee_whitelist_pubkeys := None |}] |}
           {| enabled := true; amount := 100; fee_whitelist_pubkeys := None |}
           {| enabled := true; amount := 1; fee_whitelist_pubkeys := None |}
           (fromDBUser UserRequestSpec.zeroBalanceRow));
    try (vm_compute; reflexivity).
  vm_compute. discriminate.
Defined.

End AdmissionSpec.

(** ** The pipeline *)

Module PipelineSpec.

Import UserRepository Handler RepositorySpec.

(** The stages in the order of the spec. *)
Definition order : list Stage :=
  [SValidity; SExpiration; SExpirationMetadata; SRateLimit; SPolicy; SAdmission;
   SEventCheck; SStrategyResolution; SPublicationFee; SStrategyExecution;
   SEventCallback].

(** The world after the stages [ss] were entered. *)
Definition entered (ss : list Stage) (w : World) : World :=
  set_stages (fun l => l ++ ss) w.

(** The acknowledgement [["OK", event.id, false, why]] of a message. *)
Definition refusal (message : IncomingEventMessage) (why : option string) : CommandResult :=
  createCommandResult (id (msg_event message)) false why.

(** A computation is quiet when it writes no frame to the connection,
    persists no event and leaves the stage history alone. *)
Definition quiet {A} (m : M A) : Prop :=
  forall w r w', m w = (r, w') ->
    emitted w' = emitted w /\ stages w' = stages w /\ stored w' = stored w.

Create HintDb quiet.

Lemma quiet_ret {A} (a : A) : quiet (ret a).
Proof. intros w r w' [= <- <-]. auto. Qed.

Lemma quiet_throw {A} err : quiet (@throw A err).
Proof. intros w r w' [= <- <-]. auto. Qed.

Lemma quiet_bind {A B} (m : M A) (k : A -> M B) :
  quiet m -> (forall a, quiet (k a)) -> quiet (bind m k).
Proof.
  intros Hm Hk w r w'. unfold bind.
  destruct (m w) as [[a|err] w1] eqn:E; destruct (Hm _ _ _ E) as (He & Hs & Hp).
  - intros E2. destruct (Hk _ _ _ _ E2) as (He2 & Hs2 & Hp2).
    repeat split; congruence.
  - intros [= <- <-]. auto.
Qed.

Lemma quiet_tryCatch {A} (m : M A) (h : Error -> M A) :
  quiet m -> (forall err, quiet (h err)) -> quiet (tryCatch m h).
Proof.
  intros Hm Hh w r w'. unfold tryCatch.
  destruct (m w) as [[a|err] w1] eqn:E; destruct (Hm _ _ _ E) as (He & Hs & Hp).
  - intros [= <- <-]. auto.
  - intros E2. destruct (Hh _ _ _ _ E2) as (He2 & Hs2 & Hp2).
    repeat split; congruence.
Qed.

Lemma quiet_state {A} (f : World -> A) (g : World -> World) :
  (forall w, emitted (g w) = emitted w /\ stages (g w) = stages w
             /\ stored (g w) = stored w) ->
  quiet (fun w => (Ok (f w), g w)).
Proof. intros Hg w r w' [= <- <-]. apply Hg. Qed.

Lemma quiet_logCall c : quiet (logCall c).
Proof. intros w r w' [= <- <-]. auto. Qed.

Lemma quiet_first {A} (xs : list A) : quiet (first xs).
Proof. destruct xs; [apply quiet_throw | apply quiet_ret]. Qed.

#[local] Hint Resolve quiet_ret quiet_throw quiet_logCall quiet_first : quiet.

(** Take a quiet computation apart along its binds and case
    distinctions. *)
Ltac quiet_step :=
  match goal with
  | |- quiet (bind _ _) => apply quiet_bind; [|intros ?]
  | |- quiet (tryCatch _ _) => apply quiet_tryCatch; [|intros ?]
  | |- quiet (match ?x with _ => _ end) => destruct x
  | |- quiet (fun w => (Ok _, _)) => apply quiet_state; intros ?; auto
  | |- quiet _ => solve [auto with quiet]
  end.

Lemma quiet_cacheExists now key : quiet (cacheExists now key).
Proof. unfold cacheExists. repeat quiet_step. Qed.

Lemma quiet_cacheSet key v : quiet (cacheSet key v).
Proof. unfold cacheSet. repeat quiet_step. Qed.

Lemma quiet_cacheExpire now key t : quiet (cacheExpire now key t).
Proof. unfold cacheExpire. repeat quiet_step. Qed.

Lemma quiet_hit now key step p r : quiet (hit now key step p r).
Proof. unfold hit. repeat quiet_step. Qed.

Lemma quiet_post env url body : quiet (post env url body).
Proof. unfold post. repeat quiet_step. Qed.

Lemma quiet_upsert env user : quiet (upsert env user).
Proof. unfold upsert. repeat quiet_step. Qed.

Lemma quiet_incrementUserBalance pk amt : quiet (incrementUserBalance pk amt).
Proof. unfold incrementUserBalance. repeat quiet_step. Qed.

Lemma quiet_decrementUserBalance pk amt : quiet (decrementUserBalance pk amt).
Proof. unfold decrementUserBalance. repeat quiet_step. Qed.

Lemma quiet_topUpAmount s : quiet (topUpAmount s).
Proof. unfold topUpAmount. repeat quiet_step. Qed.

#[local] Hint Resolve quiet_cacheExists quiet_cacheSet quiet_cacheExpire quiet_hit
  quiet_post quiet_upsert quiet_incrementUserBalance quiet_decrementUserBalance
  quiet_topUpAmount : quiet.

Lemma quiet_fetchUserByWebhook env pk : quiet (fetchUserByWebhook env pk).
Proof. unfold fetchUserByWebhook. repeat quiet_step. Qed.

Lemma quiet_topUpPubkey env pk : quiet (topUpPubkey env pk).
Proof. unfold topUpPubkey. repeat quiet_step. Qed.

#[local] Hint Resolve quiet_fetchUserByWebhook quiet_topUpPubkey : quiet.

Lemma quiet_findByPubkey env pk : quiet (findByPubkey env pk).
Proof. unfold findByPubkey. repeat quiet_step. Qed.

#[local] Hint Resolve quiet_findByPubkey : quiet.

Lemma quiet_isUserAdmitted env e : quiet (isUserAdmitted env e).
Proof. unfold isUserAdmitted. repeat quiet_step. Qed.

Lemma quiet_publicationFee env e : quiet (publicationFee env e).
Proof. unfold publicationFee, updateUserBalance. repeat quiet_step. Qed.

Lemma quiet_eventCallback env e : quiet (eventCallback env e).
Proof. unfold eventCallback. repeat quiet_step. Qed.

Lemma isRateLimited_local env e w :
  exists b w', isRateLimited env e w = (Ok b, w')
    /\ emitted w' = emitted w /\ stages w' = stages w /\ stored w' = stored w
    /\ users w' = users w /\ cache w' = cache w.
Proof.
  assert (Hloop : forall rls acc w0, exists b w',
             rateLimitLoop env e rls acc w0 = (Ok b, w')
             /\ emitted w' = emitted w0 /\ stages w' = stages w0
             /\ stored w' = stored w0 /\ users w' = users w0 /\ cache w' = cache w0).
  { induction rls as [|rl rest IH]; intros acc w0; simpl.
    - exists acc, w0. repeat split; reflexivity.
    - destruct (skipped e rl); [apply IH|].
      destruct (RateLimitSpec.hit_runs (nowMs env) (hitKey e rl) 1 (period rl) (rate rl) w0)
        as (b & w1 & Hhit & _ & He & Hs & Hu & Hc & Hp).
      unfold bind. rewrite Hhit.
      destruct (IH (if b then true else acc) w1)
        as (b' & w2 & -> & He2 & Hs2 & Hp2 & Hu2 & Hc2).
      exists b', w2. repeat split; congruence. }
  unfold isRateLimited.
  destruct (rateLimits _) as [[|rl rls]|];
    try (exists false, w; repeat split; reflexivity).
  destruct (includes _ (ev_pubkey e));
    [exists false, w; repeat split; reflexivity|].
  destruct (includes _ (clientAddress env));
    [exists false, w; repeat split; reflexivity|].
  apply Hloop.
Qed.

Lemma eventCallback_returns env e w : exists w', eventCallback env e w = (Ok tt, w').
Proof.
  unfold eventCallback. destruct (webhookAddress _ _ _) as [url|]; [|eexists; reflexivity].
  unfold tryCatch, bind, post, bind, logCall. simpl.
  destruct (httpPost env url (BodyEvent e)) as [|[data|]]; eexists; reflexivity.
Qed.

(** What the event-check block may do: veto with one frame, pass, or
    raise, the last two without a frame. *)
Lemma eventCheck_outcomes env e w :
  match eventCheck env e w with
  | (Ok true, w') =>
      (exists why, emitted w' = emitted w ++ [createCommandResult (id e) false why])
      /\ stages w' = stages w /\ stored w' = stored w
  | (_, w') => emitted w' = emitted w /\ stages w' = stages w /\ stored w' = stored w
  end.
Proof.
  unfold eventCheck. destruct (webhookAddress _ _ _) as [url|]; [|simpl; auto].
  unfold tryCatch, bind, post, bind, logCall. simpl.
  destruct (httpPost env url (BodyEvent e)) as [|[data|]]; simpl; auto.
  destruct (success data); simpl; eauto.
Qed.

Lemma id_addExpirationMetadata e : id (addExpirationMetadata e) = id e.
Proof.
  unfold addExpirationMetadata. destruct (getEventExpiration e) as [t|]; [|reflexivity].
  destruct (t =? 0); reflexivity.
Qed.

(** The validity stage is a function of the event. *)
Definition validity (env : Env) (e : Event) : option string :=
  if negb (isEventIdValid env e) then Some "invalid: event id does not match"
  else if negb (isEventSignatureValid env e)
  then Some "invalid: event signature verification failed"
  else None.

Lemma isEventValid_pure env e w : isEventValid env e w = (Ok (validity env e), w).
Proof.
  unfold isEventValid, validity.
  destruct (isEventIdValid env e); [|reflexivity].
  destruct (isEventSignatureValid env e); reflexivity.
Qed.

(** The run has entered the first [j] stages and written nothing. *)
Definition at_stage (w : World) (j : nat) (W : World) : Prop :=
  stages W = stages w ++ take j order
  /\ emitted W = emitted w /\ stored W = stored w.

Lemma at_stage_start w : at_stage w 0 w.
Proof. unfold at_stage. simpl. rewrite app_nil_r. auto. Qed.

Lemma at_stage_enter w j W s :
  at_stage w j W -> order !! j = Some s -> at_stage w (S j) (entered [s] W).
Proof.
  intros (Hs & He & Hp) Hj. unfold at_stage. rewrite (take_S_r _ _ _ Hj), app_assoc.
  unfold entered, set_stages; cbn [stages emitted stored].
  rewrite Hs. auto.
Qed.

Lemma at_stage_quiet {A} (m : M A) w j W r W' :
  quiet m -> m W = (r, W') -> at_stage w j W -> at_stage w j W'.
Proof.
  intros Hq Hm (Hs & He & Hp). destruct (Hq _ _ _ Hm) as (He' & Hs' & Hp').
  unfold at_stage. repeat split; congruence.
Qed.

Lemma bind_enter {A} s (k : M A) w : (enter s ;;; k) w = k (entered [s] w).
Proof. reflexivity. Qed.

Lemma bind_run {A B} (m : M A) (k : A -> M B) w :
  bind m k w = match m w with
               | (Ok a, w') => k a w'
               | (Throw err, w') => (Throw err, w')
               end.
Proof. reflexivity. Qed.

Lemma reject_runs message e why W :
  id e = id (msg_event message) ->
  reject e why W = (Ok tt, set_emitted (fun fs => fs ++ [refusal message (Some why)]) W).
Proof. intros H. unfold reject, refusal, emit. rewrite H. reflexivity. Qed.

(** The handler from the publication fee on, and from the event check
    on. *)
Definition fromStrategy (env : Env) (event : Event) (strategy : Event -> StrategyRun)
    : M unit :=
  enter SPublicationFee ;;;
  publicationFee env event ;;;
  enter SStrategyExecution ;;;
  tryCatch (execute strategy event)
           (fun _ => reject event "error: unable to process event") ;;;
  enter SEventCallback ;;;
  eventCallback env event.

Definition fromEventCheck (env : Env) (event : Event) : M unit :=
  enter SEventCheck ;;;
  returned <- eventCheck env event ;;
  if returned then ret tt
  else
  enter SStrategyResolution ;;;
  match strategyFactory env event with
  | None => reject event "error: event not supported"
  | Some strategy => fromStrategy env event strategy
  end.

(** The strategy execution with its [catch]. *)
Lemma execute_caught message strategy e W :
  id e = id (msg_event message) ->
  tryCatch (execute strategy e)
           (fun _ => reject e "error: unable to process event") W
  = (Ok tt,
     set_emitted (fun fs => fs ++ run_emits (strategy e)
                    ++ (if run_throws (strategy e)
                        then [refusal message (Some "error: unable to process event")]
                        else []))
       (set_stored (fun es => es ++ run_stores (strategy e))
          (logged [StrategyExecute e] W))).
Proof.
  intros Hid. unfold tryCatch, execute, bind, logCall. cbn beta iota zeta.
  destruct (run_throws (strategy e)).
  - rewrite (reject_runs message _ _ _ Hid).
    unfold set_emitted, set_stored, logged, set_calls; cbn -[String.append].
    rewrite <- app_assoc. reflexivity.
  - unfold set_emitted, set_stored, logged, set_calls; cbn -[String.append].
    rewrite app_nil_r. reflexivity.
Qed.

(** [handleMessage] up to the admission stage, followed by
    [fromEventCheck]. *)
Lemma handleMessage_tail env message :
  handleMessage env message
  = (let event := setContext (msg_event message) (msg_context message) in
     enter SValidity ;;;
     reason <- isEventValid env event ;;
     if truthy reason then reject event (default "" reason)
     else
     enter SExpiration ;;;
     if isExpiredEvent (nowSeconds env) event then reject event "event is expired"
     else
     enter SExpirationMetadata ;;;
     let event := addExpirationMetadata event in
     enter SRateLimit ;;;
     limited <- isRateLimited env event ;;
     if limited then reject event "rate-limited: slow down"
     else
     enter SPolicy ;;;
     let reason := Policy.canAcceptEvent (settings env) (nowSeconds env) event in
     if truthy reason then reject event (default "" reason)
     else
     enter SAdmission ;;;
     reason <- isUserAdmitted env event ;;
     if truthy reason then reject event (default "" reason)
     else fromEventCheck env event).
Proof. reflexivity. Qed.

Lemma entered_entered a b w : entered b (entered a w) = entered (a ++ b) w.
Proof. unfold entered, set_stages; simpl. rewrite <- app_assoc. reflexivity. Qed.

(** The first six stages let the message through: they leave the event
    [ev] (the submitted event with its metadata) and the world [W6]. *)
Definition passesAdmission (env : Env) (message : IncomingEventMessage) (w : World)
    (ev : Event) (W6 : World) : Prop :=
  let event0 := setContext (msg_event message) (msg_context message) in
  truthy (validity env event0) = false
  /\ isExpiredEvent (nowSeconds env) event0 = false
  /\ ev = addExpirationMetadata event0
  /\ exists W4 reason,
      isRateLimited env ev
        (entered [SValidity; SExpiration; SExpirationMetadata; SRateLimit] w)
      = (Ok false, W4)
      /\ truthy (Policy.canAcceptEvent (settings env) (nowSeconds env) ev) = false
      /\ isUserAdmitted env ev (entered [SPolicy; SAdmission] W4) = (Ok reason, W6)
      /\ truthy reason = false.

Lemma handleMessage_passes env message w ev W6 :
  passesAdmission env message w ev W6 ->
  handleMessage env message w = fromEventCheck env ev W6
  /\ at_stage w 6 W6
  /\ id ev = id (msg_event message).
Proof.
  intros (Hv & Hx & -> & W4 & reason & Hrl & Hpol & Hadm & Hr).
  rewrite handleMessage_tail. cbv zeta.
  set (event0 := setContext (msg_event message) (msg_context message)) in *.
  set (event := addExpirationMetadata event0) in *.
  rewrite bind_enter. unfold bind at 1. rewrite isEventValid_pure, Hv.
  rewrite bind_enter, Hx, !bind_enter. unfold bind at 1.
  rewrite !entered_entered. cbn [app]. rewrite Hrl.
  rewrite bind_enter, Hpol, bind_enter. unfold bind at 1.
  rewrite !entered_entered. cbn [app]. rewrite Hadm, Hr.
  split; [reflexivity|]. split.
  - pose proof (at_stage_start w) as H0.
    pose proof (at_stage_enter _ _ _ SValidity H0 eq_refl) as H1.
    pose proof (at_stage_enter _ _ _ SExpiration H1 eq_refl) as H2.
    pose proof (at_stage_enter _ _ _ SExpirationMetadata H2 eq_refl) as H3.
    pose proof (at_stage_enter _ _ _ SRateLimit H3 eq_refl) as H4.
    rewrite !entered_entered in H4. cbn [app] in H4.
    destruct (isRateLimited_local env event
                (entered [SValidity; SExpiration; SExpirationMetadata; SRateLimit] w))
      as (b & W4' & Hrl' & He4 & Hs4 & Hp4 & _).
    rewrite Hrl in Hrl'. injection Hrl' as <- <-.
    assert (H4' : at_stage w 4 W4).
    { destruct H4 as (Hs & He & Hp). unfold at_stage. repeat split; congruence. }
    pose proof (at_stage_enter _ _ _ SPolicy H4' eq_refl) as H5.
    pose proof (at_stage_enter _ _ _ SAdmission H5 eq_refl) as H6.
    rewrite !entered_entered in H6. cbn [app] in H6.
    exact (at_stage_quiet _ _ _ _ _ _ (quiet_isUserAdmitted env event) Hadm H6).
  - unfold event. rewrite id_addExpirationMetadata. reflexivity.
Qed.

(** C7. Let the first six stages pass and the event-check webhook be
    configured and enabled, at address [url]. When the response says
    [success = false], the handler writes the one frame
    [["OK", event.id, false, reason]] with the reason of the response
    and returns after the event-check stage. When the call fails in
    transport, the handler raises that failure after the event-check
    stage and writes no frame at all. *)
Theorem eventCheck_veto_or_failure (env : Env) (message : IncomingEventMessage)
    (w : World) (ev : Event) (W6 : World) (url : string) :
  passesAdmission env message w ev W6 ->
  webhookAddress (settings env) eventChecks ep_eventCheck = Some url ->
  let W7 := logged [HttpPost url (BodyEvent ev)] (entered [SEventCheck] W6) in
  (forall data,
      httpPost env url (BodyEvent ev) = PostReturns (Some data) ->
      success data = false ->
      let frame := createCommandResult (id (msg_event message)) false (reason data) in
      handleMessage env message w = (Ok tt, set_emitted (fun fs => fs ++ [frame]) W7)
      /\ emitted (set_emitted (fun fs => fs ++ [frame]) W7) = emitted w ++ [frame]
      /\ stages W7 = stages w ++ take 7 order)
  /\ (httpPost env url (BodyEvent ev) = PostThrows ->
      handleMessage env message w = (Throw (TransportError url), W7)
      /\ emitted W7 = emitted w
      /\ stages W7 = stages w ++ take 7 order).
Proof.
  intros Hpass Hurl W7.
  destruct (handleMessage_passes _ _ _ _ _ Hpass) as (-> & H6 & Hid).
  pose proof (at_stage_enter _ _ _ SEventCheck H6 eq_refl) as (Hs7 & He7 & Hp7).
  assert (HsW7 : stages W7 = stages w ++ take 7 order) by exact Hs7.
  assert (HeW7 : emitted W7 = emitted w) by exact He7.
  split.
  - intros data Hpost Hsucc frame. split; [|split; [|exact HsW7]].
    + unfold fromEventCheck. rewrite bind_enter. unfold bind at 1.
      unfold eventCheck. rewrite Hurl.
      unfold tryCatch, bind, post, bind, logCall. cbn beta iota zeta.
      rewrite Hpost. unfold ret at 1. cbn beta iota. rewrite Hsucc.
      cbn [negb]. unfold emit, ret. rewrite Hid. reflexivity.
    + unfold set_emitted; cbn [emitted]. rewrite HeW7. reflexivity.
  - intros Hpost. split; [|split; assumption].
    unfold fromEventCheck. rewrite bind_enter. unfold bind at 1.
    unfold eventCheck. rewrite Hurl.
    unfold tryCatch, bind, post, bind, logCall. cbn beta iota zeta.
    rewrite Hpost. reflexivity.
Qed.

(** The call of the event-callback block, if the webhook is configured. *)
Definition callbackCalls (env : Env) (ev : Event) : list Call :=
  match webhookAddress (settings env) eventCallbacks ep_eventCallback with
  | Some url => [HttpPost url (BodyEvent ev)]
  | None => []
  end.

Lemma eventCallback_runs env ev W :
  eventCallback env ev W = (Ok tt, logged (callbackCalls env ev) W).
Proof.
  unfold eventCallback, callbackCalls.
  destruct (webhookAddress _ _ _) as [url|]; [|rewrite logged_nil; reflexivity].
  unfold tryCatch, bind, post, bind, logCall. cbn beta iota zeta.
  destruct (httpPost env url (BodyEvent ev)) as [|[data|]]; reflexivity.
Qed.

Lemma eventCheck_keeps_tables env ev W r W' :
  eventCheck env ev W = (r, W') -> users W' = users W /\ cache W' = cache W.
Proof.
  unfold eventCheck. destruct (webhookAddress _ _ _) as [url|];
    [|intros [= <- <-]; auto].
  unfold tryCatch, bind, post, bind, logCall. cbn beta iota zeta.
  destruct (httpPost env url (BodyEvent ev)) as [|[data|]];
    try (intros [= <- <-]; auto).
  unfold ret at 1. cbn beta iota. destruct (success data); intros [= <- <-]; auto.
Qed.

Lemma fromEventCheck_passed env ev W6 W7 :
  eventCheck env ev (entered [SEventCheck] W6) = (Ok false, W7) ->
  fromEventCheck env ev W6
  = match strategyFactory env ev with
    | None => reject ev "error: event not supported"
    | Some strategy => fromStrategy env ev strategy
    end (entered [SStrategyResolution] W7).
Proof.
  intros Hcheck. unfold fromEventCheck. rewrite bind_enter. unfold bind at 1.
  rewrite Hcheck, bind_enter. reflexivity.
Qed.

Lemma passed_frames env message w ev W6 W7 :
  passesAdmission env message w ev W6 ->
  eventCheck env ev (entered [SEventCheck] W6) = (Ok false, W7) ->
  emitted W7 = emitted w /\ stored W7 = stored w
  /\ stages W7 = stages w ++ take 7 order.
Proof.
  intros Hpass Hcheck.
  destruct (handleMessage_passes _ _ _ _ _ Hpass) as (_ & H6 & _).
  pose proof (at_stage_enter _ _ _ SEventCheck H6 eq_refl) as (Hs7 & He7 & Hp7).
  pose proof (eventCheck_outcomes env ev (entered [SEventCheck] W6)) as Hout.
  rewrite Hcheck in Hout. destruct Hout as (He & Hs & Hp).
  repeat split; congruence.
Qed.

(** The publication-fee block with the first publication schedule
    enabled: the call of the missing method raises, in the world the
    block started in. *)
Lemma publicationFee_raises env ev W fs pub :
  payments (settings env) ≫= feeSchedules = Some fs ->
  head (publication fs) = Some pub ->
  enabled pub = true ->
  publicationFee env ev W = (Throw TypeError, W).
Proof.
  intros Hfs Hpub Hen. unfold publicationFee. rewrite Hfs.
  destruct (publication fs) as [|pub' ?]; [discriminate|]. injection Hpub as ->.
  unfold bind, first, ret. rewrite Hen. reflexivity.
Qed.

(** C5, where the code departs from it. Let the first six stages and
    the event check pass and a strategy be resolved, with the first
    publication schedule enabled. The handler then calls
    [updateUserBalance] on the repository, which has no method of that
    name, and the run ends there with a [TypeError]: the stages entered
    are the first nine, no call follows those of the event check, the
    users table is the one the admission stage left, so no balance is
    decremented, the strategy is not executed and nothing is persisted,
    and no frame is written to the client, whether the strategy would
    have thrown or not. *)
Theorem publication_fee_call_raises
    (env : Env) (message : IncomingEventMessage) (w : World) (ev : Event)
    (W6 W7 : World) (strategy : Event -> StrategyRun)
    (fs : FeeSchedules) (pub : FeeSchedule) :
  passesAdmission env message w ev W6 ->
  eventCheck env ev (entered [SEventCheck] W6) = (Ok false, W7) ->
  strategyFactory env ev = Some strategy ->
  payments (settings env) ≫= feeSchedules = Some fs ->
  head (publication fs) = Some pub ->
  enabled pub = true ->
  exists w',
    handleMessage env message w = (Throw TypeError, w')
    /\ stages w' = stages w ++ take 9 order
    /\ calls w' = calls W7
    /\ users w' = users W6
    /\ stored w' = stored w
    /\ emitted w' = emitted w.
Proof.
  intros Hpass Hcheck Hstrategy Hfs Hpub Hen.
  destruct (handleMessage_passes _ _ _ _ _ Hpass) as (-> & _ & _).
  destruct (passed_frames _ _ _ _ _ _ Hpass Hcheck) as (He7 & Hp7 & Hs7).
  destruct (eventCheck_keeps_tables _ _ _ _ _ Hcheck) as (Hu7 & _).
  rewrite (fromEventCheck_passed _ _ _ _ Hcheck), Hstrategy. unfold fromStrategy.
  rewrite bind_enter, entered_entered. cbn [app]. unfold bind at 1.
  rewrite (publicationFee_raises _ _ _ _ _ Hfs Hpub Hen).
  eexists. split; [reflexivity|].
  unfold entered. autorewrite with world.
  rewrite Hs7, <- app_assoc. repeat split; assumption.
Qed.

(** *** The pipeline as an ordered list of stages *)

(** The event as submitted, with the context of its message, and as the
    stages after the expiration metadata see it. *)
Definition submitted (message : IncomingEventMessage) : Event :=
  setContext (msg_event message) (msg_context message).
Definition seen (message : IncomingEventMessage) : Event :=
  addExpirationMetadata (submitted message).

Lemma id_seen message : id (seen message) = id (msg_event message).
Proof. unfold seen. rewrite id_addExpirationMetadata. reflexivity. Qed.

Lemma Some_truthy (r : string) : (exists c s, r = String c s) -> truthy (Some r) = true.
Proof. intros (c & s & ->). reflexivity. Qed.

(** Every reason of [canAcceptEvent] is a non-empty string, so that the
    test [if (reason)] of the handler sees every refusal. *)
Lemma canAcceptEvent_reason_truthy s now e r :
  Policy.canAcceptEvent s now e = Some r -> truthy (Some r) = true.
Proof.
  unfold Policy.canAcceptEvent.
  set (limits := default noEventLimits (limits_event s)).
  assert (Hcontent : forall r0, Policy.contentCheck limits e = Some r0 ->
                                exists c s0, r0 = String c s0).
  { unfold Policy.contentCheck. intros r0.
    destruct (content limits) as [|c|cs]; [discriminate| |].
    - destruct (Policy.contentTooLong e c); [|discriminate].
      intros [= <-]. unfold Policy.contentReason. cbn [String.append]. eauto.
    - induction cs as [|c cs IH]; [discriminate|]. cbn [Policy.contentLoop].
      destruct (Policy.contentTooLong e c); [|exact IH].
      intros [= <-]. unfold Policy.contentReason. cbn [String.append]. eauto. }
  intros H. apply Some_truthy.
  destruct (Policy.contentCheck limits e) as [r0|] eqn:E0.
  { injection H as <-. eauto. }
  repeat match type of H with
         | match ?c with Some _ => _ | None => _ end = Some r =>
             let E := fresh "E" in destruct c eqn:E; [injection H as ->|]
         end;
    match goal with
    | E : _ = Some r |- _ => revert E
    | _ => revert H
    end;
    unfold Policy.futureSkew, Policy.pastSkew, Policy.eventIdPow, Policy.pubkeyPow,
      Policy.pubkeyWhitelist, Policy.pubkeyBlacklist, Policy.kindWhitelist,
      Policy.kindBlacklist, Policy.futureReason, Policy.pastReason, Policy.powReason,
      Policy.pubkeyPowReason, Policy.pubkeyReason, Policy.kindReason;
    repeat match goal with
           | |- context [match ?x with _ => _ end] => destruct x; try discriminate
           end;
    intros [= <-]; cbn [String.append]; eauto.
Qed.

(** The only reasons [isUserAdmitted] gives. *)
Lemma isUserAdmitted_reasons env e w why w' :
  isUserAdmitted env e w = (Ok (Some why), w') ->
  why = "blocked: pubkey not admitted" \/ why = "blocked: insufficient balance".
Proof.
  unfold isUserAdmitted, bind, ret, first, throw. intros H.
  repeat match type of H with
         | context [match ?x with _ => _ end] => destruct x eqn:?; try discriminate
         end;
    injection H as <- _; auto.
Qed.

(** What a stage decides: the run goes on to the next stage with an
    event, or the stage refuses the event with a reason. *)
Inductive Verdict : Type :=
  | Pass (event : Event)
  | Refuse (why : option string).

Definition verdict (event : Event) (reason : option string) : Verdict :=
  match reason with
  | Some why => Refuse (Some why)
  | None => Pass event
  end.

(** The event-check stage: passed when the webhook is not configured or
    answers [success]; refused with the reason of the response when it
    answers [success = false]; an error when the call fails or the
    response has no data. *)
Definition checkStage (env : Env) (event : Event) : M Verdict :=
  match webhookAddress (settings env) eventChecks ep_eventCheck with
  | None => ret (Pass event)
  | Some url =>
      response <- post env url (BodyEvent event) ;;
      match response with
      | None => throw TypeError
      | Some data => ret (if success data then Pass event else Refuse (reason data))
      end
  end.

(** What each stage does to the event it is given. A strategy that
    throws refuses the event with ["error: unable to process event"]. *)
Definition stage (env : Env) (s : Stage) (event : Event) : M Verdict :=
  match s with
  | SValidity => ret (verdict event (validity env event))
  | SExpiration =>
      ret (if isExpiredEvent (nowSeconds env) event
           then Refuse (Some "event is expired") else Pass event)
  | SExpirationMetadata => ret (Pass (addExpirationMetadata event))
  | SRateLimit =>
      limited <- isRateLimited env event ;;
      ret (if limited then Refuse (Some "rate-limited: slow down") else Pass event)
  | SPolicy =>
      ret (verdict event (Policy.canAcceptEvent (settings env) (nowSeconds env) event))
  | SAdmission =>
      reason <- isUserAdmitted env event ;;
      ret (verdict event reason)
  | SEventCheck => checkStage env event
  | SStrategyResolution =>
      ret (match strategyFactory env event with
           | Some _ => Pass event
           | None => Refuse (Some "error: event not supported")
           end)
  | SPublicationFee => publicationFee env event ;;; ret (Pass event)
  | SStrategyExecution =>
      match strategyFactory env event with
      | Some strategy =>
          tryCatch (execute strategy event ;;; ret (Pass event))
                   (fun _ => ret (Refuse (Some "error: unable to process event")))
      | None => ret (Pass event)
      end
  | SEventCallback => eventCallback env event ;;; ret (Pass event)
  end.

(** The stages [ss] run one after the other: each is entered and run on
    the event the earlier ones passed on; the first one that refuses
    writes the one frame [["OK", event.id, false, why]] and ends the run,
    and the first one that raises ends the run with its error and
    without a frame; no later stage is entered in either case. The
    result is the stage that refused, if any. *)
Fixpoint run (env : Env) (ss : list Stage) (event : Event) : M (option Stage) :=
  match ss with
  | [] => ret None
  | s :: rest =>
      enter s ;;;
      decision <- stage env s event ;;
      match decision with
      | Pass event' => run env rest event'
      | Refuse why => emit (createCommandResult (id event) false why) ;;; ret (Some s)
      end
  end.

(** The handler did what the run of the stages prescribes: it raised
    the same error or returned, in the same world. Only when the run
    ended with the refusal of a strategy that threw may the handler
    have entered further stages and made further calls, everything
    else being the same. *)
Definition follows (actual : Res unit * World) (prescribed : Res (option Stage) * World)
    : Prop :=
  match prescribed with
  | (Ok (Some SStrategyExecution), W) =>
      exists laterStages laterCalls,
        actual = (Ok tt, entered laterStages (logged laterCalls W))
  | (Ok _, W) => actual = (Ok tt, W)
  | (Throw err, W) => actual = (Throw err, W)
  end.

Lemma run_step env s rest ev W :
  run env (s :: rest) ev W
  = match stage env s ev (entered [s] W) with
    | (Ok (Pass ev'), W') => run env rest ev' W'
    | (Ok (Refuse why), W') =>
        (Ok (Some s),
         set_emitted (fun fs => fs ++ [createCommandResult (id ev) false why]) W')
    | (Throw err, W') => (Throw err, W')
    end.
Proof.
  cbn [run]. rewrite bind_enter. unfold bind.
  destruct (stage env s ev _) as [[[ev'|why]|err] W']; reflexivity.
Qed.

Lemma stage_bind {A} (m : M A) (v : A -> Verdict) W :
  (a <- m ;; ret (v a)) W
  = match m W with
    | (Ok a, W') => (Ok (v a), W')
    | (Throw err, W') => (Throw err, W')
    end.
Proof. unfold bind. destruct (m W) as [[a|err] W']; reflexivity. Qed.

Lemma execute_runs strategy e W :
  execute strategy e W
  = (if run_throws (strategy e) then Throw StrategyError else Ok tt,
     set_stored (fun es => es ++ run_stores (strategy e))
       (set_emitted (fun fs => fs ++ run_emits (strategy e))
          (logged [StrategyExecute e] W))).
Proof. reflexivity. Qed.

(** Both sides have been run to their end. *)
Local Ltac followed := unfold follows, reject, emit, ret, throw; reflexivity.

Lemma fromStrategy_follows env ev strategy W8 :
  strategyFactory env ev = Some strategy ->
  follows (fromStrategy env ev strategy W8)
    (run env [SPublicationFee; SStrategyExecution; SEventCallback] ev W8).
Proof.
  intros Hsf. unfold fromStrategy.
  rewrite bind_enter, run_step. cbn [stage]. rewrite stage_bind. unfold bind at 1.
  destruct (publicationFee env ev _) as [[[]|err] W9]; [|followed].
  rewrite bind_enter, run_step. cbn [stage]. rewrite Hsf.
  unfold bind at 1, tryCatch. rewrite stage_bind, !execute_runs.
  destruct (run_throws (strategy ev)) eqn:Hthrows.
  - (* the strategy throws *)
    unfold reject, emit, ret. rewrite bind_enter, eventCallback_runs.
    exists [SEventCallback], (callbackCalls env ev). reflexivity.
  - rewrite bind_enter, eventCallback_runs.
    rewrite run_step. cbn [stage]. rewrite stage_bind, eventCallback_runs.
    cbn [run]. followed.
Qed.

Lemma fromResolution_follows env ev W7 :
  follows
    ((enter SStrategyResolution ;;;
      match strategyFactory env ev with
      | None => reject ev "error: event not supported"
      | Some strategy => fromStrategy env ev strategy
      end) W7)
    (run env (drop 7 order) ev W7).
Proof.
  cbn [drop order]. rewrite bind_enter, run_step. cbn [stage].
  destruct (strategyFactory env ev) as [strategy|] eqn:Hsf.
  - unfold ret at 1. apply fromStrategy_follows, Hsf.
  - followed.
Qed.

Lemma fromEventCheck_follows env ev W6 :
  follows (fromEventCheck env ev W6) (run env (drop 6 order) ev W6).
Proof.
  pose proof (fromResolution_follows env ev) as Hrest.
  cbn [drop order] in *.
  unfold fromEventCheck. rewrite bind_enter, run_step. cbn [stage].
  unfold bind at 1, eventCheck, checkStage.
  destruct (webhookAddress _ _ _) as [url|]; [|unfold ret at 1 2; apply Hrest].
  unfold tryCatch. rewrite !bind_run. unfold post. rewrite !bind_run.
  unfold logCall at 1 2.
  destruct (httpPost env url (BodyEvent ev)) as [|[data|]];
    unfold throw, ret; try followed.
  destruct (success data); cbn [negb]; [apply Hrest|].
  unfold emit. rewrite bind_run. followed.
Qed.

(** C1, as the code has it. [handleMessage] runs the stages validity,
    expiration, expiration metadata, rate limiting, policy, admission,
    event check, strategy resolution, publication fee, strategy
    execution and event callback in this order, each on the event and in
    the world the earlier ones left. The first stage that refuses the
    event writes the one frame [["OK", event.id, false, reason]], and
    the first stage that raises ends the run with its error and without
    a frame. When the run ends by an error, or by the refusal of a stage
    other than strategy execution, the handler ends with it in the world
    of that stage: no later stage is entered, no call is made and
    nothing else changes; and when no stage refuses or raises the
    handler returns in the world the last stage left. When the run ends
    by the refusal of a strategy that threw, with the one frame
    ["error: unable to process event"], the handler returns, and what it
    may still have done is to enter stages and make calls: the frames,
    the limiter, the cache, the users table and the persisted events are
    those of the run. *)
Theorem handleMessage_runs_stages_in_order (env : Env) (message : IncomingEventMessage)
    (w : World) :
  match run env order (submitted message) w with
  | (Ok (Some SStrategyExecution), W) =>
      exists laterStages laterCalls,
        handleMessage env message w = (Ok tt, entered laterStages (logged laterCalls W))
  | (Ok _, W) => handleMessage env message w = (Ok tt, W)
  | (Throw err, W) => handleMessage env message w = (Throw err, W)
  end.
Proof.
  change (follows (handleMessage env message w) (run env order (submitted message) w)).
  rewrite handleMessage_tail. cbv zeta. unfold order.
  fold (submitted message). fold (seen message).
  (* validity *)
  rewrite bind_enter, run_step. cbn [stage]. unfold bind at 1.
  rewrite isEventValid_pure. unfold ret at 1.
  destruct (validity env (submitted message)) as [why|] eqn:Hvalid.
  { assert (Ht : truthy (Some why) = true).
    { revert Hvalid. unfold validity.
      repeat match goal with |- context [if ?c then _ else _] => destruct c end;
        intros [= <-]; reflexivity. }
    rewrite Ht. cbn [verdict default]. followed. }
  cbn [verdict truthy].
  (* expiration *)
  rewrite bind_enter, run_step. cbn [stage]. unfold ret at 1.
  destruct (isExpiredEvent (nowSeconds env) (submitted message)); [followed|].
  (* expiration metadata, rate limiting *)
  rewrite bind_enter, run_step. cbn [stage]. unfold ret at 1.
  fold (seen message).
  rewrite bind_enter, run_step. cbn [stage]. rewrite stage_bind. unfold bind at 1.
  destruct (isRateLimited env (seen message) _) as [[limited|err] W4]; [|followed].
  destruct limited; [followed|].
  (* policy *)
  rewrite bind_enter, run_step. cbn [stage]. unfold ret at 1.
  destruct (Policy.canAcceptEvent (settings env) (nowSeconds env) (seen message))
    as [why|] eqn:Hpolicy.
  { rewrite (canAcceptEvent_reason_truthy _ _ _ _ Hpolicy).
    cbn [verdict default]. followed. }
  cbn [verdict truthy].
  (* admission *)
  rewrite bind_enter, run_step. cbn [stage]. rewrite stage_bind. unfold bind at 1.
  destruct (isUserAdmitted env (seen message) _) as [[[why|]|err] W6] eqn:Hadm;
    [| |followed].
  { assert (Ht : truthy (Some why) = true)
      by (destruct (isUserAdmitted_reasons _ _ _ _ _ Hadm) as [-> | ->]; reflexivity).
    rewrite Ht. cbn [verdict default]. followed. }
  cbn [verdict truthy].
  apply fromEventCheck_follows.
Qed.

(** *** Concrete relays *)

Import UserRequestSpec AdmissionSpec.

Definition hookEndpoints : WebhookEndpoints :=
  {| baseURL := "http://hook"; ep_pubkeyCheck := Some "/pubkey";
     ep_eventCheck := Some "/check"; ep_eventCallback := Some "/callback";
     ep_topUps := Some "/topup" |}.

(** A relay without limits or payments whose event-check webhook is
    enabled. *)
Definition checkingSettings : Settings :=
  {| payments := None; limits_event := None;
     webhooks := Some {| pubkeyChecks := false; topUps := false; eventChecks := true;
                         eventCallbacks := false; endpoints := Some hookEndpoints |} |}.

Definition vetoData : ResponseData :=
  {| success := false; reason := Some "blocked: not wanted here";
     rd_isAdmitted := false; rd_balance := None; rd_createdAt := 0; rd_updatedAt := 0 |}.

Definition relay (s : Settings) (answer : PostResult) (run : StrategyRun) : Env :=
  {| settings := s; repoSettings := s;
     VIDA_API_KEY := Some "token"; clientAddress := "10.0.0.1";
     nowMs := 1700000000000;
     isEventIdValid := fun _ => true; isEventSignatureValid := fun _ => true;
     httpPost := fun _ _ => answer;
     strategyFactory := fun _ => Some (fun _ => run) |}.

Definition vetoEnv : Env := relay checkingSettings (PostReturns (Some vetoData)) noStrategyRun.
Definition failEnv : Env := relay checkingSettings PostThrows noStrategyRun.

Definition noteMessage : IncomingEventMessage :=
  {| msg_event := note; msg_context := Some "10.0.0.1" |}.

(** [note] as the later stages see it. *)
Definition noteSeen : Event := setContext note (Some "10.0.0.1").

Lemma checking_passesAdmission answer run :
  passesAdmission (relay checkingSettings answer run) noteMessage emptyWorld noteSeen
    (entered (take 6 order) emptyWorld).
Proof.
  unfold passesAdmission. cbv zeta. repeat split.
  exists (entered (take 4 order) emptyWorld), None. repeat split.
Qed.

Lemma eventCheck_veto_or_failure_witness :
  (handleMessage vetoEnv noteMessage emptyWorld
   = (Ok tt,
      set_emitted (fun fs => fs ++ [createCommandResult "00ff" false
                                      (Some "blocked: not wanted here")])
        (logged [HttpPost "http://hook/check" (BodyEvent noteSeen)]
           (entered (take 7 order) emptyWorld))))
  /\ (handleMessage failEnv noteMessage emptyWorld
      = (Throw (TransportError "http://hook/check"),
         logged [HttpPost "http://hook/check" (BodyEvent noteSeen)]
           (entered (take 7 order) emptyWorld))).
Proof.
  split.
  - destruct (eventCheck_veto_or_failure vetoEnv noteMessage emptyWorld noteSeen
                (entered (take 6 order) emptyWorld) "http://hook/check"
                (checking_passesAdmission _ _) eq_refl) as [Hveto _].
    destruct (Hveto vetoData eq_refl eq_refl) as (Hrun & _). exact Hrun.
  - destruct (eventCheck_veto_or_failure failEnv noteMessage emptyWorld noteSeen
                (entered (take 6 order) emptyWorld) "http://hook/check"
                (checking_passesAdmission _ _) eq_refl) as [_ Hfail].
    destruct (Hfail eq_refl) as (Hrun & _). exact Hrun.
Defined.

(** C1 as it is stated: a run either goes through all the stages or was
    stopped by a failing stage that wrote exactly one frame
    [["OK", event.id, false, reason]]. *)
Definition stopsWithOneFrame (env : Env) (message : IncomingEventMessage) (w : World)
    : Prop :=
  let w' := snd (handleMessage env message w) in
  stages w' = stages w ++ order
  \/ exists why, emitted w' = emitted w ++ [refusal message why].

(** The event-check stage fails in transport: the run stops there and no
    frame is written. *)
Lemma handleMessage_failure_without_frame :
  ~ stopsWithOneFrame failEnv noteMessage emptyWorld.
Proof.
  unfold stopsWithOneFrame. cbv zeta.
  intros [H | [why H]]; vm_compute in H; discriminate H.
Qed.

(** A relay that charges 100 for publication and calls back after the
    strategy, and a strategy that throws; the submitter has a balance of
    500. *)
Definition chargingSettings : Settings :=
  {| payments := Some
       {| payments_enabled := true;
          feeSchedules := Some
            {| admission := [];
               publication := [{| enabled := true; amount := 100;
                                  fee_whitelist_pubkeys := None |}];
               topUp := [] |} |};
     limits_event := None;
     webhooks := Some {| pubkeyChecks := false; topUps := false; eventChecks := false;
                         eventCallbacks := true; endpoints := Some hookEndpoints |} |}.

Definition failingRun : StrategyRun :=
  {| run_emits := []; run_stores := []; run_throws := true |}.

Definition chargingEnv : Env :=
  relay chargingSettings (PostReturns (Some successData)) failingRun.

Definition richRow : DBUser :=
  {| db_pubkey := "ab"; is_admitted := true; db_balance := 500;
     tos_accepted_at := None; updated_at := 1700000000000;
     db_created_at := 1700000000000 |}.

Definition richWorld : World := set_users (insert "ab" richRow) emptyWorld.

Lemma charging_passesAdmission :
  passesAdmission chargingEnv noteMessage richWorld noteSeen
    (entered (take 6 order) richWorld).
Proof.
  unfold passesAdmission. cbv zeta. repeat split.
  exists (entered (take 4 order) richWorld), None. repeat split.
Qed.

Lemma publication_fee_call_raises_witness :
  exists w',
    handleMessage chargingEnv noteMessage richWorld = (Throw TypeError, w')
    /\ stages w' = take 9 order
    /\ calls w' = []
    /\ db_balance <$> users w' !! "ab" = Some 500
    /\ stored w' = []
    /\ emitted w' = [].
Proof.
  destruct (publication_fee_call_raises chargingEnv noteMessage richWorld
              noteSeen (entered (take 6 order) richWorld)
              (entered (take 7 order) richWorld) (fun _ => failingRun)
              {| admission := [];
                 publication := [{| enabled := true; amount := 100;
                                    fee_whitelist_pubkeys := None |}];
                 topUp := [] |}
              {| enabled := true; amount := 100; fee_whitelist_pubkeys := None |}
              charging_passesAdmission eq_refl eq_refl eq_refl eq_refl eq_refl)
    as (w' & Hrun & Hs & Hc & Hu & Hp & He).
  exists w'. split; [exact Hrun|]. split; [exact Hs|]. split; [exact Hc|].
  split; [rewrite Hu; reflexivity|]. split; [exact Hp | exact He].
Defined.

(** A relay without payments that calls back after the strategy, and a
    strategy that throws. *)
Definition callbackSettings : Settings :=
  {| payments := None; limits_event := None;
     webhooks := Some {| pubkeyChecks := false; topUps := false; eventChecks := false;
                         eventCallbacks := true; endpoints := Some hookEndpoints |} |}.

Definition callbackEnv : Env :=
  relay callbackSettings (PostReturns (Some successData)) failingRun.

(** The callback is posted although the strategy failed: the stage after
    the failing one still runs. *)
Lemma handleMessage_callback_after_failed_strategy :
  let w' := snd (handleMessage callbackEnv noteMessage emptyWorld) in
  stages w' = order
  /\ emitted w' = [refusal noteMessage (Some "error: unable to process event")]
  /\ calls w' = [StrategyExecute noteSeen;
                 HttpPost "http://hook/callback" (BodyEvent noteSeen)].
Proof. vm_compute. repeat split. Qed.

End PipelineSpec.

(** ** The scenarios of the spec, run on the model

    All of them at the time 1 700 000 000 (seconds). *)

Module Scenarios.

Import Policy UserRepository Handler RepositorySpec UserRequestSpec AdmissionSpec
  PipelineSpec.

Definition limitsOnly (l : EventLimits) : Settings :=
  {| payments := None; limits_event := Some l; webhooks := None |}.

Definition withTags (e : Event) (ts : list (list string)) : Event :=
  {| id := id e; ev_pubkey := ev_pubkey e; created_at := created_at e;
     ev_kind := ev_kind e; tags := ts; ev_content := ev_content e; sig := sig e;
     ev_context := ev_context e; ev_expiration := ev_expiration e |}.

Definition withContent (e : Event) (k : Z) (c : string) : Event :=
  {| id := id e; ev_pubkey := ev_pubkey e; created_at := created_at e;
     ev_kind := k; tags := tags e; ev_content := c; sig := sig e;
     ev_context := ev_context e; ev_expiration := ev_expiration e |}.

Definition withCreatedAt (e : Event) (t : Z) : Event :=
  {| id := id e; ev_pubkey := ev_pubkey e; created_at := t;
     ev_kind := ev_kind e; tags := tags e; ev_content := ev_content e; sig := sig e;
     ev_context := ev_context e; ev_expiration := ev_expiration e |}.

Definition withId (e : Event) (i : string) : Event :=
  {| id := i; ev_pubkey := ev_pubkey e; created_at := created_at e;
     ev_kind := ev_kind e; tags := tags e; ev_content := ev_content e; sig := sig e;
     ev_context := ev_context e; ev_expiration := ev_expiration e |}.

Fixpoint letters (n : nat) : string :=
  match n with
  | O => EmptyString
  | S n => "a" +:+ letters n
  end.

Definition plainEnv : Env :=
  relay {| payments := None; limits_event := None; webhooks := None |}
    PostThrows noStrategyRun.

Example expired_event :
  emitted (snd (handleMessage plainEnv
                  {| msg_event := withTags note [["expiration"; "1699999999"]];
                     msg_context := None |} emptyWorld))
  = [createCommandResult "00ff" false (Some "event is expired")].
Proof. vm_compute. reflexivity. Qed.

Example future_skew :
  canAcceptEvent
    (limitsOnly {| eventId := None; pubkey := None; kind := None;
                   createdAt := Some {| maxNegativeDelta := None;
                                        maxPositiveDelta := Some 600 |};
                   content := ContentAbsent; rateLimits := None; whitelists := None |})
    1700000000 (withCreatedAt note 1700000900)
  = Some "rejected: created_at is more than 600 seconds in the future".
Proof. vm_compute. reflexivity. Qed.

Definition kindScoped : Settings :=
  limitsOnly {| eventId := None; pubkey := None; kind := None; createdAt := None;
                content := ContentSeq [{| cl_kinds := Some [KindExact 1];
                                          cl_maxLength := Some 200 |}];
                rateLimits := None; whitelists := None |}.

Example content_too_long_kind_scoped :
  canAcceptEvent kindScoped 1700000000 (withContent note 1 (letters 300))
  = Some "rejected: content is longer than 200 bytes"
  /\ canAcceptEvent kindScoped 1700000000 (withContent note 2 (letters 300)) = None.
Proof. vm_compute. split; reflexivity. Qed.

(** A later record of the sequence is evaluated when the earlier ones
    are not violated. *)
Example content_second_record :
  canAcceptEvent
    (limitsOnly {| eventId := None; pubkey := None; kind := None; createdAt := None;
                   content := ContentSeq [{| cl_kinds := Some [KindExact 7];
                                             cl_maxLength := Some 1 |};
                                          {| cl_kinds := None; cl_maxLength := Some 4 |};
                                          {| cl_kinds := None; cl_maxLength := Some 2 |}];
                   rateLimits := None; whitelists := None |})
    1700000000 note
  = Some "rejected: content is longer than 4 bytes".
Proof. vm_compute. reflexivity. Qed.

Example proof_of_work_miss :
  canAcceptEvent
    (limitsOnly {| eventId := Some {| eid_minLeadingZeroBits := Some 16 |};
                   pubkey := None; kind := None; createdAt := None;
                   content := ContentAbsent; rateLimits := None; whitelists := None |})
    1700000000 (withId note "000f3a")
  = Some "pow: difficulty 12<16".
Proof. vm_compute. reflexivity. Qed.

Example allow_and_deny_lists :
  canAcceptEvent
    (limitsOnly {| eventId := None;
                   pubkey := Some {| minBalance := None; pk_minLeadingZeroBits := None;
                                     pk_whitelist := Some ["cd"]; pk_blacklist := None |};
                   kind := None; createdAt := None; content := ContentAbsent;
                   rateLimits := None; whitelists := None |})
    1700000000 note
  = Some "blocked: pubkey not allowed"
  /\ canAcceptEvent
       (limitsOnly {| eventId := None; pubkey := None;
                      kind := Some {| kind_whitelist := None;
                                      kind_blacklist := Some [KindRange 0 5] |};
                      createdAt := None; content := ContentAbsent;
                      rateLimits := None; whitelists := None |})
       1700000000 note
     = Some "blocked: event kind 1 not allowed".
Proof. vm_compute. split; reflexivity. Qed.

(** Two rate-limit rules; six events of kind 1 in the same minute. *)
Definition twoRules : Settings :=
  limitsOnly {| eventId := None; pubkey := None; kind := None; createdAt := None;
                content := ContentAbsent;
                rateLimits := Some [{| period := 60000; rate := 5; rl_kinds := None |};
                                    {| period := 3600000; rate := 50;
                                       rl_kinds := Some [KindExact 1] |}];
                whitelists := None |}.

Definition twoRulesEnv : Env := relay twoRules PostThrows noStrategyRun.

Fixpoint submit (n : nat) (w : World) : list bool * World :=
  match n with
  | O => ([], w)
  | S n =>
      let '(bs, w1) := submit n w in
      match isRateLimited twoRulesEnv note w1 with
      | (Ok b, w2) => (bs ++ [b], w2)
      | (Throw _, w2) => (bs, w2)
      end
  end.

Example rate_limit_across_two_rules :
  fst (submit 6 emptyWorld) = [false; false; false; false; false; true]
  /\ length <$> limiter (snd (submit 6 emptyWorld)) !! "ab:events:3600000:[1]" = Some 6%nat
  /\ take 2 (calls (snd (submit 6 emptyWorld)))
     = [LimiterHit "ab:events:60000" 1 60000 5;
        LimiterHit "ab:events:3600000:[1]" 1 3600000 50].
Proof. vm_compute. repeat split. Qed.

Example rate_limit_key_of_a_range :
  hitKey note {| period := 1000; rate := 1;
                 rl_kinds := Some [KindExact 1; KindRange 10 20] |}
  = "ab:events:1000:[1,[10,20]]".
Proof. vm_compute. reflexivity. Qed.

(** Paid admission of an unknown pubkey that the webhook does not
    admit: the first submission asks the webhook and blocks the pubkey
    in the cache, the second one stops at the cache. *)
Definition admissionSettings : Settings :=
  {| payments := Some
       {| payments_enabled := true;
          feeSchedules := Some
            {| admission := [{| enabled := true; amount := 1000;
                                fee_whitelist_pubkeys := None |}];
               publication := [{| enabled := true; amount := 100;
                                  fee_whitelist_pubkeys := None |}];
               topUp := [{| enabled := true; amount := 500;
                            fee_whitelist_pubkeys := None |}] |} |};
     limits_event := None;
     webhooks := Some {| pubkeyChecks := true; topUps := true; eventChecks := false;
                         eventCallbacks := false; endpoints := Some hookEndpoints |} |}.

Definition refusingEnv : Env :=
  relay admissionSettings (PostReturns (Some vetoData)) noStrategyRun.

Definition afterFirst : World := snd (handleMessage refusingEnv noteMessage emptyWorld).
Definition afterSecond : World := snd (handleMessage refusingEnv noteMessage afterFirst).

Example cached_block :
  emitted afterFirst = [createCommandResult "00ff" false (Some "blocked: pubkey not admitted")]
  /\ calls afterFirst
     = [CacheExists "ab:is-blocked"; DbSelectUser "ab";
        HttpPost "http://hook/pubkey?token=token" (BodyPubkeyAmount "ab" 500);
        CacheSet "ab:is-blocked" "true"; CacheExpire "ab:is-blocked" 60]
  /\ cache afterFirst !! "ab:is-blocked" = Some ("true", Some 1700000060000)
  /\ calls afterSecond = calls afterFirst ++ [CacheExists "ab:is-blocked"]
  /\ emitted afterSecond
     = emitted afterFirst
       ++ [createCommandResult "00ff" false (Some "blocked: pubkey not admitted")].
Proof. vm_compute. repeat split. Qed.

(** An unknown pubkey that the webhook admits with a balance of 700 is
    stored with the three dates of the lookup. *)
Definition admitData : ResponseData :=
  {| success := true; reason := None; rd_isAdmitted := true; rd_balance := Some 700;
     rd_createdAt := 1675727291; rd_updatedAt := 1675727387 |}.

Example webhook_admission :
  let '(r, w') := findByPubkey (relay admissionSettings (PostReturns (Some admitData))
                                  noStrategyRun) "ab" emptyWorld in
  r = Ok (Some {| u_pubkey := "ab"; isAdmitted := true; balance := 700;
                  u_createdAt := 1675727291; updatedAt := 1675727387;
                  tosAcceptedAt := None |})
  /\ users w' !! "ab"
     = Some {| db_pubkey := "ab"; is_admitted := true; db_balance := 700;
               tos_accepted_at := Some 1700000000000; updated_at := 1700000000000;
               db_created_at := 1700000000000 |}
  /\ cache w' = ∅.
Proof. vm_compute. repeat split. Qed.

(** [upsert] over a stored row keeps its balance and creation date. *)
Example upsert_on_conflict :
  users (snd (upsert plainEnv {| u_pubkey := "ab"; isAdmitted := false; balance := 9;
                                 u_createdAt := 5; updatedAt := 6;
                                 tosAcceptedAt := Some 7 |}
                (set_users (insert "ab" {| db_pubkey := "ab"; is_admitted := true;
                                           db_balance := 500; tos_accepted_at := None;
                                           updated_at := 1; db_created_at := 1 |})
                   emptyWorld))) !! "ab"
  = Some {| db_pubkey := "ab"; is_admitted := false; db_balance := 500;
            tos_accepted_at := Some 7; updated_at := 1700000000000;
            db_created_at := 1 |}.
Proof. vm_compute. reflexivity. Qed.

(** Publication fee with a successful top-up: with a balance of 50, a
    top-up of 500 and a fee of 100, admission tops the balance up to
    550; the fee is then not debited, because the call of the
    publication-fee block raises, and the strategy does not run. *)
Definition toppingEnv : Env :=
  relay admissionSettings (PostReturns (Some successData)) noStrategyRun.

Definition fiftyWorld : World :=
  set_users (insert "ab" {| db_pubkey := "ab"; is_admitted := true; db_balance := 50;
                            tos_accepted_at := None; updated_at := 1;
                            db_created_at := 1 |}) emptyWorld.

Example publication_fee_with_top_up :
  let '(r, w') := handleMessage toppingEnv noteMessage fiftyWorld in
  r = Throw TypeError
  /\ db_balance <$> users w' !! "ab" = Some 550
  /\ stages w' = take 9 order
  /\ emitted w' = [].
Proof. vm_compute. repeat split. Qed.

(** The endpoint on a user with a balance, on an unknown user, and
    without a token. *)
Example user_endpoint :
  fst (UserRequest.userRequestHandler (Some "secret") zeroBalanceRequest richWorld)
  = Ok {| UserRequest.status := 200;
          UserRequest.body := UserRequest.Json (UserRequest.Finite 500) |}
  /\ fst (UserRequest.userRequestHandler (Some "secret") zeroBalanceRequest emptyWorld)
     = Ok {| UserRequest.status := 404;
             UserRequest.body := UserRequest.Send "Pubkey not found" |}
  /\ fst (UserRequest.userRequestHandler (Some "secret")
            {| UserRequest.query_token := None;
               UserRequest.query_pubkey := Some "ab" |} richWorld)
     = Ok {| UserRequest.status := 403;
             UserRequest.body := UserRequest.Send "Unauthorized" |}.
Proof. vm_compute. repeat split. Qed.

End Scenarios.

(** * Further properties of the code *)

(** ** The repository: balances, top-up, repeated lookups *)

Module RepositoryMore.

Import UserRepository RepositorySpec UserRequestSpec.

Lemma incrementUserBalance_runs pk amt w :
  incrementUserBalance pk amt w
  = (Ok tt, set_users (alter (addBalance amt) pk) (logged [DbUpdateBalance pk amt] w)).
Proof. reflexivity. Qed.

Lemma decrementUserBalance_runs pk amt w :
  decrementUserBalance pk amt w
  = (Ok tt,
     set_users (alter (addBalance (- amt)) pk) (logged [DbUpdateBalance pk (- amt)] w)).
Proof. reflexivity. Qed.

Lemma addBalance_back amt d : addBalance (- amt) (addBalance amt d) = d.
Proof.
  destruct d. unfold addBalance. simpl. f_equal. lia.
Qed.

(** X1. [upsert] followed by [getBalanceByPubkey]: a pubkey that was
    not stored gets the balance of the upserted user; a pubkey that was
    stored keeps the balance it had, whatever balance the upserted user
    carries. The rows of the other pubkeys are untouched. *)
Theorem upsert_then_getBalanceByPubkey (env : Env) (user : User) (w : World) :
  exists w1 w2,
    upsert env user w = (Ok 1, w1)
    /\ getBalanceByPubkey (u_pubkey user) w1
       = (Ok match users w !! u_pubkey user with
             | Some old => db_balance old
             | None => balance user
             end, w2)
    /\ forall pk, pk <> u_pubkey user -> users w1 !! pk = users w !! pk.
Proof.
  rewrite upsert_runs, set_users_insertOnConflictMerge.
  change (db_pubkey (userRow (nowMs env) user)) with (u_pubkey user).
  change (users (logged _ w)) with (users w).
  destruct (users w !! u_pubkey user) as [old|];
    (eexists; eexists; split; [reflexivity|]; split;
     [ rewrite getBalanceByPubkey_runs; autorewrite with world;
       rewrite lookup_insert_eq; reflexivity
     | intros pk Hpk; autorewrite with world; unfold logged; autorewrite with world;
       rewrite lookup_insert_ne by congruence; reflexivity ]).
Qed.

(** X2. [incrementUserBalance] followed by [decrementUserBalance] with
    the same amount gives back the users table as it was. The increment
    itself adds the amount to the row of the pubkey when there is one,
    creates no row when there is none, and leaves every other row
    alone. *)
Theorem increment_then_decrement_restores (pk : string) (amt : Z) (w : World) :
  exists w1 w2,
    incrementUserBalance pk amt w = (Ok tt, w1)
    /\ decrementUserBalance pk amt w1 = (Ok tt, w2)
    /\ users w2 = users w
    /\ users w1 !! pk = addBalance amt <$> users w !! pk
    /\ forall pk', pk' <> pk -> users w1 !! pk' = users w !! pk'.
Proof.
  rewrite incrementUserBalance_runs. eexists. eexists.
  split; [reflexivity|]. rewrite decrementUserBalance_runs.
  split; [reflexivity|]. unfold logged. autorewrite with world.
  split; [|split].
  - rewrite alter_alter_eq. apply alter_id. intros d _. apply addBalance_back.
  - apply lookup_alter_eq.
  - intros pk' Hpk. apply lookup_alter_ne. congruence.
Qed.

(** X3. [decrementUserBalance] has no floor: the balance read back by
    [getBalanceByPubkey] is the stored balance minus the amount, also
    when that is negative; for a pubkey without a row it reads 0 and no
    row is created. *)
Theorem decrement_then_getBalanceByPubkey (pk : string) (amt : Z) (w : World) :
  exists w1 w2,
    decrementUserBalance pk amt w = (Ok tt, w1)
    /\ getBalanceByPubkey pk w1
       = (Ok match users w !! pk with
             | Some d => db_balance d - amt
             | None => 0
             end, w2)
    /\ (users w !! pk = None -> users w1 = users w).
Proof.
  rewrite decrementUserBalance_runs.
  assert (Hread : forall w1,
             users w1 = alter (addBalance (- amt)) pk (users w) ->
             getBalanceByPubkey pk w1
             = (Ok match users w !! pk with
                   | Some d => db_balance d - amt
                   | None => 0
                   end, logged [DbSelectBalance pk] w1)).
  { intros w1 Hw1. rewrite getBalanceByPubkey_runs, Hw1, lookup_alter_eq.
    destruct (users w !! pk) as [d|]; simpl; [|reflexivity].
    replace (db_balance d + - amt) with (db_balance d - amt) by lia. reflexivity. }
  eexists. eexists. split; [reflexivity|]. split.
  - apply Hread. reflexivity.
  - intros Hnone. unfold logged. autorewrite with world. apply alter_id'. exact Hnone.
Qed.

(** The address of the top-up webhook, when the webhook is configured
    and the API token is set. *)
Definition topUpUrl (env : Env) : option string :=
  match webhookAddress (repoSettings env) topUps ep_topUps with
  | Some address =>
      if truthy (VIDA_API_KEY env)
      then Some (address +:+ "?token=" +:+ default "" (VIDA_API_KEY env))
      else None
  | None => None
  end.

Lemma topUpPubkey_runs env pk w :
  topUpPubkey env pk w
  = match topUpUrl env with
    | None => (Ok false, w)
    | Some url =>
        match topUpAmountOf (repoSettings env) with
        | None => (Throw TypeError, w)
        | Some amt =>
            let asked := HttpPost url (BodyPubkeyAmount pk amt) in
            match httpPost env url (BodyPubkeyAmount pk amt) with
            | PostThrows => (Throw (TransportError url), logged [asked] w)
            | PostReturns (Some data) =>
                if success data
                then (Ok true,
                      set_users (alter (addBalance amt) pk)
                        (logged [asked; DbUpdateBalance pk amt] w))
                else (Ok false, logged [asked] w)
            | PostReturns None => (Ok false, logged [asked] w)
            end
        end
    end.
Proof.
  unfold topUpPubkey, topUpUrl.
  destruct (webhookAddress _ _ _) as [address|]; [|reflexivity].
  destruct (truthy (VIDA_API_KEY env)); [|reflexivity]. cbn [negb].
  unfold bind at 1. rewrite topUpAmount_pure.
  destruct (topUpAmountOf (repoSettings env)) as [amt|]; [|reflexivity].
  unfold tryCatch, bind, post, bind, logCall. cbn beta iota zeta.
  destruct (httpPost env _ _) as [|[data|]]; try reflexivity.
  unfold ret at 1. cbn beta iota. destruct (success data); [|reflexivity].
  rewrite incrementUserBalance_runs. unfold ret, logged.
  unfold set_users at 1 2, set_calls; cbn [emitted limiter cache users stored calls stages].
  rewrite <- app_assoc. reflexivity.
Qed.

(** X4. [topUpPubkey] credits the balance only when it answers true:
    it answers true exactly after a response of the top-up webhook with
    [success], and then the users table is the old one with
    [topUp[0].amount] added to the row of the pubkey; in every other
    outcome (not configured, no API token, a response without success,
    a raised error) the users table is the one it started with. It
    never touches the cache and writes no frame. *)
Theorem topUpPubkey_credits_only_on_success
    (env : Env) (pk : string) (w : World) (r : Res bool) (w' : World) :
  topUpPubkey env pk w = (r, w') ->
  cache w' = cache w /\ emitted w' = emitted w
  /\ match r with
     | Ok true =>
         exists url amt data,
           topUpUrl env = Some url
           /\ topUpAmountOf (repoSettings env) = Some amt
           /\ httpPost env url (BodyPubkeyAmount pk amt) = PostReturns (Some data)
           /\ success data = true
           /\ users w' = alter (addBalance amt) pk (users w)
     | _ => users w' = users w
     end.
Proof.
  rewrite topUpPubkey_runs.
  destruct (topUpUrl env) as [url|]; [|intros [= <- <-]; auto].
  destruct (topUpAmountOf (repoSettings env)) as [amt|]; [|intros [= <- <-]; auto].
  cbv zeta.
  destruct (httpPost env url (BodyPubkeyAmount pk amt)) as [|[data|]] eqn:Hpost;
    try (intros [= <- <-]; auto).
  destruct (success data) eqn:Hs; intros [= <- <-]; [|auto].
  split; [reflexivity|]. split; [reflexivity|].
  exists url, amt, data. auto.
Qed.

Lemma topUpPubkey_witness :
  let w' := snd (topUpPubkey AdmissionSpec.paidEnv "ab" zeroBalanceWorld) in
  cache w' = cache zeroBalanceWorld /\ emitted w' = emitted zeroBalanceWorld
  /\ exists url amt data,
      topUpUrl AdmissionSpec.paidEnv = Some url
      /\ topUpAmountOf (repoSettings AdmissionSpec.paidEnv) = Some amt
      /\ httpPost AdmissionSpec.paidEnv url (BodyPubkeyAmount "ab" amt)
         = PostReturns (Some data)
      /\ success data = true
      /\ users w' = alter (addBalance amt) "ab" (users zeroBalanceWorld).
Proof.
  exact (topUpPubkey_credits_only_on_success AdmissionSpec.paidEnv "ab"
           zeroBalanceWorld (Ok true)
           (snd (topUpPubkey AdmissionSpec.paidEnv "ab" zeroBalanceWorld)) eq_refl).
Defined.

Lemma findByPubkey_fetch_raises env pk w err w1 :
  cache w !! (pk +:+ ":is-blocked") = None ->
  users w !! pk = None ->
  fetchUserByWebhook env pk
    (logged [CacheExists (pk +:+ ":is-blocked"); DbSelectUser pk] w) = (Throw err, w1) ->
  findByPubkey env pk w = (Throw err, w1).
Proof.
  intros Hc Hu Hfetch. rewrite (findByPubkey_missing _ _ _ Hc Hu), Hfetch. reflexivity.
Qed.

(** X5. A lookup that fails leaves no trace. When the pubkey is neither
    blocked in the cache nor stored, and the pubkey-check webhook fails
    in transport, or answers [isAdmitted] without a balance,
    [findByPubkey] raises (the transport failure, respectively a
    [TypeError]); the cache and the users table are as before, so the
    pubkey is neither blocked nor stored. *)
Theorem findByPubkey_failure_leaves_no_trace
    (env : Env) (pk : string) (w : World) (url : string) (amt : Z) :
  cache w !! (pk +:+ ":is-blocked") = None ->
  users w !! pk = None ->
  pubkeyCheckUrl env = Some url ->
  topUpAmountOf (repoSettings env) = Some amt ->
  let asked := [CacheExists (pk +:+ ":is-blocked"); DbSelectUser pk;
                HttpPost url (BodyPubkeyAmount pk amt)] in
  (httpPost env url (BodyPubkeyAmount pk amt) = PostThrows ->
   findByPubkey env pk w = (Throw (TransportError url), logged asked w))
  /\ (forall data,
      httpPost env url (BodyPubkeyAmount pk amt) = PostReturns (Some data) ->
      rd_isAdmitted data = true ->
      rd_balance data = None ->
      findByPubkey env pk w = (Throw TypeError, logged asked w)).
Proof.
  intros Hc Hu Hurl Hamt asked.
  assert (Hfetch : forall W,
             fetchUserByWebhook env pk W
             = tryCatch
                 (response <- post env url (BodyPubkeyAmount pk amt) ;;
                  match response with
                  | Some data =>
                      if rd_isAdmitted data then
                        match rd_balance data with
                        | Some b =>
                            ret (Some {| u_pubkey := pk;
                                         isAdmitted := rd_isAdmitted data;
                                         balance := b;
                                         u_createdAt := rd_createdAt data;
                                         updatedAt := rd_updatedAt data;
                                         tosAcceptedAt := None |})
                        | None => throw TypeError
                        end
                      else ret None
                  | None => ret None
                  end)
                 (fun e => throw e) W).
  { intros W. unfold pubkeyCheckUrl in Hurl. unfold fetchUserByWebhook.
    destruct (webhookAddress _ _ _) as [address|]; [|discriminate].
    destruct (truthy (VIDA_API_KEY env)); [|discriminate].
    injection Hurl as <-. cbn [negb].
    unfold tryCatch, bind at 1. rewrite topUpAmount_pure, Hamt. reflexivity. }
  split.
  - intros Hpost. apply findByPubkey_fetch_raises; [assumption..|].
    rewrite Hfetch. unfold tryCatch, bind, post, bind, logCall. cbn beta iota zeta.
    rewrite Hpost. unfold throw, logged. subst asked.
    unfold set_calls; cbn [emitted limiter cache users stored calls stages].
    rewrite <- app_assoc. reflexivity.
  - intros data Hpost Hadm Hbal. apply findByPubkey_fetch_raises; [assumption..|].
    rewrite Hfetch. unfold tryCatch, bind, post, bind, logCall. cbn beta iota zeta.
    rewrite Hpost. unfold ret at 1. cbn beta iota. rewrite Hadm, Hbal.
    unfold throw, logged. subst asked.
    unfold set_calls; cbn [emitted limiter cache users stored calls stages].
    rewrite <- app_assoc. reflexivity.
Qed.

Definition unreachableEnv : Env :=
  PipelineSpec.relay Scenarios.admissionSettings PostThrows AdmissionSpec.noStrategyRun.

Lemma findByPubkey_failure_witness :
  findByPubkey unreachableEnv "ab" emptyWorld
  = (Throw (TransportError "http://hook/pubkey?token=token"),
     logged [CacheExists "ab:is-blocked"; DbSelectUser "ab";
             HttpPost "http://hook/pubkey?token=token" (BodyPubkeyAmount "ab" 500)]
       emptyWorld).
Proof.
  destruct (findByPubkey_failure_leaves_no_trace unreachableEnv "ab" emptyWorld
              "http://hook/pubkey?token=token" 500 eq_refl eq_refl eq_refl eq_refl)
    as [Hfail _].
  exact (Hfail eq_refl).
Defined.

(** X6. The negative cache and its 60 seconds. After a lookup at time
    [now] that found the pubkey neither blocked nor stored and got no
    affirmative answer from the webhook, a lookup of that pubkey made
    before [now + 60000] milliseconds answers none after the cache
    lookup alone, with no datastore query and no webhook call, whatever
    the users table has become in between: a user provisioned meanwhile
    stays hidden. A lookup made at [now + 60000] or later finds the
    entry lapsed and reads the datastore again, so that such a user is
    found. *)
Theorem findByPubkey_negative_then_cached
    (env : Env) (pk : string) (w : World) (asked : list Call) :
  lapsed (nowMs env) w (pk +:+ ":is-blocked") ->
  users w !! pk = None ->
  negativeOrMissing env pk asked ->
  exists w1,
    findByPubkey env pk w = (Ok None, w1)
    /\ forall (later : Env) (table : gmap string DBUser),
        let w2 := set_users (fun _ => table) w1 in
        (nowMs later < nowMs env + 60000 ->
         findByPubkey later pk w2
         = (Ok None, logged [CacheExists (pk +:+ ":is-blocked")] w2))
        /\ (nowMs env + 60000 <= nowMs later ->
            forall d, table !! pk = Some d ->
            findByPubkey later pk w2
            = (Ok (Some (fromDBUser d)),
               logged [CacheExists (pk +:+ ":is-blocked"); DbSelectUser pk] w2)).
Proof.
  intros Hc Hu Hneg.
  rewrite (findByPubkey_unblocked_missing _ _ _ Hc Hu).
  rewrite (fetchUserByWebhook_negative _ _ _ _ Hneg).
  eexists. split; [reflexivity|].
  intros later table w2. subst w2. split.
  - intros Hlt. apply findByPubkey_blocked.
    exists "true", (Some (nowMs env + 60000)). split.
    + autorewrite with world. apply lookup_insert_eq.
    + intros t [= <-]. exact Hlt.
  - intros Hge d Hd. apply findByPubkey_unblocked_stored.
    + right. exists "true", (nowMs env + 60000). split; [|exact Hge].
      autorewrite with world. apply lookup_insert_eq.
    + autorewrite with world. exact Hd.
Qed.

Definition refusingRepoEnv : Env := Scenarios.refusingEnv.

(** The relay [env] at the time [t]. *)
Definition atTime (env : Env) (t : Z) : Env :=
  {| settings := settings env; repoSettings := repoSettings env;
     VIDA_API_KEY := VIDA_API_KEY env; clientAddress := clientAddress env;
     nowMs := t;
     isEventIdValid := isEventIdValid env;
     isEventSignatureValid := isEventSignatureValid env;
     httpPost := httpPost env; strategyFactory := strategyFactory env |}.

Lemma findByPubkey_negative_witness :
  exists w1,
    findByPubkey refusingRepoEnv "ab" emptyWorld = (Ok None, w1)
    /\ (let w2 := set_users (fun _ => {["ab" := PipelineSpec.richRow]}) w1 in
        findByPubkey (atTime refusingRepoEnv 1700000059999) "ab" w2
        = (Ok None, logged [CacheExists "ab:is-blocked"] w2)
        /\ findByPubkey (atTime refusingRepoEnv 1700000060000) "ab" w2
           = (Ok (Some (fromDBUser PipelineSpec.richRow)),
              logged [CacheExists "ab:is-blocked"; DbSelectUser "ab"] w2)).
Proof.
  destruct (findByPubkey_negative_then_cached refusingRepoEnv "ab" emptyWorld
              [HttpPost "http://hook/pubkey?token=token" (BodyPubkeyAmount "ab" 500)])
    as (w1 & Hrun & Hlater).
  - left. reflexivity.
  - reflexivity.
  - exists 500. repeat split.
  - exists w1. split; [exact Hrun|]. cbv zeta. split.
    + apply (Hlater (atTime refusingRepoEnv 1700000059999)
               {["ab" := PipelineSpec.richRow]}). reflexivity.
    + apply (Hlater (atTime refusingRepoEnv 1700000060000)
               {["ab" := PipelineSpec.richRow]}); [discriminate | reflexivity].
Defined.

(** X7. Lookup after admission. After a lookup in which the webhook
    admitted an unknown pubkey with balance [b], the next lookup finds
    the user in the datastore, after the cache lookup and one select and
    without asking the webhook again. The user it answers has the
    pubkey, is admitted and has the balance [b]; its creation, update
    and terms-acceptance dates are the time of the first lookup, not the
    dates of the webhook response. *)
Theorem findByPubkey_admitted_then_stored
    (env : Env) (pk : string) (w : World) (url : string) (amt : Z)
    (data : ResponseData) (b : Z) :
  cache w !! (pk +:+ ":is-blocked") = None ->
  users w !! pk = None ->
  pubkeyCheckUrl env = Some url ->
  topUpAmountOf (repoSettings env) = Some amt ->
  httpPost env url (BodyPubkeyAmount pk amt) = PostReturns (Some data) ->
  rd_isAdmitted data = true ->
  rd_balance data = Some b ->
  exists u w1,
    findByPubkey env pk w = (Ok (Some u), w1)
    /\ findByPubkey env pk w1
       = (Ok (Some {| u_pubkey := pk; isAdmitted := true; balance := b;
                      u_createdAt := nowMs env; updatedAt := nowMs env;
                      tosAcceptedAt := Some (nowMs env) |}),
          logged [CacheExists (pk +:+ ":is-blocked"); DbSelectUser pk] w1).
Proof.
  intros Hc Hu Hurl Hamt Hpost Hadm Hbal.
  rewrite (findByPubkey_missing _ _ _ Hc Hu).
  rewrite (fetchUserByWebhook_affirmative _ _ _ _ _ _ _ Hurl Hamt Hpost Hadm Hbal).
  cbv zeta. cbn [u_pubkey isAdmitted balance].
  rewrite upsert_runs, set_users_insertOnConflictMerge.
  change (users (logged _ (logged _ (logged _ w)))) with (users w).
  cbn [db_pubkey userRow u_pubkey]. rewrite Hu.
  eexists. eexists. split; [reflexivity|].
  rewrite (findByPubkey_stored env pk _
             (userRow (nowMs env)
                {| u_pubkey := pk; isAdmitted := true; balance := b;
                   u_createdAt := nowMs env; updatedAt := nowMs env;
                   tosAcceptedAt := Some (nowMs env) |})).
  - reflexivity.
  - autorewrite with world. unfold logged. autorewrite with world. exact Hc.
  - autorewrite with world. apply lookup_insert_eq.
Qed.

Definition admittingEnv : Env :=
  PipelineSpec.relay Scenarios.admissionSettings (PostReturns (Some Scenarios.admitData))
    AdmissionSpec.noStrategyRun.

Lemma findByPubkey_admitted_witness :
  exists u w1,
    findByPubkey admittingEnv "ab" emptyWorld = (Ok (Some u), w1)
    /\ findByPubkey admittingEnv "ab" w1
       = (Ok (Some {| u_pubkey := "ab"; isAdmitted := true; balance := 700;
                      u_createdAt := 1700000000000; updatedAt := 1700000000000;
                      tosAcceptedAt := Some 1700000000000 |}),
          logged [CacheExists "ab:is-blocked"; DbSelectUser "ab"] w1).
Proof.
  exact (findByPubkey_admitted_then_stored admittingEnv "ab" emptyWorld
           "http://hook/pubkey?token=token" 500 Scenarios.admitData 700
           eq_refl eq_refl eq_refl eq_refl eq_refl eq_refl eq_refl).
Defined.

End RepositoryMore.

(** ** Admission: the balance floor and empty fee schedules *)

Module AdmissionMore.

Import UserRepository Handler RepositorySpec UserRequestSpec AdmissionSpec.

(** [limits?.event?.pubkey?.minBalance ?? 0n] *)
Definition minBalanceOf (s : Settings) : Z :=
  default 0 ((limits_event s ≫= pubkey) ≫= minBalance).

Lemma isUserAdmitted_afterLoad env e w fs u w1 :
  paymentsEnabled (settings env) = true ->
  payments (settings env) ≫= feeSchedules = Some fs ->
  applicableFees (settings env) e <> [] ->
  findByPubkey env (ev_pubkey e) w = (Ok (Some u), w1) ->
  isAdmitted u = true ->
  isUserAdmitted env e w
  = (pub <- first (publication fs) ;;
     if enabled pub && (balance u <? amount pub) then
       top <- first (topUp fs) ;;
       if enabled top then
         toppedUp <- topUpPubkey env (ev_pubkey e) ;;
         if toppedUp then ret None else ret (Some insufficient)
       else ret (Some insufficient)
     else
       if (0 <? minBalanceOf (settings env)) && (balance u <? minBalanceOf (settings env))
       then ret (Some insufficient)
       else ret None) w1.
Proof.
  intros Hen Hfs Happ Hfind Hu.
  rewrite (isUserAdmitted_loads _ _ _ _ Hen Hfs Happ). unfold bind at 1.
  rewrite Hfind. unfold afterLoad. rewrite Hu. reflexivity.
Qed.

(** X8. The balance floor. For an admitted user, when the first
    publication schedule is not enabled or the balance covers its
    amount, [isUserAdmitted] compares the balance with
    [limits.event.pubkey.minBalance]: it answers
    ["blocked: insufficient balance"] when the floor is positive and the
    balance is below it, and accepts otherwise. The top-up schedule is
    not looked at and the world is the one the lookup left. *)
Theorem isUserAdmitted_balance_floor
    (env : Env) (e : Event) (w w1 : World)
    (fs : FeeSchedules) (pub : FeeSchedule) (u : User) :
  paymentsEnabled (settings env) = true ->
  payments (settings env) ≫= feeSchedules = Some fs ->
  applicableFees (settings env) e <> [] ->
  findByPubkey env (ev_pubkey e) w = (Ok (Some u), w1) ->
  isAdmitted u = true ->
  head (publication fs) = Some pub ->
  enabled pub = false \/ amount pub <= balance u ->
  isUserAdmitted env e w
  = (Ok (if (0 <? minBalanceOf (settings env))
            && (balance u <? minBalanceOf (settings env))
         then Some "blocked: insufficient balance"
         else None), w1).
Proof.
  intros Hen Hfs Happ Hfind Hu Hpub Hcover.
  rewrite (isUserAdmitted_afterLoad _ _ _ _ _ _ Hen Hfs Happ Hfind Hu).
  destruct (publication fs) as [|pub' ?]; [discriminate|]. injection Hpub as ->.
  unfold bind, first, ret.
  assert (Hgate : enabled pub && (balance u <? amount pub) = false).
  { destruct Hcover as [-> | Hle]; [reflexivity|].
    rewrite (proj2 (Z.ltb_ge _ _) Hle). apply andb_false_r. }
  rewrite Hgate. clear Hgate.
  destruct ((0 <? minBalanceOf (settings env))
            && (balance u <? minBalanceOf (settings env))); reflexivity.
Qed.

(** A relay with an admission fee, no publication fee and a balance
    floor of 1000. *)
Definition floorSettings : Settings :=
  {| payments := Some
       {| payments_enabled := true;
          feeSchedules := Some
            {| admission := [{| enabled := true; amount := 1000;
                                fee_whitelist_pubkeys := None |}];
               publication := [{| enabled := false; amount := 100;
                                  fee_whitelist_pubkeys := None |}];
               topUp := [] |} |};
     limits_event := Some
       {| eventId := None;
          pubkey := Some {| minBalance := Some 1000; pk_minLeadingZeroBits := None;
                            pk_whitelist := None; pk_blacklist := None |};
          kind := None; createdAt := None; content := ContentAbsent;
          rateLimits := None; whitelists := None |};
     webhooks := None |}.

Definition floorEnv : Env := PipelineSpec.relay floorSettings PostThrows noStrategyRun.

Lemma isUserAdmitted_balance_floor_witness :
  isUserAdmitted floorEnv note PipelineSpec.richWorld
  = (Ok (Some "blocked: insufficient balance"),
     snd (findByPubkey floorEnv "ab" PipelineSpec.richWorld)).
Proof.
  exact (isUserAdmitted_balance_floor floorEnv note PipelineSpec.richWorld
           (snd (findByPubkey floorEnv "ab" PipelineSpec.richWorld))
           {| admission := [{| enabled := true; amount := 1000;
                               fee_whitelist_pubkeys := None |}];
              publication := [{| enabled := false; amount := 100;
                                 fee_whitelist_pubkeys := None |}];
              topUp := [] |}
           {| enabled := false; amount := 100; fee_whitelist_pubkeys := None |}
           (fromDBUser PipelineSpec.richRow)
           eq_refl eq_refl ltac:(discriminate) eq_refl eq_refl eq_refl
           (or_introl eq_refl)).
Defined.

(** X9. Empty fee schedules. For an admitted user, [isUserAdmitted]
    raises a [TypeError] when the publication sequence is empty, and
    also when the first publication schedule is enabled, the balance is
    below its amount and the top-up sequence is empty. The error is
    raised in the world the lookup left: no top-up is attempted. *)
Theorem isUserAdmitted_empty_schedule_raises
    (env : Env) (e : Event) (w w1 : World) (fs : FeeSchedules) (u : User) :
  paymentsEnabled (settings env) = true ->
  payments (settings env) ≫= feeSchedules = Some fs ->
  applicableFees (settings env) e <> [] ->
  findByPubkey env (ev_pubkey e) w = (Ok (Some u), w1) ->
  isAdmitted u = true ->
  publication fs = []
  \/ (exists pub, head (publication fs) = Some pub /\ enabled pub = true
                  /\ balance u < amount pub /\ topUp fs = []) ->
  isUserAdmitted env e w = (Throw TypeError, w1).
Proof.
  intros Hen Hfs Happ Hfind Hu Hempty.
  rewrite (isUserAdmitted_afterLoad _ _ _ _ _ _ Hen Hfs Happ Hfind Hu).
  destruct Hempty as [-> | (pub & Hpub & Hpe & Hlt & Htop)]; [reflexivity|].
  destruct (publication fs) as [|pub' ?]; [discriminate|]. injection Hpub as ->.
  unfold bind at 1, first at 1, ret. rewrite Hpe, (proj2 (Z.ltb_lt _ _) Hlt), Htop.
  reflexivity.
Qed.

Definition noPublicationSettings : Settings :=
  {| payments := Some
       {| payments_enabled := true;
          feeSchedules := Some
            {| admission := [{| enabled := true; amount := 1000;
                                fee_whitelist_pubkeys := None |}];
               publication := [];
               topUp := [] |} |};
     limits_event := None; webhooks := None |}.

Definition noPublicationEnv : Env :=
  PipelineSpec.relay noPublicationSettings PostThrows noStrategyRun.

Lemma isUserAdmitted_empty_schedule_witness :
  isUserAdmitted noPublicationEnv note PipelineSpec.richWorld
  = (Throw TypeError, snd (findByPubkey noPublicationEnv "ab" PipelineSpec.richWorld)).
Proof.
  exact (isUserAdmitted_empty_schedule_raises noPublicationEnv note PipelineSpec.richWorld
           (snd (findByPubkey noPublicationEnv "ab" PipelineSpec.richWorld))
           {| admission := [{| enabled := true; amount := 1000;
                               fee_whitelist_pubkeys := None |}];
              publication := []; topUp := [] |}
           (fromDBUser PipelineSpec.richRow)
           eq_refl eq_refl ltac:(discriminate) eq_refl eq_refl (or_introl eq_refl)).
Defined.

End AdmissionMore.

(** ** The administrative endpoint: what the token is worth *)

Module UserRequestMore.

Import UserRepository UserRequest RepositorySpec UserRequestSpec.

(** X10. The endpoint never compares the token with the API key: two
    requests for the same pubkey get the same answer, in the same
    world, for any two non-empty tokens and any two non-empty API
    keys. *)
Theorem userRequestHandler_any_token
    (key key' : option string) (token token' pk : option string) (w : World) :
  truthy key = true -> truthy key' = true ->
  truthy token = true -> truthy token' = true ->
  userRequestHandler key {| query_token := token; query_pubkey := pk |} w
  = userRequestHandler key' {| query_token := token'; query_pubkey := pk |} w.
Proof.
  intros Hk Hk' Ht Ht'. unfold userRequestHandler. cbn [query_token query_pubkey].
  rewrite Hk, Hk', Ht, Ht'. reflexivity.
Qed.

Lemma userRequestHandler_any_token_witness :
  userRequestHandler (Some "secret")
    {| query_token := Some "secret"; query_pubkey := Some "ab" |} PipelineSpec.richWorld
  = userRequestHandler (Some "secret")
      {| query_token := Some "guess"; query_pubkey := Some "ab" |} PipelineSpec.richWorld
  /\ fst (userRequestHandler (Some "secret")
            {| query_token := Some "guess"; query_pubkey := Some "ab" |}
            PipelineSpec.richWorld)
     = Ok {| status := 200; body := Json (Finite 500) |}.
Proof.
  split; [|reflexivity].
  exact (userRequestHandler_any_token (Some "secret") (Some "secret")
           (Some "secret") (Some "guess") (Some "ab") PipelineSpec.richWorld
           eq_refl eq_refl eq_refl eq_refl).
Defined.






(** X12. The endpoint only reads: whatever the request, the users
    table, the cache, the limiter and the frames written are as before,
    and at most one call is made, the select of the balance. *)
Theorem userRequestHandler_reads_only (key : option string) (req : Request) (w : World) :
  let w' := snd (userRequestHandler key req w) in
  users w' = users w /\ cache w' = cache w /\ limiter w' = limiter w
  /\ emitted w' = emitted w /\ stored w' = stored w
  /\ (calls w' = calls w
      \/ exists pk, query_pubkey req = Some pk /\ calls w' = calls w ++ [DbSelectBalance pk]).
Proof.
  cbv zeta.
  destruct (userRequestHandler_answers key req w) as (H403 & H400 & Hrest).
  destruct (truthy key) eqn:Hk; [|rewrite H403 by auto; simpl; auto 10].
  destruct (truthy (query_token req)) eqn:Ht; [|rewrite H403 by auto; simpl; auto 10].
  destruct (truthy (query_pubkey req)) eqn:Hp; [|rewrite H400 by auto; simpl; auto 10].
  destruct (query_pubkey req) as [pk|] eqn:Hq; [|discriminate].
  rewrite (Hrest pk eq_refl eq_refl eq_refl Hp).
  assert (Hw : forall (r : Res Response),
             let w' := snd (r, logged [DbSelectBalance pk] w) in
             users w' = users w /\ cache w' = cache w /\ limiter w' = limiter w
             /\ emitted w' = emitted w /\ stored w' = stored w
             /\ (calls w' = calls w
                 \/ exists pk0, Some pk = Some pk0
                                /\ calls w' = calls w ++ [DbSelectBalance pk0])).
  { intros r. cbv zeta. cbn [snd]. repeat split. right. exists pk. split; reflexivity. }
  destruct (users w !! pk) as [d|]; [destruct (db_balance d =? 0)|]; apply Hw.
Qed.

End UserRequestMore.

(** ** The pipeline: each way a run can end *)

Module PipelineMore.

Import UserRepository Handler RepositorySpec UserRequestSpec AdmissionSpec PipelineSpec.

(** The world [W] with the refusal [why] written to the connection. *)
Definition refused (message : IncomingEventMessage) (why : string) (W : World)
    : Res unit * World :=
  (Ok tt, set_emitted (fun fs => fs ++ [refusal message (Some why)]) W).

(** X13. Refusals before rate limiting touch nothing but the
    connection. An event whose id does not match is refused with
    ["invalid: event id does not match"], whatever its signature; an
    event with a matching id and a bad signature with
    ["invalid: event signature verification failed"]; a valid event
    that is expired with ["event is expired"]. In each case the world is
    the initial one with that single frame written (and the stages
    entered recorded): no rate-limit counter is hit and neither the
    cache nor the datastore is consulted. *)
Theorem handleMessage_early_refusals (env : Env) (message : IncomingEventMessage)
    (w : World) :
  let event := submitted message in
  (isEventIdValid env event = false ->
   handleMessage env message w
   = refused message "invalid: event id does not match" (entered [SValidity] w))
  /\ (isEventIdValid env event = true -> isEventSignatureValid env event = false ->
      handleMessage env message w
      = refused message "invalid: event signature verification failed"
          (entered [SValidity] w))
  /\ (isEventIdValid env event = true -> isEventSignatureValid env event = true ->
      isExpiredEvent (nowSeconds env) event = true ->
      handleMessage env message w
      = refused message "event is expired" (entered [SValidity; SExpiration] w)).
Proof.
  cbv zeta. unfold submitted, refused.
  split; [|split]; intros Hid;
    rewrite handleMessage_tail; cbv zeta; rewrite bind_enter; unfold bind at 1;
    rewrite isEventValid_pure; unfold validity; rewrite Hid.
  - reflexivity.
  - intros Hsig. rewrite Hsig. reflexivity.
  - intros Hsig Hx. rewrite Hsig. cbn [negb truthy]. rewrite bind_enter, Hx.
    rewrite entered_entered. reflexivity.
Qed.

Lemma handleMessage_to_rate_limit env message w :
  isEventIdValid env (submitted message) = true ->
  isEventSignatureValid env (submitted message) = true ->
  isExpiredEvent (nowSeconds env) (submitted message) = false ->
  handleMessage env message w
  = (limited <- isRateLimited env (seen message) ;;
     if limited then reject (seen message) "rate-limited: slow down"
     else
     enter SPolicy ;;;
     let reason :=
       Policy.canAcceptEvent (settings env) (nowSeconds env) (seen message) in
     if truthy reason then reject (seen message) (default "" reason)
     else
     enter SAdmission ;;;
     reason <- isUserAdmitted env (seen message) ;;
     if truthy reason then reject (seen message) (default "" reason)
     else fromEventCheck env (seen message))
      (entered [SValidity; SExpiration; SExpirationMetadata; SRateLimit] w).
Proof.
  unfold seen, submitted. intros Hid Hsig Hx.
  rewrite handleMessage_tail. cbv zeta. rewrite bind_enter. unfold bind at 1.
  rewrite isEventValid_pure. unfold validity. rewrite Hid, Hsig. cbn [negb truthy].
  rewrite bind_enter, Hx, !bind_enter, !entered_entered. reflexivity.
Qed.

(** X14. A rate-limited event is refused with
    ["rate-limited: slow down"] in the world the limiter left: the hits
    it counted stay counted, and neither the policy nor the admission
    stage runs. *)
Theorem handleMessage_rate_limited (env : Env) (message : IncomingEventMessage)
    (w W4 : World) :
  isEventIdValid env (submitted message) = true ->
  isEventSignatureValid env (submitted message) = true ->
  isExpiredEvent (nowSeconds env) (submitted message) = false ->
  isRateLimited env (seen message) (entered (take 4 order) w) = (Ok true, W4) ->
  handleMessage env message w = refused message "rate-limited: slow down" W4
  /\ users W4 = users w /\ cache W4 = cache w.
Proof.
  intros Hid Hsig Hx Hrl.
  rewrite (handleMessage_to_rate_limit _ _ _ Hid Hsig Hx). unfold bind at 1.
  change (entered [SValidity; SExpiration; SExpirationMetadata; SRateLimit] w)
    with (entered (take 4 order) w).
  rewrite Hrl. split.
  - apply reject_runs, id_seen.
  - destruct (isRateLimited_local env (seen message) (entered (take 4 order) w))
      as (b & W & HW & _ & _ & _ & Hu & Hc).
    rewrite Hrl in HW. injection HW as <- <-. split; assumption.
Qed.

(** X15. An event that the policy refuses is refused with exactly the
    reason [canAcceptEvent] gives, which is never the empty string. The
    world is the one the limiter left, with the policy stage entered and
    that frame written: the hits of the rate limiter were counted before
    the policy was consulted, and admission is not reached. *)
Theorem handleMessage_policy_refusal (env : Env) (message : IncomingEventMessage)
    (w W4 : World) (why : string) :
  isEventIdValid env (submitted message) = true ->
  isEventSignatureValid env (submitted message) = true ->
  isExpiredEvent (nowSeconds env) (submitted message) = false ->
  isRateLimited env (seen message) (entered (take 4 order) w) = (Ok false, W4) ->
  Policy.canAcceptEvent (settings env) (nowSeconds env) (seen message) = Some why ->
  handleMessage env message w = refused message why (entered [SPolicy] W4)
  /\ why <> "".
Proof.
  intros Hid Hsig Hx Hrl Hpol.
  pose proof (canAcceptEvent_reason_truthy _ _ _ _ Hpol) as Htruthy.
  rewrite (handleMessage_to_rate_limit _ _ _ Hid Hsig Hx). unfold bind at 1.
  change (entered [SValidity; SExpiration; SExpirationMetadata; SRateLimit] w)
    with (entered (take 4 order) w).
  rewrite Hrl. rewrite bind_enter. cbv zeta. rewrite Hpol, Htruthy. split.
  - apply reject_runs, id_seen.
  - intros ->. discriminate Htruthy.
Qed.

(** *** Concrete runs *)

Definition strictEnv : Env :=
  relay (Scenarios.limitsOnly
           {| eventId := None; pubkey := None; kind := None; createdAt := None;
              content := ContentSeq [{| cl_kinds := None; cl_maxLength := Some 3 |}];
              rateLimits := Some [{| period := 60000; rate := 0; rl_kinds := None |}];
              whitelists := None |})
    PostThrows noStrategyRun.

Lemma handleMessage_rate_limited_witness :
  let W4 := snd (isRateLimited strictEnv (seen noteMessage)
                   (entered (take 4 order) emptyWorld)) in
  handleMessage strictEnv noteMessage emptyWorld
  = refused noteMessage "rate-limited: slow down" W4
  /\ users W4 = users emptyWorld /\ cache W4 = cache emptyWorld.
Proof.
  exact (handleMessage_rate_limited strictEnv noteMessage emptyWorld
           (snd (isRateLimited strictEnv (seen noteMessage)
                   (entered (take 4 order) emptyWorld)))
           eq_refl eq_refl eq_refl eq_refl).
Defined.

Definition shortEnv : Env :=
  relay (Scenarios.limitsOnly
           {| eventId := None; pubkey := None; kind := None; createdAt := None;
              content := ContentSeq [{| cl_kinds := None; cl_maxLength := Some 3 |}];
              rateLimits := Some [{| period := 60000; rate := 5; rl_kinds := None |}];
              whitelists := None |})
    PostThrows noStrategyRun.

Lemma handleMessage_policy_refusal_witness :
  let W4 := snd (isRateLimited shortEnv (seen noteMessage)
                   (entered (take 4 order) emptyWorld)) in
  handleMessage shortEnv noteMessage emptyWorld
  = refused noteMessage "rejected: content is longer than 3 bytes" (entered [SPolicy] W4)
  /\ "rejected: content is longer than 3 bytes" <> ""
  /\ calls W4 = [LimiterHit "ab:events:60000" 1 60000 5].
Proof.
  destruct (handleMessage_policy_refusal shortEnv noteMessage emptyWorld
              (snd (isRateLimited shortEnv (seen noteMessage)
                      (entered (take 4 order) emptyWorld)))
              "rejected: content is longer than 3 bytes"
              eq_refl eq_refl eq_refl eq_refl eq_refl) as [Hrun Hne].
  cbv zeta. split; [exact Hrun|]. split; [exact Hne|]. reflexivity.
Defined.

(** *** After admission *)

(** X16. An event for which the factory resolves no executable strategy
    is refused with ["error: event not supported"] right after the event
    check: that frame is the only one of the run, no publication fee is
    debited and no callback is posted. *)
Theorem handleMessage_unsupported (env : Env) (message : IncomingEventMessage)
    (w : World) (ev : Event) (W6 W7 : World) :
  passesAdmission env message w ev W6 ->
  eventCheck env ev (entered [SEventCheck] W6) = (Ok false, W7) ->
  strategyFactory env ev = None ->
  handleMessage env message w
  = refused message "error: event not supported" (entered [SStrategyResolution] W7)
  /\ emitted W7 = emitted w.
Proof.
  intros Hpass Hcheck Hnone.
  destruct (handleMessage_passes _ _ _ _ _ Hpass) as (-> & _ & Hid).
  destruct (passed_frames _ _ _ _ _ _ Hpass Hcheck) as (He & _).
  rewrite (fromEventCheck_passed _ _ _ _ Hcheck), Hnone. split; [|exact He].
  apply reject_runs, Hid.
Qed.

Definition strangeEnv : Env :=
  {| settings := checkingSettings; repoSettings := checkingSettings;
     VIDA_API_KEY := Some "token"; clientAddress := "10.0.0.1";
     nowMs := 1700000000000;
     isEventIdValid := fun _ => true; isEventSignatureValid := fun _ => true;
     httpPost := fun _ _ => PostReturns (Some successData);
     strategyFactory := fun _ => None |}.

Lemma strange_passesAdmission :
  passesAdmission strangeEnv noteMessage emptyWorld noteSeen
    (entered (take 6 order) emptyWorld).
Proof.
  unfold passesAdmission. cbv zeta. repeat split.
  exists (entered (take 4 order) emptyWorld), None. repeat split.
Qed.

Lemma handleMessage_unsupported_witness :
  let W7 := logged [HttpPost "http://hook/check" (BodyEvent noteSeen)]
              (entered (take 7 order) emptyWorld) in
  handleMessage strangeEnv noteMessage emptyWorld
  = refused noteMessage "error: event not supported" (entered [SStrategyResolution] W7)
  /\ emitted W7 = emitted emptyWorld.
Proof.
  exact (handleMessage_unsupported strangeEnv noteMessage emptyWorld noteSeen
           (entered (take 6 order) emptyWorld)
           (logged [HttpPost "http://hook/check" (BodyEvent noteSeen)]
              (entered (take 7 order) emptyWorld))
           strange_passesAdmission eq_refl eq_refl).
Defined.

(** No publication fee is due: the settings carry no fee schedules, or
    the first publication schedule is not enabled. *)
Definition noPublicationFee (s : Settings) : Prop :=
  match payments s ≫= feeSchedules with
  | None => True
  | Some fs => exists pub, head (publication fs) = Some pub /\ enabled pub = false
  end.

Lemma publicationFee_skips env ev W :
  noPublicationFee (settings env) -> publicationFee env ev W = (Ok tt, W).
Proof.
  unfold noPublicationFee, publicationFee.
  destruct (payments (settings env) ≫= feeSchedules) as [fs|]; [|reflexivity].
  intros (pub & Hpub & Hoff).
  destruct (publication fs) as [|pub' ?]; [discriminate|]. injection Hpub as ->.
  unfold bind, first, ret. rewrite Hoff. reflexivity.
Qed.

(** X17. The accepted event. When the first six stages and the event
    check pass, a strategy is resolved, no publication fee is due (no
    fee schedules, or the first publication schedule not enabled) and
    the strategy does not throw, the handler returns having entered all
    eleven stages. It writes no frame of its own: the frames of the run
    are those of the strategy, the events persisted are those the
    strategy persisted, the users table and the cache are as the event
    check left them, and after the event check the only calls are the
    execution of the strategy and the callback post, if configured,
    whose answer or failure changes nothing of this. *)
Theorem handleMessage_accepted (env : Env) (message : IncomingEventMessage)
    (w : World) (ev : Event) (W6 W7 : World) (strategy : Event -> StrategyRun) :
  passesAdmission env message w ev W6 ->
  eventCheck env ev (entered [SEventCheck] W6) = (Ok false, W7) ->
  strategyFactory env ev = Some strategy ->
  noPublicationFee (settings env) ->
  run_throws (strategy ev) = false ->
  exists w',
    handleMessage env message w = (Ok tt, w')
    /\ emitted w' = emitted w ++ run_emits (strategy ev)
    /\ stored w' = stored w ++ run_stores (strategy ev)
    /\ stages w' = stages w ++ order
    /\ users w' = users W7 /\ cache w' = cache W7
    /\ calls w' = calls W7 ++ [StrategyExecute ev] ++ callbackCalls env ev.
Proof.
  intros Hpass Hcheck Hstrategy Hfee Hok.
  destruct (handleMessage_passes _ _ _ _ _ Hpass) as (-> & _ & Hid).
  destruct (passed_frames _ _ _ _ _ _ Hpass Hcheck) as (He7 & Hp7 & Hs7).
  rewrite (fromEventCheck_passed _ _ _ _ Hcheck), Hstrategy. unfold fromStrategy.
  rewrite bind_enter, entered_entered. cbn [app]. unfold bind at 1.
  rewrite (publicationFee_skips _ _ _ Hfee).
  rewrite bind_enter. unfold bind at 1. rewrite (execute_caught message _ _ _ Hid).
  rewrite bind_enter, eventCallback_runs, Hok.
  eexists. split; [reflexivity|].
  unfold logged, entered. autorewrite with world.
  rewrite He7, Hp7, Hs7, app_nil_r, <- !app_assoc.
  repeat split; reflexivity.
Qed.

Definition acceptedFrame : CommandResult := createCommandResult "00ff" true (Some "").

Definition storingRun : StrategyRun :=
  {| run_emits := [acceptedFrame]; run_stores := [noteSeen]; run_throws := false |}.

(** A relay without payments that calls back after the strategy; the
    callback fails in transport. *)
Definition acceptingEnv : Env :=
  relay callbackSettings PostThrows storingRun.

Lemma accepting_passesAdmission :
  passesAdmission acceptingEnv noteMessage richWorld noteSeen
    (entered (take 6 order) richWorld).
Proof.
  unfold passesAdmission. cbv zeta. repeat split.
  exists (entered (take 4 order) richWorld), None. repeat split.
Qed.

Lemma handleMessage_accepted_witness :
  exists w',
    handleMessage acceptingEnv noteMessage richWorld = (Ok tt, w')
    /\ emitted w' = [acceptedFrame]
    /\ stored w' = [noteSeen]
    /\ stages w' = order
    /\ db_balance <$> users w' !! "ab" = Some 500
    /\ calls w' = [StrategyExecute noteSeen;
                   HttpPost "http://hook/callback" (BodyEvent noteSeen)].
Proof.
  destruct (handleMessage_accepted acceptingEnv noteMessage richWorld noteSeen
              (entered (take 6 order) richWorld) (entered (take 7 order) richWorld)
              (fun _ => storingRun)
              accepting_passesAdmission eq_refl eq_refl I eq_refl)
    as (w' & Hrun & He & Hp & Hs & Hu & _ & Hc).
  exists w'. split; [exact Hrun|]. split; [exact He|]. split; [exact Hp|].
  split; [exact Hs|]. split; [rewrite Hu; reflexivity | exact Hc].
Defined.

(** X22. An event that admission refuses is refused with the reason of
    [isUserAdmitted], which is one of ["blocked: pubkey not admitted"]
    and ["blocked: insufficient balance"], in the world the admission
    stage left: what the lookup did (a user stored, a pubkey blocked in
    the cache, a balance topped up) stays done although the event is
    refused, and the event check is not reached. *)
Theorem handleMessage_admission_refusal (env : Env) (message : IncomingEventMessage)
    (w W4 W6 : World) (why : string) :
  isEventIdValid env (submitted message) = true ->
  isEventSignatureValid env (submitted message) = true ->
  isExpiredEvent (nowSeconds env) (submitted message) = false ->
  isRateLimited env (seen message) (entered (take 4 order) w) = (Ok false, W4) ->
  Policy.canAcceptEvent (settings env) (nowSeconds env) (seen message) = None ->
  isUserAdmitted env (seen message) (entered [SPolicy; SAdmission] W4)
  = (Ok (Some why), W6) ->
  handleMessage env message w = refused message why W6
  /\ (why = "blocked: pubkey not admitted" \/ why = "blocked: insufficient balance").
Proof.
  intros Hid Hsig Hx Hrl Hpol Hadm.
  pose proof (isUserAdmitted_reasons _ _ _ _ _ Hadm) as Hwhy.
  split; [|exact Hwhy].
  rewrite (handleMessage_to_rate_limit _ _ _ Hid Hsig Hx). unfold bind at 1.
  change (entered [SValidity; SExpiration; SExpirationMetadata; SRateLimit] w)
    with (entered (take 4 order) w).
  rewrite Hrl. rewrite bind_enter. cbv zeta. rewrite Hpol. cbn [truthy].
  rewrite bind_enter, entered_entered. cbn [app]. unfold bind at 1. rewrite Hadm.
  assert (Ht : truthy (Some why) = true) by (destruct Hwhy as [-> | ->]; reflexivity).
  rewrite Ht. apply reject_runs, id_seen.
Qed.

Lemma handleMessage_admission_refusal_witness :
  let W6 := snd (isUserAdmitted Scenarios.refusingEnv (seen noteMessage)
                   (entered (take 6 order) emptyWorld)) in
  handleMessage Scenarios.refusingEnv noteMessage emptyWorld
  = refused noteMessage "blocked: pubkey not admitted" W6
  /\ cache W6 !! "ab:is-blocked" = Some ("true", Some 1700000060000).
Proof.
  destruct (handleMessage_admission_refusal Scenarios.refusingEnv noteMessage emptyWorld
              (entered (take 4 order) emptyWorld)
              (snd (isUserAdmitted Scenarios.refusingEnv (seen noteMessage)
                      (entered (take 6 order) emptyWorld)))
              "blocked: pubkey not admitted"
              eq_refl eq_refl eq_refl eq_refl eq_refl eq_refl) as [Hrun _].
  cbv zeta. split; [exact Hrun | reflexivity].
Defined.

(** X18. An event-check response without data is not a veto and not a
    pass: reading [success] of the missing data raises a [TypeError],
    which the handler lets through. The run ends after the event-check
    stage with that error and writes no frame; the strategy is not
    resolved. *)
Theorem handleMessage_eventCheck_without_data
    (env : Env) (message : IncomingEventMessage) (w : World) (ev : Event)
    (W6 : World) (url : string) :
  passesAdmission env message w ev W6 ->
  webhookAddress (settings env) eventChecks ep_eventCheck = Some url ->
  httpPost env url (BodyEvent ev) = PostReturns None ->
  let W7 := logged [HttpPost url (BodyEvent ev)] (entered [SEventCheck] W6) in
  handleMessage env message w = (Throw TypeError, W7)
  /\ emitted W7 = emitted w
  /\ stages W7 = stages w ++ take 7 order.
Proof.
  intros Hpass Hurl Hpost W7.
  destruct (handleMessage_passes _ _ _ _ _ Hpass) as (-> & H6 & _).
  pose proof (at_stage_enter _ _ _ SEventCheck H6 eq_refl) as (Hs7 & He7 & _).
  split; [|split; [exact He7 | exact Hs7]].
  unfold fromEventCheck. rewrite bind_enter. unfold bind at 1.
  unfold eventCheck. rewrite Hurl.
  unfold tryCatch, bind, post, bind, logCall. cbn beta iota zeta.
  rewrite Hpost. reflexivity.
Qed.

Definition silentEnv : Env := relay checkingSettings (PostReturns None) noStrategyRun.

Lemma handleMessage_eventCheck_without_data_witness :
  let W7 := logged [HttpPost "http://hook/check" (BodyEvent noteSeen)]
              (entered (take 7 order) emptyWorld) in
  handleMessage silentEnv noteMessage emptyWorld = (Throw TypeError, W7)
  /\ emitted W7 = emitted emptyWorld
  /\ stages W7 = stages emptyWorld ++ take 7 order.
Proof.
  exact (handleMessage_eventCheck_without_data silentEnv noteMessage emptyWorld noteSeen
           (entered (take 6 order) emptyWorld) "http://hook/check"
           (checking_passesAdmission _ _) eq_refl eq_refl).
Defined.

(** X19. Fee schedules with an empty publication sequence. When the
    settings carry fee schedules whose publication sequence is empty,
    an event that passed every check and has a strategy is not
    executed: reading [publication[0].enabled] raises a [TypeError]
    after strategy resolution, the strategy never runs and no frame is
    written. *)
Theorem handleMessage_empty_publication
    (env : Env) (message : IncomingEventMessage) (w : World) (ev : Event)
    (W6 W7 : World) (strategy : Event -> StrategyRun) (fs : FeeSchedules) :
  passesAdmission env message w ev W6 ->
  eventCheck env ev (entered [SEventCheck] W6) = (Ok false, W7) ->
  strategyFactory env ev = Some strategy ->
  payments (settings env) ≫= feeSchedules = Some fs ->
  publication fs = [] ->
  let W9 := entered [SStrategyResolution; SPublicationFee] W7 in
  handleMessage env message w = (Throw TypeError, W9)
  /\ emitted W9 = emitted w /\ stored W9 = stored w /\ calls W9 = calls W7.
Proof.
  intros Hpass Hcheck Hstrategy Hfs Hempty W9.
  destruct (handleMessage_passes _ _ _ _ _ Hpass) as (-> & _ & _).
  destruct (passed_frames _ _ _ _ _ _ Hpass Hcheck) as (He7 & Hp7 & _).
  rewrite (fromEventCheck_passed _ _ _ _ Hcheck), Hstrategy. unfold fromStrategy.
  rewrite bind_enter, entered_entered. cbn [app]. unfold bind at 1.
  unfold publicationFee. rewrite Hfs, Hempty. cbn [first]. unfold bind, throw.
  split; [reflexivity|]. split; [exact He7|]. split; [exact Hp7 | reflexivity].
Qed.

Definition noPublicationFeeSettings : Settings :=
  {| payments := Some
       {| payments_enabled := false;
          feeSchedules := Some {| admission := []; publication := []; topUp := [] |} |};
     limits_event := None; webhooks := None |}.

Definition noPublicationFeeEnv : Env :=
  relay noPublicationFeeSettings PostThrows storingRun.

Lemma noPublicationFee_passesAdmission :
  passesAdmission noPublicationFeeEnv noteMessage emptyWorld noteSeen
    (entered (take 6 order) emptyWorld).
Proof.
  unfold passesAdmission. cbv zeta. repeat split.
  exists (entered (take 4 order) emptyWorld), None. repeat split.
Qed.

Lemma handleMessage_empty_publication_witness :
  let W9 := entered (take 9 order) emptyWorld in
  handleMessage noPublicationFeeEnv noteMessage emptyWorld = (Throw TypeError, W9)
  /\ emitted W9 = emitted emptyWorld /\ stored W9 = stored emptyWorld
  /\ calls W9 = calls (entered (take 7 order) emptyWorld).
Proof.
  exact (handleMessage_empty_publication noPublicationFeeEnv noteMessage emptyWorld
           noteSeen (entered (take 6 order) emptyWorld)
           (entered (take 7 order) emptyWorld) (fun _ => storingRun)
           {| admission := []; publication := []; topUp := [] |}
           noPublicationFee_passesAdmission eq_refl eq_refl eq_refl eq_refl).
Defined.

(** X20. The publication-fee block does not depend on
    [payments.enabled]. With payments disabled the admission stage is
    skipped, so the submitter is never looked up; yet when the first
    publication schedule is enabled the handler still reaches the call
    of [updateUserBalance], and the run ends with its [TypeError]: an
    event that passed every check gets no frame and is not persisted,
    and the users table and the cache are those of the start. *)
Theorem publication_fee_despite_disabled_payments
    (env : Env) (message : IncomingEventMessage) (w : World) (ev : Event)
    (W6 W7 : World) (strategy : Event -> StrategyRun)
    (fs : FeeSchedules) (pub : FeeSchedule) :
  paymentsEnabled (settings env) = false ->
  passesAdmission env message w ev W6 ->
  eventCheck env ev (entered [SEventCheck] W6) = (Ok false, W7) ->
  strategyFactory env ev = Some strategy ->
  payments (settings env) ≫= feeSchedules = Some fs ->
  head (publication fs) = Some pub ->
  enabled pub = true ->
  exists w',
    handleMessage env message w = (Throw TypeError, w')
    /\ users w' = users w /\ cache w' = cache w
    /\ emitted w' = emitted w /\ stored w' = stored w.
Proof.
  intros Hoff Hpass Hcheck Hstrategy Hfs Hpub Hen.
  destruct (handleMessage_passes _ _ _ _ _ Hpass) as (-> & _ & _).
  destruct (passed_frames _ _ _ _ _ _ Hpass Hcheck) as (He7 & Hp7 & _).
  assert (Htables : users W7 = users w /\ cache W7 = cache w).
  { destruct Hpass as (_ & _ & _ & W4 & reason & Hrl & _ & Hadm & _).
    destruct (isRateLimited_local env ev
                (entered [SValidity; SExpiration; SExpirationMetadata; SRateLimit] w))
      as (b & W & HW & _ & _ & _ & Hu4 & Hc4).
    rewrite Hrl in HW. injection HW as <- <-.
    rewrite isUserAdmitted_skips in Hadm by (left; exact Hoff).
    injection Hadm as _ <-.
    destruct (eventCheck_keeps_tables _ _ _ _ _ Hcheck) as (Hu7 & Hc7).
    split; [rewrite Hu7 | rewrite Hc7]; assumption. }
  destruct Htables as (Hu & Hc).
  rewrite (fromEventCheck_passed _ _ _ _ Hcheck), Hstrategy. unfold fromStrategy.
  rewrite bind_enter, entered_entered. cbn [app]. unfold bind at 1.
  rewrite (publicationFee_raises _ _ _ _ _ Hfs Hpub Hen).
  eexists. split; [reflexivity|].
  unfold entered. autorewrite with world. repeat split; assumption.
Qed.

Definition unpaidSettings : Settings :=
  {| payments := Some
       {| payments_enabled := false;
          feeSchedules := Some
            {| admission := [];
               publication := [{| enabled := true; amount := 100;
                                  fee_whitelist_pubkeys := None |}];
               topUp := [] |} |};
     limits_event := None; webhooks := None |}.

Definition unpaidEnv : Env := relay unpaidSettings PostThrows storingRun.

Lemma unpaid_passesAdmission :
  passesAdmission unpaidEnv noteMessage richWorld noteSeen
    (entered (take 6 order) richWorld).
Proof.
  unfold passesAdmission. cbv zeta. repeat split.
  exists (entered (take 4 order) richWorld), None. repeat split.
Qed.

Lemma publication_fee_despite_disabled_payments_witness :
  exists w',
    handleMessage unpaidEnv noteMessage richWorld = (Throw TypeError, w')
    /\ db_balance <$> users w' !! "ab" = Some 500
    /\ cache w' = cache richWorld
    /\ emitted w' = [] /\ stored w' = [].
Proof.
  destruct (publication_fee_despite_disabled_payments unpaidEnv noteMessage richWorld
              noteSeen (entered (take 6 order) richWorld)
              (entered (take 7 order) richWorld) (fun _ => storingRun)
              {| admission := [];
                 publication := [{| enabled := true; amount := 100;
                                    fee_whitelist_pubkeys := None |}];
                 topUp := [] |}
              {| enabled := true; amount := 100; fee_whitelist_pubkeys := None |}
              eq_refl unpaid_passesAdmission eq_refl eq_refl eq_refl eq_refl eq_refl)
    as (w' & Hrun & Hu & Hc & He & Hp).
  exists w'. split; [exact Hrun|]. split; [rewrite Hu; reflexivity|].
  split; [exact Hc|]. split; [exact He | exact Hp].
Defined.

End PipelineMore.

(** ** The policy: what switches a check off *)

Module PolicyMore.

Import Policy.

(** A numeric bound that is missing, zero or negative. *)
Definition offBound (o : option Z) : Prop :=
  match o with
  | Some n => n <= 0
  | None => True
  end.

(** A list that is missing or empty. *)
Definition offList {A} (o : option (list A)) : Prop :=
  match o with
  | Some (_ :: _) => False
  | _ => True
  end.

Definition offContent (c : ContentSetting) : Prop :=
  match c with
  | ContentAbsent => True
  | ContentSingle r => offBound (cl_maxLength r)
  | ContentSeq rs => Forall (fun r => offBound (cl_maxLength r)) rs
  end.

Lemma offBound_ltb o n : offBound o -> o = Some n -> (0 <? n) = false.
Proof. intros H ->. apply Z.ltb_ge. exact H. Qed.

(** X21. What switches the checks off. [canAcceptEvent] accepts every
    event at every time when each content record has no [maxLength] or
    one that is zero or negative, the two [createdAt] deltas and the two
    proof-of-work thresholds are missing, zero or negative, and the
    pubkey and kind whitelists and blacklists are missing or empty. *)
Theorem canAcceptEvent_checks_off (s : Settings) (now : Z) (e : Event) :
  let limits := default noEventLimits (limits_event s) in
  offContent (content limits) ->
  offBound (createdAt limits ≫= maxPositiveDelta) ->
  offBound (createdAt limits ≫= maxNegativeDelta) ->
  offBound (eventId limits ≫= eid_minLeadingZeroBits) ->
  offBound (pubkey limits ≫= pk_minLeadingZeroBits) ->
  offList (pubkey limits ≫= pk_whitelist) ->
  offList (pubkey limits ≫= pk_blacklist) ->
  offList (kind limits ≫= kind_whitelist) ->
  offList (kind limits ≫= kind_blacklist) ->
  canAcceptEvent s now e = None.
Proof.
  intros limits Hc Hf Hp Hi Hk Hpw Hpb Hkw Hkb.
  unfold canAcceptEvent. fold limits.
  assert (Hrec : forall r, offBound (cl_maxLength r) -> contentTooLong e r = false).
  { intros r Hr. unfold contentTooLong.
    destruct (cl_maxLength r) as [n|] eqn:En; [|reflexivity].
    rewrite (offBound_ltb _ _ Hr eq_refl). reflexivity. }
  assert (E0 : contentCheck limits e = None).
  { unfold contentCheck. destruct (content limits) as [|r|rs]; [reflexivity| |].
    - rewrite (Hrec r Hc). reflexivity.
    - induction Hc as [|r rs Hr Hrs IH]; [reflexivity|].
      cbn [contentLoop]. rewrite (Hrec r Hr). exact IH. }
  rewrite E0.
  unfold futureSkew, pastSkew, eventIdPow, pubkeyPow, pubkeyWhitelist, pubkeyBlacklist,
    kindWhitelist, kindBlacklist.
  destruct (createdAt limits ≫= maxPositiveDelta) as [d1|];
    [rewrite (offBound_ltb _ _ Hf eq_refl); cbn [andb]|].
  all: destruct (createdAt limits ≫= maxNegativeDelta) as [d2|];
    [rewrite (offBound_ltb _ _ Hp eq_refl); cbn [andb]|].
  all: destruct (eventId limits ≫= eid_minLeadingZeroBits) as [m1|];
    [rewrite (offBound_ltb _ _ Hi eq_refl)|].
  all: destruct (pubkey limits ≫= pk_minLeadingZeroBits) as [m2|];
    [rewrite (offBound_ltb _ _ Hk eq_refl)|].
  all: destruct (pubkey limits ≫= pk_whitelist) as [[|? ?]|]; try contradiction.
  all: destruct (pubkey limits ≫= pk_blacklist) as [[|? ?]|]; try contradiction.
  all: destruct (kind limits ≫= kind_whitelist) as [[|? ?]|]; try contradiction.
  all: destruct (kind limits ≫= kind_blacklist) as [[|? ?]|]; try contradiction.
  all: reflexivity.
Qed.

Definition zeroLimits : Settings :=
  Scenarios.limitsOnly
    {| eventId := Some {| eid_minLeadingZeroBits := Some 0 |};
       pubkey := Some {| minBalance := None; pk_minLeadingZeroBits := Some 0;
                         pk_whitelist := Some []; pk_blacklist := Some [] |};
       kind := Some {| kind_whitelist := Some []; kind_blacklist := None |};
       createdAt := Some {| maxNegativeDelta := Some 0; maxPositiveDelta := Some 0 |};
       content := ContentSeq [{| cl_kinds := None; cl_maxLength := Some 0 |};
                              {| cl_kinds := Some [KindExact 1]; cl_maxLength := None |}];
       rateLimits := None; whitelists := None |}.

Lemma canAcceptEvent_checks_off_witness :
  canAcceptEvent zeroLimits 1700000000 AdmissionSpec.note = None.
Proof.
  apply (canAcceptEvent_checks_off zeroLimits 1700000000 AdmissionSpec.note);
    cbn; try exact I; try lia.
  repeat constructor; cbn; try exact I; lia.
Defined.

End PolicyMore.

(** * The claims on concrete relays *)

Module Instances.

Import Policy UserRepository Handler RepositorySpec UserRequestSpec AdmissionSpec
  PipelineSpec Scenarios.

(** The pipeline on a relay whose event-check webhook vetoes: the run
    of the stages is refused by the seventh stage, and the handler ends
    as the run does. *)
Lemma handleMessage_runs_stages_witness :
  run vetoEnv order (submitted noteMessage) emptyWorld
  = (Ok (Some SEventCheck),
     set_emitted (fun fs => fs ++ [createCommandResult "00ff" false
                                     (Some "blocked: not wanted here")])
       (logged [HttpPost "http://hook/check" (BodyEvent noteSeen)]
          (entered (take 7 order) emptyWorld)))
  /\ handleMessage vetoEnv noteMessage emptyWorld
     = (Ok tt,
        set_emitted (fun fs => fs ++ [createCommandResult "00ff" false
                                        (Some "blocked: not wanted here")])
          (logged [HttpPost "http://hook/check" (BodyEvent noteSeen)]
             (entered (take 7 order) emptyWorld))).
Proof.
  split; [reflexivity|].
  exact (handleMessage_runs_stages_in_order vetoEnv noteMessage emptyWorld).
Defined.

(** The policy on a content record scoped to kind 1. *)
Lemma canAcceptEvent_first_violation_witness :
  canAcceptEvent kindScoped 1700000000 (withContent note 1 (letters 300))
  = Some "rejected: content is longer than 200 bytes"
  /\ canAcceptEvent kindScoped 1700000000 (withContent note 2 (letters 300)) = None.
Proof.
  split; rewrite PolicySpec.canAcceptEvent_first_violation; vm_compute; reflexivity.
Defined.

(** Two rate-limit rules that both apply to a note of kind 1, and the
    same rules with the submitter whitelisted. *)
Definition whitelistedRules : Settings :=
  limitsOnly {| eventId := None; pubkey := None; kind := None; createdAt := None;
                content := ContentAbsent;
                rateLimits := Some [{| period := 60000; rate := 0; rl_kinds := None |}];
                whitelists := Some {| wl_pubkeys := Some ["cd"; "ab"];
                                      wl_ipAddresses := None |} |}.

Definition whitelistedEnv : Env := relay whitelistedRules PostThrows noStrategyRun.

Lemma isRateLimited_witness :
  (exists w',
      isRateLimited twoRulesEnv note emptyWorld = (Ok false, w')
      /\ calls w' = [LimiterHit "ab:events:60000" 1 60000 5;
                     LimiterHit "ab:events:3600000:[1]" 1 3600000 50])
  /\ isRateLimited whitelistedEnv note emptyWorld = (Ok false, emptyWorld).
Proof.
  split.
  - pose proof (RateLimitSpec.isRateLimited_hits_every_applicable
                  twoRulesEnv note emptyWorld) as H.
    cbv zeta in H.
    change (RateLimitSpec.bypassed twoRulesEnv note) with false in H.
    destruct H as (answers & w' & Hall & _ & Hcalls & Hrun).
    exists w'. injection Hall as <- _. split; [exact Hrun | exact Hcalls].
  - pose proof (RateLimitSpec.isRateLimited_hits_every_applicable
                  whitelistedEnv note emptyWorld) as H.
    cbv zeta in H.
    change (RateLimitSpec.bypassed whitelistedEnv note) with true in H.
    exact H.
Defined.

(** Admission: a submitter whose pubkey starts with a whitelisted
    prefix of the only admission fee, an unknown submitter that the
    webhook does not admit, and an admitted submitter with a balance of
    50 under a fee of 100 whose top-up succeeds. *)
Definition vipSettings : Settings :=
  {| payments := Some
       {| payments_enabled := true;
          feeSchedules := Some
            {| admission := [{| enabled := true; amount := 1000;
                                fee_whitelist_pubkeys := Some ["a"] |};
                             {| enabled := false; amount := 1000;
                                fee_whitelist_pubkeys := None |}];
               publication := []; topUp := [] |} |};
     limits_event := None; webhooks := None |}.

Definition vipEnv : Env := relay vipSettings PostThrows noStrategyRun.

Lemma isUserAdmitted_cases_witness :
  isUserAdmitted vipEnv note emptyWorld = (Ok None, emptyWorld)
  /\ isUserAdmitted refusingEnv note emptyWorld
     = (Ok (Some "blocked: pubkey not admitted"),
        snd (findByPubkey refusingEnv "ab" emptyWorld))
  /\ isUserAdmitted toppingEnv note fiftyWorld
     = (Ok None,
        snd (topUpPubkey toppingEnv "ab" (snd (findByPubkey toppingEnv "ab" fiftyWorld)))).
Proof.
  split; [|split].
  - apply (proj1 (isUserAdmitted_cases vipEnv note emptyWorld)). right. reflexivity.
  - apply (proj1 (proj2 (isUserAdmitted_cases refusingEnv note emptyWorld)));
      [reflexivity | discriminate | left; reflexivity].
  - pose proof (proj2 (proj2 (isUserAdmitted_cases toppingEnv note fiftyWorld))
                  eq_refl ltac:(discriminate)
                  {| admission := [{| enabled := true; amount := 1000;
                                      fee_whitelist_pubkeys := None |}];
                     publication := [{| enabled := true; amount := 100;
                                        fee_whitelist_pubkeys := None |}];
                     topUp := [{| enabled := true; amount := 500;
                                  fee_whitelist_pubkeys := None |}] |}
                  {| enabled := true; amount := 100; fee_whitelist_pubkeys := None |}
                  {| enabled := true; amount := 500; fee_whitelist_pubkeys := None |}
                  {| u_pubkey := "ab"; isAdmitted := true; balance := 50;
                     u_createdAt := 1; updatedAt := 1; tosAcceptedAt := None |}
                  (snd (findByPubkey toppingEnv "ab" fiftyWorld))
                  eq_refl eq_refl eq_refl eq_refl eq_refl eq_refl eq_refl) as H.
    cbn [enabled] in H. apply (H true). reflexivity.
Defined.

(** The lookup: a pubkey blocked in the cache until 1 700 000 060 000,
    looked up before and at that time; an unknown pubkey that the
    webhook admits with a balance of 700; an unknown pubkey that the
    webhook does not admit. *)
Definition blockedWorld : World :=
  set_cache (insert "ab:is-blocked" ("true", Some 1700000060000)) richWorld.

Definition laterEnv : Env := RepositoryMore.atTime refusingEnv 1700000060000.

Definition admittingEnv : Env := RepositoryMore.admittingEnv.

Lemma findByPubkey_cases_witness :
  findByPubkey refusingEnv "ab" blockedWorld
  = (Ok None, logged [CacheExists "ab:is-blocked"] blockedWorld)
  /\ findByPubkey laterEnv "ab" blockedWorld
     = (Ok (Some {| u_pubkey := "ab"; isAdmitted := true; balance := 500;
                    u_createdAt := 1700000000000; updatedAt := 1700000000000;
                    tosAcceptedAt := None |}),
        logged [CacheExists "ab:is-blocked"; DbSelectUser "ab"] blockedWorld)
  /\ findByPubkey admittingEnv "ab" emptyWorld
     = (Ok (Some {| u_pubkey := "ab"; isAdmitted := true; balance := 700;
                    u_createdAt := 1675727291; updatedAt := 1675727387;
                    tosAcceptedAt := None |}),
        set_users
          (insert "ab" {| db_pubkey := "ab"; is_admitted := true; db_balance := 700;
                          tos_accepted_at := Some 1700000000000;
                          updated_at := 1700000000000;
                          db_created_at := 1700000000000 |})
          (logged [CacheExists "ab:is-blocked"; DbSelectUser "ab";
                   HttpPost "http://hook/pubkey?token=token" (BodyPubkeyAmount "ab" 500);
                   DbUpsert {| db_pubkey := "ab"; is_admitted := true;
                               db_balance := 700;
                               tos_accepted_at := Some 1700000000000;
                               updated_at := 1700000000000;
                               db_created_at := 1700000000000 |}] emptyWorld))
  /\ findByPubkey refusingEnv "ab" emptyWorld
     = (Ok None,
        set_cache (insert "ab:is-blocked" ("true", Some 1700000060000))
          (logged [CacheExists "ab:is-blocked"; DbSelectUser "ab";
                   HttpPost "http://hook/pubkey?token=token" (BodyPubkeyAmount "ab" 500);
                   CacheSet "ab:is-blocked" "true"; CacheExpire "ab:is-blocked" 60]
             emptyWorld)).
Proof.
  split; [|split; [|split]].
  - apply (proj1 (findByPubkey_cases refusingEnv "ab" blockedWorld)).
    exists "true", (Some 1700000060000). split; [reflexivity|].
    intros t [= <-]. reflexivity.
  - apply (proj1 (proj2 (findByPubkey_cases laterEnv "ab" blockedWorld))
             (or_intror (ex_intro _ "true"
                           (ex_intro _ 1700000060000 (conj eq_refl (Z.le_refl _)))))
             richRow eq_refl).
  - apply (proj1 (proj2 (proj2 (findByPubkey_cases admittingEnv "ab" emptyWorld)))
             (or_introl eq_refl) eq_refl
             "http://hook/pubkey?token=token" 500 admitData 700
             eq_refl eq_refl eq_refl eq_refl eq_refl).
  - apply (proj2 (proj2 (proj2 (findByPubkey_cases refusingEnv "ab" emptyWorld)))
             (or_introl eq_refl) eq_refl
             [HttpPost "http://hook/pubkey?token=token" (BodyPubkeyAmount "ab" 500)]).
    exists 500. repeat split.
Defined.

End Instances.
